(** * Session store and response cache of files_handling

    A shallow embedding of [src/api/session_store.py] (class [SessionStore])
    and of the response cache of [src/api/document_processor.py]
    (method [DocumentProcessor.query_document]), with the properties of the
    cache-management layer stated and proved over it; and of what surrounds
    them: the file-type tests and [process_file] of the document processor,
    [src/api/url_processor.py], and the rate limiter and the handlers of
    [src/api/main.py].

    Conventions of the embedding.
    - [datetime] values are integers (microseconds); a [timedelta] is their
      difference.  Every [datetime.now()] of the source is an explicit
      argument of the operation that reads the clock, in program order.
    - A Python [dict] is an insertion-ordered association list ([PyDict]):
      the source depends on the iteration order ([min], [next(iter(...))]).
    - The directory [base_dir] is a finite map from file names to file
      contents.  [pickle] and [json] are taken to round-trip: a file holds
      the value that decoding it yields.
    - File names.  The source builds its paths with [pathlib]
      ([base_dir / f"{session_id}.pkl"]) and hands them to the operating
      system.  For a session id that is a file name ([plain_id]: no
      separator, no NUL, short enough for [NAME_MAX]) the path is the
      directory entry of that name, two ids give two entries, and [exists],
      [open] and [remove] do not fail on account of the name; the file
      operations of the embedding are those of the source for such ids, and
      are taken not to fail for other reasons (permissions, a full disk).
      For other ids [pathlib] normalises (["./s1"] and ["s1"] name the
      same files), the path may leave the directory, and the calls may
      raise ([exists] on a name longer than [NAME_MAX], [open] in a
      directory that does not exist): the embedding does not describe
      the store on such ids.
    - An exception that leaves the method is a [Raise] result. *)

From Stdlib Require Import ZArith List Ascii String Bool Lia DecimalString.
From stdpp Require Import base option list gmap strings fin_maps.

Open Scope Z_scope.

(** ** Results of operations that may raise *)

Inductive exn : Type :=
| IndexError
| ValueError
| RuntimeError.

Inductive result (A : Type) : Type :=
| Ok (a : A)
| Raise (e : exn).

Arguments Ok {A} a.
Arguments Raise {A} e.

Definition rbind {A B} (r : result A) (k : A → result B) : result B :=
  match r with
  | Ok a => k a
  | Raise e => Raise e
  end.

(** ** Python dictionaries with string keys, in insertion order *)

Module PyDict.
Section dict.
Context {V : Type}.

(** [d[k]], [None] standing for [KeyError] / absence. *)
Fixpoint get (k : string) (d : list (string * V)) : option V :=
  match d with
  | [] => None
  | (k', v) :: d' => if String.eqb k k' then Some v else get k d'
  end.

(** [k in d] *)
Definition contains (k : string) (d : list (string * V)) : bool :=
  match get k d with Some _ => true | None => false end.

(** [d[k] = v]: an existing key keeps its position, a new key goes last. *)
Fixpoint set (k : string) (v : V) (d : list (string * V)) : list (string * V) :=
  match d with
  | [] => [(k, v)]
  | (k', v') :: d' =>
      if String.eqb k k' then (k, v) :: d' else (k', v') :: set k v d'
  end.

(** [del d[k]] (the source guards every use by [k in d]). *)
Definition del (k : string) (d : list (string * V)) : list (string * V) :=
  List.filter (λ kv, negb (String.eqb k kv.1)) d.

(** iteration over the dict yields its keys, oldest insertion first *)
Definition keys (d : list (string * V)) : list string := map fst d.

(** [len(d)] *)
Definition len (d : list (string * V)) : Z := Z.of_nat (length d).

(** keys are unique in every dict the program can build *)
Definition wf (d : list (string * V)) : Prop := NoDup (keys d).
End dict.
End PyDict.

(** [min(xs, key=f)]: the first element whose key is minimal;
    [None] stands for the [ValueError] on an empty sequence. *)
Fixpoint py_min_from {A} (f : A → Z) (best : A) (xs : list A) : A :=
  match xs with
  | [] => best
  | x :: xs' => py_min_from f (if f x <? f best then x else best) xs'
  end.

Definition py_min {A} (f : A → Z) (xs : list A) : option A :=
  match xs with
  | [] => None
  | x :: xs' => Some (py_min_from f x xs')
  end.

(** ** The response cache of [DocumentProcessor] *)

(** A source node of a query-engine response: [metadata.get("is_code", False)]
    and [metadata.get("language")]. *)
Record SourceNode : Type := {
  node_is_code : bool;
  node_language : option string
}.

(** The dict stored per cache key, which is also the [QueryResponse]
    rebuilt from it on a hit. *)
Record QueryResponse : Type := {
  response : string;
  source_nodes : list SourceNode;
  is_code : bool;
  language : string;
  response_time : Z
}.

Record DocumentProcessor : Type := {
  index : option Z;                              (* [self.index], an opaque handle *)
  _response_cache : list (string * QueryResponse);
  _cache_size : Z
}.

(** [DocumentProcessor.__init__], as far as the cache is concerned *)
Definition new_processor : DocumentProcessor :=
  {| index := None; _response_cache := []; _cache_size := 100 |}.

(** Query strings are sequences of code points below 256, one [ascii]
    each; [str.isspace] and [str.lower] are Python's on that range. *)
Definition py_isspace (c : ascii) : bool :=
  let n := N_of_ascii c in
  ((9 <=? n) && (n <=? 13) || (28 <=? n) && (n <=? 32)
   || (n =? 133) || (n =? 160))%N.

Definition lower_char (c : ascii) : ascii :=
  let n := N_of_ascii c in
  if ((65 <=? n) && (n <=? 90)
      || (192 <=? n) && (n <=? 222) && negb (n =? 215))%N
  then ascii_of_N (n + 32)
  else c.

Fixpoint lstrip_chars (l : list ascii) : list ascii :=
  match l with
  | [] => []
  | c :: l' => if py_isspace c then lstrip_chars l' else l
  end.

Definition strip_chars (l : list ascii) : list ascii :=
  rev (lstrip_chars (rev (lstrip_chars l))).

(** [s.strip()] *)
Definition strip (s : string) : string :=
  string_of_list_ascii (strip_chars (list_ascii_of_string s)).

(** [s.lower()] *)
Definition lower (s : string) : string :=
  string_of_list_ascii (map lower_char (list_ascii_of_string s)).

(** line 170 *)
Definition cache_key (query : string) : string := lower (strip query).

(** What [query_engine.query(query)] hands back: [str(response)] and
    [response.source_nodes]. *)
Record EngineResponse : Type := {
  engine_text : string;
  engine_nodes : list SourceNode
}.

Definition with_response_cache (c : list (string * QueryResponse))
    (self : DocumentProcessor) : DocumentProcessor :=
  {| index := index self; _response_cache := c; _cache_size := _cache_size self |}.

(** lines 207-209: [pop(next(iter(cache)))] when the cache is full.  On an
    empty dict [next] raises [StopIteration], which leaves a coroutine as
    a [RuntimeError]. *)
Definition make_room (self : DocumentProcessor)
    : result (list (string * QueryResponse)) :=
  let c := _response_cache self in
  if _cache_size self <=? PyDict.len c then
    match PyDict.keys c with
    | first :: _ => Ok (PyDict.del first c)
    | [] => Raise RuntimeError
    end
  else Ok c.

(** [query_document].  [engine] is the outcome of the delegated query
    ([None]: it raised or returned a false value); [start_time] and
    [end_time] are the clock readings of lines 176 and 193. *)
Definition query_document (query : string) (engine : option EngineResponse)
    (start_time end_time : Z) (self : DocumentProcessor)
    : result (QueryResponse * DocumentProcessor) :=
  match index self with
  | None => Raise ValueError
  | Some _ =>
      let key := cache_key query in
      match PyDict.get key (_response_cache self) with
      | Some cached => Ok (cached, self)
      | None =>
          match engine with
          | None => Raise ValueError
          | Some resp =>
              if String.eqb (strip (engine_text resp)) "" then Raise ValueError
              else
                let code := existsb node_is_code (engine_nodes resp) in
                let lang :=
                  if code then
                    match engine_nodes resp with
                    | n :: _ => default "python"%string (node_language n)
                    | [] => "python"%string
                    end
                  else "python"%string in
                let res :=
                  {| response := engine_text resp;
                     source_nodes := engine_nodes resp;
                     is_code := code;
                     language := lang;
                     response_time := end_time - start_time |} in
                rbind (make_room self) (λ c,
                  Ok (res, with_response_cache (PyDict.set key res c) self))
          end
      end
  end.

(** ** Session store state *)

Record Metadata : Type := {
  meta_session_id : string;
  created_at : Z;
  last_accessed : Z;
  meta_ip_address : option string
}.

Inductive File : Type :=
| PickleFile (p : DocumentProcessor)   (* [pickle.dumps(processor)] *)
| JsonFile (m : Metadata).             (* [json.dumps(metadata)] *)

Record SessionStore : Type := {
  base_dir : gmap string File;
  max_sessions_per_ip : Z;
  session_timeout : Z;
  ip_sessions : gmap string (list string);
  _session_cache : list (string * (DocumentProcessor * Z));
  _max_cache_size : Z
}.

Definition with_files (fs : gmap string File) (st : SessionStore) : SessionStore :=
  {| base_dir := fs;
     max_sessions_per_ip := max_sessions_per_ip st;
     session_timeout := session_timeout st;
     ip_sessions := ip_sessions st;
     _session_cache := _session_cache st;
     _max_cache_size := _max_cache_size st |}.

Definition with_cache (c : list (string * (DocumentProcessor * Z)))
    (st : SessionStore) : SessionStore :=
  {| base_dir := base_dir st;
     max_sessions_per_ip := max_sessions_per_ip st;
     session_timeout := session_timeout st;
     ip_sessions := ip_sessions st;
     _session_cache := c;
     _max_cache_size := _max_cache_size st |}.

Definition with_ip_sessions (m : gmap string (list string))
    (st : SessionStore) : SessionStore :=
  {| base_dir := base_dir st;
     max_sessions_per_ip := max_sessions_per_ip st;
     session_timeout := session_timeout st;
     ip_sessions := m;
     _session_cache := _session_cache st;
     _max_cache_size := _max_cache_size st |}.

(** [timedelta(hours=h)] in microseconds *)
Definition hours (h : Z) : Z := h * 3600000000.

(** [SessionStore.__init__]: [files] is what the directory already holds.
    Line 41, [asyncio.create_task(self._cleanup_old_sessions())], only
    schedules the scan task: the constructor returns before any pass has
    run.  The passes of the task (the first as soon as the event loop runs
    it, then one an hour) are [_cleanup_old_sessions] steps on the store
    that the constructor returns; see [restarted] and the [Cleanup] steps
    of [run]. *)
Definition __init__ (files : gmap string File)
    (max_sessions : Z) (session_timeout_hours : Z) : SessionStore :=
  {| base_dir := files;
     max_sessions_per_ip := max_sessions;
     session_timeout := hours session_timeout_hours;
     ip_sessions := ∅;
     _session_cache := [];
     _max_cache_size := 50 |}.

(** the defaults of the constructor, on an empty directory *)
Definition default_store : SessionStore := __init__ ∅ 5 24.

(** [base_dir / f"{session_id}.pkl"], as the name of the entry in the
    directory: the name itself for an id that is a file name ([plain_id]
    below).  For an id with a separator [pathlib] drops ["."] components
    and repeated separators, so that the string is not the entry. *)
Definition _get_session_path (session_id : string) : string :=
  String.append session_id ".pkl".

(** [base_dir / f"{session_id}_meta.json"], likewise *)
Definition _get_metadata_path (session_id : string) : string :=
  String.append session_id "_meta.json".

(** [len(os.fsencode(name))]: in UTF-8 a code point below 128 takes one
    byte, the others of the range two *)
Definition fsencode_length (name : string) : Z :=
  fold_right
    (λ c n, (if (N_of_ascii c <? 128)%N then 1 else 2) + n)
    0 (list_ascii_of_string name).

(** the longest file name of the file systems of Linux, in bytes *)
Definition NAME_MAX : Z := 255.

(** [session_id] is a file name: it has no separator and no NUL, and the
    longer of its two file names fits [NAME_MAX] *)
Definition plain_id (session_id : string) : bool :=
  forallb (λ c, negb (Ascii.eqb c "/") && negb (Ascii.eqb c "000"))
          (list_ascii_of_string session_id)
  && (fsencode_length (_get_metadata_path session_id) <=? NAME_MAX).

(** ** [delete_session] *)

(** lines 163-182, for an id that is a file name: neither [exists] nor
    [remove] raises then, and the result is the [True] of line 179.  The
    [except] branch of lines 180-182 ([False], with the cache entry already
    dropped) is taken when [exists] raises, as it does on a name longer
    than [NAME_MAX]; it is not part of the embedding. *)
Definition delete_session (session_id : string) (st : SessionStore)
    : bool * SessionStore :=
  let cache :=
    if PyDict.contains session_id (_session_cache st)
    then PyDict.del session_id (_session_cache st)
    else _session_cache st in
  let session_path := _get_session_path session_id in
  let meta_path := _get_metadata_path session_id in
  let fs1 :=
    match base_dir st !! session_path with
    | Some _ => delete session_path (base_dir st)
    | None => base_dir st
    end in
  let fs2 :=
    match fs1 !! meta_path with
    | Some _ => delete meta_path fs1
    | None => fs1
    end in
  (true, with_files fs2 (with_cache cache st)).

(** ** [get_sessions_for_ip] *)

Definition get_sessions_for_ip (ip_address : string) (st : SessionStore)
    : list string :=
  default [] (ip_sessions st !! ip_address).

(** ** [save_session] *)

(** [if ip_address:] holds for a string that is neither [None] nor empty *)
Definition truthy (ip_address : option string) : option string :=
  match ip_address with
  | Some ip => if String.eqb ip "" then None else Some ip
  | None => None
  end.

(** lines 88-97: the per-client quota *)
Definition register_ip (session_id : string) (ip_address : option string)
    (st : SessionStore) : result SessionStore :=
  match truthy ip_address with
  | None => Ok st
  | Some ip =>
      let ips := default [] (ip_sessions st !! ip) in
      if max_sessions_per_ip st <=? Z.of_nat (length ips) then
        match ips with
        | [] => Raise IndexError
        | oldest_session :: rest =>
            let st1 := (delete_session oldest_session st).2 in
            Ok (with_ip_sessions
                  (<[ip := rest ++ [session_id]]> (ip_sessions st1)) st1)
        end
      else
        Ok (with_ip_sessions (<[ip := ips ++ [session_id]]> (ip_sessions st)) st)
  end.

(** the key function of line 104: [self._session_cache[k][1]] *)
Definition cache_time (c : list (string * (DocumentProcessor * Z))) (k : string) : Z :=
  match PyDict.get k c with
  | Some (_, t) => t
  | None => 0
  end.

(** lines 102-105: at most one eviction per call *)
Definition evict_lru (st : SessionStore) : SessionStore :=
  let c := _session_cache st in
  if _max_cache_size st <? PyDict.len c then
    match py_min (cache_time c) (PyDict.keys c) with
    | Some oldest_key => with_cache (PyDict.del oldest_key c) st
    | None => st
    end
  else st.

(** lines 107-118: the payload file and the metadata file.  Both writes
    succeed, as they do for an id that is a file name; a write that raises
    in the source (an id such as ["a/b"]) does so after the quota list and
    the hot cache were updated, which a [Raise] of [save_session] below
    does not show. *)
Definition write_session (session_id : string) (processor : DocumentProcessor)
    (ip_address : option string) (t_created t_accessed : Z)
    (st : SessionStore) : SessionStore :=
  let metadata :=
    {| meta_session_id := session_id;
       created_at := t_created;
       last_accessed := t_accessed;
       meta_ip_address := ip_address |} in
  with_files
    (<[_get_metadata_path session_id := JsonFile metadata]>
       (<[_get_session_path session_id := PickleFile processor]> (base_dir st)))
    st.

(** [t_cache], [t_created], [t_accessed]: the three clock readings of
    lines 100, 113 and 114. *)
Definition save_session (session_id : string) (processor : DocumentProcessor)
    (ip_address : option string) (t_cache t_created t_accessed : Z)
    (st : SessionStore) : result SessionStore :=
  rbind (register_ip session_id ip_address st) (λ st1,
    let st2 :=
      with_cache (PyDict.set session_id (processor, t_cache) (_session_cache st1)) st1 in
    let st3 := evict_lru st2 in
    Ok (write_session session_id processor ip_address t_created t_accessed st3)).

(** ** [load_session] *)

(** [t_cache] is the clock reading of line 125 (hit) or 146 (miss),
    [t_meta] that of line 153.  [session_path.exists()] (line 131) is
    outside the [try]: on a name that cannot be examined (longer than
    [NAME_MAX]) it raises, where the embedding answers [None]; for an id
    that is a file name it does not raise. *)
Definition load_session (session_id : string) (t_cache t_meta : Z)
    (st : SessionStore) : option DocumentProcessor * SessionStore :=
  match PyDict.get session_id (_session_cache st) with
  | Some (processor, _) =>
      (Some processor,
       with_cache (PyDict.set session_id (processor, t_cache) (_session_cache st)) st)
  | None =>
      match base_dir st !! _get_session_path session_id with
      | None => (None, st)
      | Some (JsonFile _) => (None, st)            (* [pickle.loads] raises *)
      | Some (PickleFile processor) =>
          match index processor with
          | None => (None, st)
          | Some _ =>
              let st1 :=
                with_cache
                  (PyDict.set session_id (processor, t_cache) (_session_cache st)) st in
              match base_dir st1 !! _get_metadata_path session_id with
              | None => (Some processor, st1)
              | Some (PickleFile _) => (None, st1)  (* [json.loads] raises *)
              | Some (JsonFile metadata) =>
                  let metadata' :=
                    {| meta_session_id := meta_session_id metadata;
                       created_at := created_at metadata;
                       last_accessed := t_meta;
                       meta_ip_address := meta_ip_address metadata |} in
                  (Some processor,
                   with_files
                     (<[_get_metadata_path session_id := JsonFile metadata']>
                        (base_dir st1)) st1)
              end
          end
      end
  end.

(** ** One iteration of [_cleanup_old_sessions] *)

(** lines 55-62: expired entries of the memory cache *)
Definition _cleanup_cache (now : Z) (st : SessionStore) : SessionStore :=
  let expired_keys :=
    map fst
      (List.filter (λ e, session_timeout st <? now - e.2.2) (_session_cache st)) in
  fold_left
    (λ st' key,
       if PyDict.contains key (_session_cache st')
       then with_cache (PyDict.del key (_session_cache st')) st'
       else st')
    expired_keys st.

(** the pattern [*_meta.json] of [glob] *)
Fixpoint starts_with (p s : list ascii) : bool :=
  match p, s with
  | [], _ => true
  | _ :: _, [] => false
  | a :: p', b :: s' => Ascii.eqb a b && starts_with p' s'
  end.

Definition ends_with (suffix name : string) : bool :=
  starts_with (rev (list_ascii_of_string suffix)) (rev (list_ascii_of_string name)).

Definition glob_meta (fs : gmap string File) : list string :=
  List.filter (ends_with "_meta.json") (map fst (map_to_list fs)).

(** lines 67-77, the body of the loop over [meta_files]; a file that cannot
    be opened or decoded raises inside the [try], and the loop goes on *)
Definition _cleanup_meta_file (now : Z) (st : SessionStore) (meta_file : string)
    : SessionStore :=
  match base_dir st !! meta_file with
  | Some (JsonFile metadata) =>
      if session_timeout st <? now - last_accessed metadata
      then (delete_session (meta_session_id metadata) st).2
      else st
  | Some (PickleFile _) => st
  | None => st
  end.

Definition _cleanup_disk (now : Z) (meta_files : list string) (st : SessionStore)
    : SessionStore :=
  fold_left (_cleanup_meta_file now) meta_files st.

(** one pass of the [while True] loop, the clock read once at line 53 *)
Definition _cleanup_old_sessions (now : Z) (st : SessionStore) : SessionStore :=
  let st1 := _cleanup_cache now st in
  _cleanup_disk now (glob_meta (base_dir st1)) st1.

(** a store constructed on [files] and the passes that its scan task
    (line 41) has run since, at the times [nows] *)
Definition restarted (files : gmap string File)
    (max_sessions session_timeout_hours : Z) (nows : list Z) : SessionStore :=
  fold_left (λ st now, _cleanup_old_sessions now st) nows
            (__init__ files max_sessions session_timeout_hours).

(** ** Observations on a store *)

Definition in_hot_cache (session_id : string) (st : SessionStore) : bool :=
  PyDict.contains session_id (_session_cache st).

Definition payload_file (session_id : string) (st : SessionStore) : option File :=
  base_dir st !! _get_session_path session_id.

Definition metadata_file (session_id : string) (st : SessionStore) : option File :=
  base_dir st !! _get_metadata_path session_id.

Definition in_durable_store (session_id : string) (st : SessionStore) : bool :=
  match payload_file session_id st, metadata_file session_id st with
  | None, None => false
  | _, _ => true
  end.

(** ** Auxiliary definitions and the examples used below *)

(** [gone s st]: [s] is in neither the hot cache nor the durable store. *)
Definition gone (s : string) (st : SessionStore) : Prop :=
  in_hot_cache s st = false ∧ payload_file s st = None ∧ metadata_file s st = None.

Definition a_processor : DocumentProcessor :=
  {| index := Some 1; _response_cache := []; _cache_size := 100 |}.

(** one session ["s1"] saved for client ["10.0.0.1"] in a fresh store *)
Definition store_with_s1 : SessionStore :=
  match save_session "s1" a_processor (Some "10.0.0.1"%string) 0 0 0 default_store with
  | Ok st => st
  | Raise _ => default_store
  end.

(** deletion as the specification words it: after [delete_session s] the
    id is gone from the hot cache, from the durable store and from the
    quota list of its client *)
Definition delete_clears_all_three_tiers (st : SessionStore) (c s : string) : Prop :=
  s ∈ get_sessions_for_ip c st →
  let st' := (delete_session s st).2 in
  in_hot_cache s st' = false
  ∧ payload_file s st' = None ∧ metadata_file s st' = None
  ∧ s ∉ get_sessions_for_ip c st'.

(** while the scan runs, the metadata record of [s] is either still the
    one the scan started from or [s] is gone altogether *)
Definition pending (s : string) (m : Metadata) (st : SessionStore) : Prop :=
  metadata_file s st = Some (JsonFile m) ∨ gone s st.

(** a fresh store in which ["s1"] was saved at time [0] *)
Definition store_saved_at_0 : SessionStore :=
  match save_session "s1" a_processor None 0 0 0 default_store with
  | Ok st => st
  | Raise _ => default_store
  end.

(** a store restarted on the files of [store_saved_at_0]: nothing cached *)
Definition store_restarted : SessionStore :=
  __init__ (base_dir store_saved_at_0) 5 24.

(** what lines 90-96 do to the list of one client *)
Definition quota_step (max : Z) (l : list string) (s : string) : list string :=
  (if max <=? Z.of_nat (length l) then tail l else l) ++ [s].

(** the session that lines 90-93 delete to make room in the quota, if any *)
Definition quota_victim (ip_address : option string) (st : SessionStore)
    : option string :=
  match truthy ip_address with
  | Some ip =>
      let ips := get_sessions_for_ip ip st in
      if max_sessions_per_ip st <=? Z.of_nat (length ips) then head ips else None
  | None => None
  end.

(** one [save_session] call of a sequence: id, payload, clock readings *)
Record save_call : Type := {
  call_id : string;
  call_processor : DocumentProcessor;
  call_t_cache : Z;
  call_t_created : Z;
  call_t_accessed : Z
}.

(** the calls in order, for one client; the first exception ends the run *)
Fixpoint save_all (ip_address : option string) (calls : list save_call)
    (st : SessionStore) : result SessionStore :=
  match calls with
  | [] => Ok st
  | a :: calls' =>
      rbind (save_session (call_id a) (call_processor a) ip_address
               (call_t_cache a) (call_t_created a) (call_t_accessed a) st)
            (save_all ip_address calls')
  end.


(** a store with a quota of two sessions per client *)
Definition store_quota_2 : SessionStore := __init__ ∅ 2 24.

Definition call (s : string) (t : Z) : save_call :=
  {| call_id := s; call_processor := a_processor;
     call_t_cache := t; call_t_created := t; call_t_accessed := t |}.


(** a quota-two store in which client ["10.0.0.1"] has saved ["s1"] once *)
Definition store_quota_2_s1 : SessionStore :=
  match save_session "s1" a_processor (Some "10.0.0.1"%string) 1 1 1 store_quota_2 with
  | Ok st => st
  | Raise _ => store_quota_2
  end.

(** session ids ["s0"], ["s1"], ... *)
Definition sid (n : nat) : string :=
  String.append "s" (NilEmpty.string_of_uint (Nat.to_uint n)).

(** [save_session(sid k, a_processor)] for [k = 0 .. n-1], at times [0 .. n-1],
    without a client id (as [main.py] calls it) *)
Definition saves (n : nat) : list save_call :=
  map (λ k, call (sid k) (Z.of_nat k)) (seq 0 n).

(** a store whose hot cache holds two sessions at most *)
Definition store_cache_2 : SessionStore :=
  {| base_dir := ∅; max_sessions_per_ip := 5; session_timeout := hours 24;
     ip_sessions := ∅; _session_cache := []; _max_cache_size := 2 |}.

Definition no_index_processor : DocumentProcessor :=
  {| index := None; _response_cache := []; _cache_size := 100 |}.

(** eviction as the specification words it: a session [e] with durable payload
    [q] and metadata [m] that a [save_session] of another id drops from the
    hot cache (and that is not the victim of the quota) keeps both records
    and is returned by the next [load_session]. *)
Definition eviction_keeps_session_loadable (st : SessionStore) (s : string)
    (p : DocumentProcessor) (ip : option string) (t1 t2 t3 : Z)
    (e : string) (q : DocumentProcessor) (m : Metadata) : Prop :=
  ∀ st',
    save_session s p ip t1 t2 t3 st = Ok st' →
    e ≠ s →
    quota_victim ip st ≠ Some e →
    payload_file e st = Some (PickleFile q) →
    metadata_file e st = Some (JsonFile m) →
    in_hot_cache e st = true →
    in_hot_cache e st' = false →
    payload_file e st' = Some (PickleFile q)
    ∧ metadata_file e st' = Some (JsonFile m)
    ∧ ∀ t t', (load_session e t t' st').1 = Some q.

(** a default store holding ["old"], saved at time [0] with processor [q],
    and then ["s1"] .. ["s49"]: 50 cached sessions, ["old"] the least recent *)
Definition store_full (q : DocumentProcessor) : SessionStore :=
  match save_session "old" q None 0 0 0 default_store with
  | Ok st =>
      match save_all None (tail (saves 50)) st with
      | Ok st' => st'
      | Raise _ => default_store
      end
  | Raise _ => default_store
  end.

Definition old_metadata : Metadata :=
  {| meta_session_id := "old"; created_at := 0; last_accessed := 0;
     meta_ip_address := None |}.

(** the store after the 51st save on [store_full a_processor] *)
Definition store_after_overflow : SessionStore :=
  match save_session (sid 50) a_processor None 50 50 50 (store_full a_processor) with
  | Ok st => st
  | Raise _ => default_store
  end.



Definition hello_response : EngineResponse :=
  {| engine_text := "Hi there"; engine_nodes := [] |}.

(** a [query_document] call of a sequence: query, engine outcome, clock *)
Record query_call : Type := {
  call_query : string;
  call_engine : option EngineResponse;
  call_start : Z;
  call_end : Z
}.

(** the calls in order on one processor; a call that raises leaves the
    processor as it was *)
Fixpoint run_queries (calls : list query_call) (self : DocumentProcessor)
    : DocumentProcessor :=
  match calls with
  | [] => self
  | a :: calls' =>
      match query_document (call_query a) (call_engine a)
              (call_start a) (call_end a) self with
      | Ok (_, self') => run_queries calls' self'
      | Raise _ => run_queries calls' self
      end
  end.

Definition cache_within_capacity (self : DocumentProcessor) : Prop :=
  PyDict.wf (_response_cache self)
  ∧ 0 < _cache_size self
  ∧ PyDict.len (_response_cache self) <= _cache_size self.

(** queries ["q0"], ["q1"], ..., each answered by the engine *)
Definition queries (n : nat) : list query_call :=
  map (λ k, {| call_query := String.append "q" (NilEmpty.string_of_uint (Nat.to_uint k));
               call_engine := Some hello_response;
               call_start := 0; call_end := 1 |})
      (seq 0 n).

(** a processor whose response cache is full: 100 distinct queries served *)
Definition full_processor : DocumentProcessor := run_queries (queries 100) a_processor.

(** the operations of the store, and a run of them from a given state;
    a [save_session] that raises leaves the store as it was *)
Inductive operation : Type :=
| Save (session_id : string) (processor : DocumentProcessor)
       (ip_address : option string) (t_cache t_created t_accessed : Z)
| Load (session_id : string) (t_cache t_meta : Z)
| Delete (session_id : string)
| Cleanup (now : Z).

Definition step (st : SessionStore) (op : operation) : SessionStore :=
  match op with
  | Save s p ip t1 t2 t3 =>
      match save_session s p ip t1 t2 t3 st with
      | Ok st' => st'
      | Raise _ => st
      end
  | Load s t t' => (load_session s t t' st).2
  | Delete s => (delete_session s st).2
  | Cleanup now => _cleanup_old_sessions now st
  end.

Definition run (ops : list operation) (st : SessionStore) : SessionStore :=
  fold_left step ops st.

(** what every store reached from [__init__] satisfies: the keys of the
    hot cache are unique and no client list is longer than the quota *)
Definition store_invariant (st : SessionStore) : Prop :=
  PyDict.wf (_session_cache st)
  ∧ ∀ c, Z.of_nat (length (get_sessions_for_ip c st)) <= max_sessions_per_ip st.

(** every metadata file that [glob] can list is the one of the session
    it names; true of a directory that only this store has written *)
Definition files_wf (fs : gmap string File) : Prop :=
  ∀ name m,
    ends_with "_meta.json" name = true →
    fs !! name = Some (JsonFile m) →
    name = _get_metadata_path (meta_session_id m).

(** the metadata record with its [last_accessed] replaced (lines 152-155) *)
Definition touch (t : Z) (m : Metadata) : Metadata :=
  {| meta_session_id := meta_session_id m;
     created_at := created_at m;
     last_accessed := t;
     meta_ip_address := meta_ip_address m |}.

(** a store that grants no session to any client *)
Definition store_quota_0 : SessionStore := __init__ ∅ 0 24.

(** the metadata record that [store_saved_at_0] holds for ["s1"] *)
Definition s1_metadata : Metadata :=
  {| meta_session_id := "s1"; created_at := 0; last_accessed := 0;
     meta_ip_address := None |}.

(** [store_cache_2] after saving ["A"] and ["B"], and then ["C"] *)
Definition store_cache_2_AB : SessionStore :=
  match save_all None [call "A" 1; call "B" 2] store_cache_2 with
  | Ok st => st
  | Raise _ => store_cache_2
  end.

Definition store_cache_2_ABC : SessionStore :=
  match save_all None [call "C" 3] store_cache_2_AB with
  | Ok st => st
  | Raise _ => store_cache_2
  end.

(** [store_quota_2_s1] after the same client saved ["s2"] *)
Definition store_quota_2_s1_s2 : SessionStore :=
  match save_session "s2" a_processor (Some "10.0.0.1"%string) 2 2 2 store_quota_2_s1 with
  | Ok st => st
  | Raise _ => store_quota_2
  end.

Definition some_operations : list operation :=
  [Save "s1" a_processor (Some "10.0.0.1"%string) 0 0 0;
   Load "s1" 5 5; Cleanup (hours 30); Delete "s1"].

(** ** File names and file types ([document_processor.py], [app.py]) *)

(** [s.rfind(c)] for a one-character [c]: the index of its last
    occurrence, or [-1] *)
Fixpoint rfind (c : ascii) (l : list ascii) : Z :=
  match l with
  | [] => -1
  | a :: l' =>
      let r := rfind c l' in
      if 0 <=? r then r + 1 else if Ascii.eqb a c then 0 else -1
  end.

(** [os.path.splitext] of [posixpath] ([genericpath._splitext] with
    [sep = '/'], no [altsep], [extsep = '.']): the extension starts at the
    last dot of the last component, unless only dots precede it there *)
Definition splitext_chars (p : list ascii) : list ascii * list ascii :=
  let sepIndex := rfind "/" p in
  let dotIndex := rfind "." p in
  if sepIndex <? dotIndex then
    if existsb (λ a, negb (Ascii.eqb a "."))
         (take (Z.to_nat (dotIndex - (sepIndex + 1)))
               (drop (Z.to_nat (sepIndex + 1)) p))
    then (take (Z.to_nat dotIndex) p, drop (Z.to_nat dotIndex) p)
    else (p, [])
  else (p, []).

Definition splitext (p : string) : string * string :=
  (string_of_list_ascii (splitext_chars (list_ascii_of_string p)).1,
   string_of_list_ascii (splitext_chars (list_ascii_of_string p)).2).

(** [x in s] for a set (or list) of strings *)
Definition in_set (x : string) (s : list string) : bool := existsb (String.eqb x) s.

(** [code_extensions] of [DocumentProcessor.is_code_file] *)
Definition code_extensions : list string :=
  [".py"; ".js"; ".java"; ".cpp"; ".c"; ".cs"; ".html"; ".css"]%string.

(** [self.supported_extensions], as [DocumentProcessor.__init__] sets it *)
Definition supported_extensions : list string :=
  [".pdf"; ".docx"; ".doc"; ".txt"; ".rtf"; ".odt";
   ".md"; ".rst"; ".tex";
   ".eml"; ".msg"; ".mbox";
   ".pptx"; ".ppt"; ".odp";
   ".xlsx"; ".xls"; ".csv"; ".ods";
   ".py"; ".js"; ".java"; ".cpp"; ".c"; ".cs"; ".html";
   ".css"; ".php"; ".rb"; ".go"; ".rs"; ".swift"; ".kt"; ".ts";
   ".json"; ".xml"; ".yaml"; ".yml"; ".toml"; ".ini";
   ".epub"; ".mobi";
   ".zip"; ".tar"; ".gz"; ".7z"; ".rar";
   ".html"; ".htm"; ".mht"; ".mhtml";
   ".sqlite"; ".db";
   ".ipynb"]%string.

(** [DocumentProcessor.is_code_file] ([lru_cache] only memoizes it) *)
Definition is_code_file (filename : string) : bool :=
  in_set (lower (splitext filename).2) code_extensions.

(** [DocumentProcessor.is_supported_file] *)
Definition is_supported_file (filename : string) : bool :=
  in_set (lower (splitext filename).2) supported_extensions.

(** [get_file_extension] and [is_code_file] of [app.py] *)
Definition get_file_extension (filename : string) : string :=
  lower (splitext filename).2.

Definition app_code_extensions : list string :=
  [".py"; ".js"; ".java"; ".cpp"; ".c"; ".cs"; ".html"; ".css";
   ".php"; ".rb"; ".go"; ".rs"; ".swift"; ".kt"; ".ts"; ".sql";
   ".xml"; ".json"; ".yaml"; ".yml"; ".sh"; ".bat"; ".ps1"]%string.

Definition app_is_code_file (filename : string) : bool :=
  in_set (get_file_extension filename) app_code_extensions.

(** a path component made of dots only *)
Definition all_dots (l : list ascii) : Prop := Forall (λ a, a = "."%char) l.

(** [pre] is empty or ends with the separator: what precedes the last
    component of a path *)
Definition dir_prefix (pre : list ascii) : Prop :=
  pre = [] ∨ ∃ pre0, pre = pre0 ++ ["/"%char].

(** a last path component that can carry an extension: no separator in
    it, and some character other than a dot *)
Definition stem (name : string) : Prop :=
  ("/"%char ∉ list_ascii_of_string name)
  ∧ ∃ a, a ∈ list_ascii_of_string name ∧ a ≠ "."%char.

(** an extension as [splitext] yields it: a dot, then neither a dot nor
    a separator *)
Definition extension (ext : string) : Prop :=
  ∃ e, list_ascii_of_string ext = "."%char :: e ∧ ("."%char ∉ e) ∧ ("/"%char ∉ e).

(** what may precede the last component: nothing, or a path ending in
    the separator *)
Definition directory (pre : string) : Prop := dir_prefix (list_ascii_of_string pre).

(** ** [DocumentProcessor.process_file] *)

(** the two metadata entries of a loaded document that the code writes *)
Record Document : Type := {
  doc_is_code : option bool;
  doc_language : option string
}.

(** what the collaborators of [process_file] answer for one call:
    the file system, [SimpleDirectoryReader.load_data] ([None]: it
    raised), [get_lexer_for_filename(file_path).aliases] ([None]: it
    raised), [VectorStoreIndex.from_documents] ([None]: it raised;
    [Some None]: a false value) and [uuid.uuid4()] *)
Record ProcessEnv : Type := {
  env_exists : bool;
  env_getsize : Z;
  env_load_data : option (list Document);
  env_lexer_aliases : option (list string);
  env_from_documents : list Document → option (option Z);
  env_uuid4 : string
}.

(** lines 137-144, for one document *)
Definition tag_document (file_path : string) (env : ProcessEnv) (doc : Document)
    : Document :=
  if is_code_file file_path then
    match env_lexer_aliases env with
    | Some (alias :: _) =>
        {| doc_is_code := Some true; doc_language := Some alias |}
    | Some [] | None =>
        {| doc_is_code := Some false; doc_language := doc_language doc |}
    end
  else doc.

Definition with_index (idx : option Z) (self : DocumentProcessor) : DocumentProcessor :=
  {| index := idx; _response_cache := _response_cache self;
     _cache_size := _cache_size self |}.

(** [process_file]: every exception leaves it as a [ValueError]; the
    processor is returned too, since [self.index] is assigned before the
    last check *)
Definition process_file (file_path : string) (env : ProcessEnv)
    (self : DocumentProcessor) : result string * DocumentProcessor :=
  if negb (is_supported_file file_path) then (Raise ValueError, self)
  else if negb (env_exists env) then (Raise ValueError, self)
  else if env_getsize env <? 100 then (Raise ValueError, self)
  else
    match env_load_data env with
    | None => (Raise ValueError, self)
    | Some [] => (Raise ValueError, self)
    | Some documents =>
        match env_from_documents env (map (tag_document file_path env) documents) with
        | None => (Raise ValueError, self)
        | Some None => (Raise ValueError, with_index None self)
        | Some (Some idx) => (Ok (env_uuid4 env), with_index (Some idx) self)
        end
    end.

(** an environment in which everything succeeds *)
Definition good_env : ProcessEnv :=
  {| env_exists := true;
     env_getsize := 2048;
     env_load_data := Some [{| doc_is_code := None; doc_language := None |}];
     env_lexer_aliases := Some ["python"%string];
     env_from_documents := λ _, Some (Some 7);
     env_uuid4 := "3f2b8c1e-uuid" |}.

Definition processed : DocumentProcessor :=
  {| index := Some 7; _response_cache := []; _cache_size := 100 |}.

(** ** [URLProcessor] *)

(** [pat in s] for strings, on their characters *)
Fixpoint contains_chars (pat s : list ascii) : bool :=
  starts_with pat s
  || match s with
     | [] => false
     | _ :: s' => contains_chars pat s'
     end.

Definition str_contains (pat s : string) : bool :=
  contains_chars (list_ascii_of_string pat) (list_ascii_of_string s).

(** [s.replace(old, new)] for a non-empty [old]: the occurrences are
    found from the left and do not overlap; [skip] counts the characters
    of a replaced occurrence still to pass *)
Fixpoint replace_from (old new : list ascii) (skip : nat) (s : list ascii)
    : list ascii :=
  match s with
  | [] => []
  | a :: s' =>
      match skip with
      | S k => replace_from old new k s'
      | O =>
          if starts_with old s
          then new ++ replace_from old new (length old - 1) s'
          else a :: replace_from old new 0 s'
      end
  end.

(** with an empty [old] Python puts [new] before every character and at
    the end *)
Definition replace_chars (old new s : list ascii) : list ascii :=
  match old with
  | [] => new ++ flat_map (λ a, a :: new) s
  | _ :: _ => replace_from old new 0 s
  end.

Definition str_replace (old new s : string) : string :=
  string_of_list_ascii
    (replace_chars (list_ascii_of_string old) (list_ascii_of_string new)
       (list_ascii_of_string s)).

(** [_convert_dropbox_url] ([lru_cache] only memoizes it) *)
Definition _convert_dropbox_url (url : string) : string :=
  if str_contains "dropbox.com" url then
    if str_contains "dl=0" url then str_replace "dl=0" "dl=1" url
    else if negb (str_contains "?dl=0" url) && negb (str_contains "?raw=1" url)
    then String.append url "?dl=1"
    else url
  else url.

(** [self.supported_content_types] *)
Definition supported_content_types : list (string * string) :=
  [("application/pdf", ".pdf");
   ("application/msword", ".doc");
   ("application/vnd.openxmlformats-officedocument.wordprocessingml.document", ".docx");
   ("application/vnd.oasis.opendocument.text", ".odt");
   ("text/plain", ".txt");
   ("text/rtf", ".rtf");
   ("text/markdown", ".md");
   ("text/x-rst", ".rst");
   ("application/x-tex", ".tex");
   ("application/vnd.ms-powerpoint", ".ppt");
   ("application/vnd.openxmlformats-officedocument.presentationml.presentation", ".pptx");
   ("application/vnd.oasis.opendocument.presentation", ".odp");
   ("application/vnd.ms-excel", ".xls");
   ("application/vnd.openxmlformats-officedocument.spreadsheetml.sheet", ".xlsx");
   ("text/csv", ".csv");
   ("application/vnd.oasis.opendocument.spreadsheet", ".ods");
   ("text/html", ".html");
   ("application/json", ".json");
   ("application/xml", ".xml");
   ("application/yaml", ".yaml");
   ("application/toml", ".toml");
   ("text/x-python", ".py");
   ("application/javascript", ".js");
   ("text/x-java", ".java");
   ("text/x-c", ".c");
   ("text/x-c++", ".cpp");
   ("application/zip", ".zip");
   ("application/x-tar", ".tar");
   ("application/x-gzip", ".gz");
   ("application/x-7z-compressed", ".7z");
   ("application/x-rar-compressed", ".rar");
   ("application/x-ipynb+json", ".ipynb")]%string.

(** [s.split(';')[0]]: what precedes the first semicolon *)
Fixpoint before_semicolon (s : string) : string :=
  match s with
  | EmptyString => EmptyString
  | String a s' =>
      if Ascii.eqb a ";" then EmptyString else String a (before_semicolon s')
  end.

(** [os.path.basename] of [posixpath]: what follows the last separator *)
Definition basename (p : string) : string :=
  string_of_list_ascii
    (drop (Z.to_nat (rfind "/" (list_ascii_of_string p) + 1)) (list_ascii_of_string p)).

(** [os.path.join(a, b)] of [posixpath] *)
Definition path_join (a b : string) : string :=
  if starts_with ["/"%char] (list_ascii_of_string b) then b
  else if String.eqb a "" || ends_with "/" a then String.append a b
  else String.append a (String.append "/" b).

(** the answer to [session.get(download_url)]: whether
    [raise_for_status] passes, the body and the [content-type] header *)
Record HttpResponse : Type := {
  resp_ok : bool;
  resp_content : list ascii;
  resp_content_type : option string
}.

(** lines 117-124 *)
Definition choose_extension (response : HttpResponse) : string :=
  if starts_with (list_ascii_of_string "%PDF") (resp_content response) then ".pdf"%string
  else
    let content_type := before_semicolon (default ""%string (resp_content_type response)) in
    default ".txt"%string (PyDict.get content_type supported_content_types).

(** lines 126-131 *)
Definition choose_filename (url_path extension : string) : string :=
  let base_filename := basename url_path in
  let filename := if String.eqb base_filename "" then "document"%string else base_filename in
  if String.eqb (splitext filename).2 "" then String.append filename extension
  else filename.

(** [download_file], from the point where the request has been sent:
    [url_path] is [urlparse(url).path], [response] the answer ([None]: the
    client raised) and [temp_dir] what [tempfile.mkdtemp()] returns; every
    exception leaves it as a [ValueError] *)
Definition download_file (url_path : string) (response : option HttpResponse)
    (temp_dir : string) : result (string * string) :=
  match response with
  | None => Raise ValueError
  | Some r =>
      if negb (resp_ok r) then Raise ValueError
      else if Z.of_nat (length (resp_content r)) <? 100 then Raise ValueError
      else
        let filename := choose_filename url_path (choose_extension r) in
        Ok (path_join temp_dir filename, filename)
  end.

(** every extension [choose_extension] can return *)
Definition download_extensions : list string :=
  ".pdf"%string :: ".txt"%string :: map snd supported_content_types.

(** [ext] is a dot followed by neither dot nor separator, and its
    lowercase form is a supported extension *)
Definition extension_ok (ext : string) : bool :=
  match list_ascii_of_string ext with
  | a :: e =>
      Ascii.eqb a "."
      && negb (existsb (λ b, Ascii.eqb b "." || Ascii.eqb b "/") e)
      && in_set (lower ext) supported_extensions
  | [] => false
  end.

(** a PDF body of more than 100 bytes, and an answer carrying it *)
Definition pdf_body : list ascii :=
  list_ascii_of_string "%PDF-1.7" ++ repeat " "%char 120.

Definition pdf_response : HttpResponse :=
  {| resp_ok := true; resp_content := pdf_body; resp_content_type := None |}.

(** no occurrence of [pat] can start in the last characters of a string
    and end inside an appended [w], nor lie inside [w] *)
Definition no_match_into (pat w : list ascii) : bool :=
  forallb (λ k, negb (starts_with (drop k pat) w)) (seq 0 (length pat))
  && negb (contains_chars pat w).

(** ** [main.py]: the request rate limiter *)

(** what a request handler or dependency ends with *)
Inductive outcome (A : Type) : Type :=
| Returned (a : A)
| HTTPException (status_code : Z).

Arguments Returned {A} a.
Arguments HTTPException {A} status_code.

Definition MAX_REQUESTS_PER_MINUTE : Z := 60.

(** 60 seconds; [time.time()] is taken in microseconds like the other
    clock readings *)
Definition sixty_seconds : Z := 60000000.

(** [request_counts[client_ip]], empty when the client is unknown *)
Definition requests_of (client_ip : string) (request_counts : gmap string (gmap Z Z))
    : gmap Z Z :=
  default ∅ (request_counts !! client_ip).

(** [rate_limit]: [current_time] is the reading of line 69, and
    [request_time] the one of line 84, whose [str] is the request id.  The
    table is returned in both cases: the old timestamps are dropped before
    the limit is checked. *)
Definition rate_limit (client_ip : string) (current_time request_time : Z)
    (request_counts : gmap string (gmap Z Z))
    : outcome unit * gmap string (gmap Z Z) :=
  let counts1 :=
    match request_counts !! client_ip with
    | None => <[client_ip := ∅]> request_counts
    | Some _ => request_counts
    end in
  let kept :=
    filter (λ e : Z * Z, current_time - e.2 < sixty_seconds)
           (requests_of client_ip counts1) in
  let counts2 := <[client_ip := kept]> counts1 in
  if MAX_REQUESTS_PER_MINUTE <=? Z.of_nat (size kept)
  then (HTTPException 429, counts2)
  else (Returned tt, <[client_ip := <[request_time := current_time]> kept]> counts2).

(** a request as the limiter sees it: client, and the two clock readings *)
Record request : Type := {
  req_client : string;
  req_time : Z;
  req_id_time : Z
}.

(** the table after a sequence of requests, admitted or not *)
Definition run_rate_limit (reqs : list request)
    (request_counts : gmap string (gmap Z Z)) : gmap string (gmap Z Z) :=
  fold_left
    (λ counts r, (rate_limit (req_client r) (req_time r) (req_id_time r) counts).2)
    reqs request_counts.

(** a client with two requests on record, 10 and 20 seconds after 0 *)
Definition two_requests : gmap string (gmap Z Z) :=
  {[ "10.0.0.1"%string := {[ 10000001 := 10000000; 20000001 := 20000000 ]} ]}.

(** ** [main.py]: the handlers on the session store *)

(** A coroutine object over the store.  Calling an [async def] method
    builds the object and runs nothing of its body; the body runs when the
    object is awaited (the awaited calls of this file are written as plain
    calls). *)
Definition Coroutine (A : Type) : Type := SessionStore → A * SessionStore.

(** [bool(coro)]: the class defines neither [__bool__] nor [__len__] *)
Definition coroutine_bool {A : Type} (coro : Coroutine A) : bool := true.

Module main.

(** [chat]: the clock readings are those of [load_session] and of
    [query_document].  The loaded processor is the object held by the hot
    cache under [session_id], so what [query_document] stores in its
    response cache is seen through that entry. *)
Definition chat (session_id query : string) (engine : option EngineResponse)
    (t_cache t_meta start_time end_time : Z) (st : SessionStore)
    : outcome string * SessionStore :=
  match load_session session_id t_cache t_meta st with
  | (None, st1) => (HTTPException 404, st1)
  | (Some processor, st1) =>
      match index processor with
      | None => (HTTPException 500, st1)
      | Some _ =>
          match query_document query engine start_time end_time processor with
          | Raise _ => (HTTPException 500, st1)
          | Ok (resp, processor') =>
              let st2 :=
                with_cache
                  (PyDict.set session_id (processor', t_cache) (_session_cache st1))
                  st1 in
              if String.eqb (response resp) ""
              then (HTTPException 500, st2)
              else (Returned (response resp), st2)
          end
      end
  end.

(** the handler of [DELETE /session/{session_id}], lines 216-220: the
    coroutine of the store's [delete_session] is tested, not awaited *)
Definition delete_session (session_id : string) (st : SessionStore)
    : outcome string * SessionStore :=
  let coro : Coroutine bool := delete_session session_id in
  if coroutine_bool coro
  then (Returned "Session deleted successfully"%string, st)
  else (HTTPException 404, st).

End main.

(** ** [list_sessions] *)

(** the body of [_list_sessions_cached]: the metadata files that decode *)
Definition list_metadata (st : SessionStore) : list Metadata :=
  omap (λ meta_file,
          match base_dir st !! meta_file with
          | Some (JsonFile metadata) => Some metadata
          | _ => None
          end)
       (glob_meta (base_dir st)).

(** [_list_sessions_cached] under [lru_cache(maxsize=1)]: [lru] is the one
    remembered call, its key and its result *)
Definition _list_sessions_cached (key : Z) (lru : option (Z * list Metadata))
    (st : SessionStore) : list Metadata * option (Z * list Metadata) :=
  match lru with
  | Some (k, sessions) =>
      if k =? key then (sessions, lru)
      else (list_metadata st, Some (key, list_metadata st))
  | None => (list_metadata st, Some (key, list_metadata st))
  end.

(** [list_sessions]: the key is [int(time.time() / 60)] *)
Definition list_sessions (now : Z) (lru : option (Z * list Metadata))
    (st : SessionStore) : list Metadata * option (Z * list Metadata) :=
  _list_sessions_cached (Z.quot now sixty_seconds) lru st.

(** ** The round trip and the query normal form, as the specification
    words them *)

(** the round trip: the save returns, and a load right after it returns
    the payload *)
Definition save_load_roundtrip (st : SessionStore) (s : string)
    (p : DocumentProcessor) (ip : option string) (t1 t2 t3 t4 t5 : Z) : Prop :=
  ∃ st', save_session s p ip t1 t2 t3 st = Ok st'
    ∧ (load_session s t4 t5 st').1 = Some p.

(** [store_saved_at_0] after a save of ["s2"] with a payload that has no
    index *)
Definition store_saved_s1_s2 : SessionStore :=
  match save_session "s2" no_index_processor None 5 5 5 store_saved_at_0 with
  | Ok st => st
  | Raise _ => default_store
  end.






(** ** Runs without client id, and a deletion between two saves *)

(** a step that registers no client: every [save_session] of it is called
    as the handlers of [main.py] call it *)
Definition without_client (op : operation) : Prop :=
  match op with
  | Save _ _ ip_address _ _ _ => truthy ip_address = None
  | _ => True
  end.

Definition operations_without_client : list operation :=
  [Save "s1" a_processor None 0 0 0; Load "s1" 5 5;
   Save "s2" a_processor (Some ""%string) 6 6 6;
   Cleanup (hours 30); Delete "s2"].

(** client ["10.0.0.1"] saves ["s1"] and ["s2"] and deletes ["s2"] ... *)
Definition two_saves_one_deletion : list operation :=
  [Save "s1" a_processor (Some "10.0.0.1"%string) 1 1 1;
   Save "s2" a_processor (Some "10.0.0.1"%string) 2 2 2;
   Delete "s2"].

(** ... and then saves ["s3"] *)
Definition deletion_then_save : list operation :=
  two_saves_one_deletion
  ++ [Save "s3" a_processor (Some "10.0.0.1"%string) 3 3 3].


(** ** [pathlib]: where [base_dir / name] points *)

(** [name.split("/")] on characters *)
Fixpoint split_sep (name : list ascii) : list (list ascii) :=
  match name with
  | [] => [[]]
  | c :: name' =>
      if Ascii.eqb c "/" then [] :: split_sep name'
      else
        match split_sep name' with
        | x :: xs => (c :: x) :: xs
        | [] => [[c]]
        end
  end.

(** the components that [PurePosixPath] keeps: not the empty ones, not
    ["."] (and [".."] is kept as it is) *)
Definition path_parts (name : string) : list string :=
  map string_of_list_ascii
    (List.filter
       (λ x, match x with
             | [] => false
             | [c] => negb (Ascii.eqb c ".")
             | _ => true
             end)
       (split_sep (list_ascii_of_string name))).

(** [base_dir / name]: below the directory for a relative [name], by the
    components kept; an absolute [name] replaces the directory, its root
    being ["//"] when it starts with two separators exactly *)
Inductive location : Type :=
| Below (parts : list string)
| Absolute (double_root : bool) (parts : list string).

Definition pathlib_join (name : string) : location :=
  match list_ascii_of_string name with
  | c :: rest =>
      if Ascii.eqb c "/" then
        Absolute
          match rest with
          | [c1] => Ascii.eqb c1 "/"
          | c1 :: c2 :: _ => Ascii.eqb c1 "/" && negb (Ascii.eqb c2 "/")
          | [] => false
          end
          (path_parts name)
      else Below (path_parts name)
  | [] => Below []
  end.

(** * Properties *)

(** ** Dictionaries *)

Module PyDictFacts.
Import PyDict.
Section facts.
Context {V : Type}.
Implicit Types (d : list (string * V)) (k : string) (v : V).

Lemma get_set_eq k v d : get k (set k v d) = Some v.
Proof.
  induction d as [|[k' v'] d IH]; simpl.
  - by rewrite String.eqb_refl.
  - destruct (String.eqb k k') eqn:E; simpl.
    + by rewrite String.eqb_refl.
    + by rewrite E.
Qed.

Lemma get_set_ne k k' v d : k ≠ k' → get k' (set k v d) = get k' d.
Proof.
  intros Hne. induction d as [|[k0 v0] d IH]; simpl.
  - apply String.eqb_neq in Hne. rewrite String.eqb_sym in Hne. by rewrite Hne.
  - destruct (String.eqb k k0) eqn:E; simpl.
    + apply String.eqb_eq in E. subst k0.
      destruct (String.eqb k' k) eqn:E'; [|done].
      apply String.eqb_eq in E'. congruence.
    + by rewrite IH.
Qed.

Lemma get_del_eq k d : get k (del k d) = None.
Proof.
  unfold del. induction d as [|[k' v'] d IH]; simpl; [done|].
  destruct (String.eqb k k') eqn:E; simpl; [done|]. by rewrite E.
Qed.

Lemma get_del_ne k k' d : k ≠ k' → get k' (del k d) = get k' d.
Proof.
  intros Hne. unfold del. induction d as [|[k0 v0] d IH]; simpl; [done|].
  destruct (String.eqb k k0) eqn:E; simpl.
  - apply String.eqb_eq in E. subst k0.
    destruct (String.eqb k' k) eqn:E'; [|done].
    apply String.eqb_eq in E'. congruence.
  - by rewrite IH.
Qed.

Lemma get_Some_keys k v d : get k d = Some v → k ∈ keys d.
Proof.
  induction d as [|[k' v'] d IH]; simpl; [done|].
  destruct (String.eqb k k') eqn:E.
  - apply String.eqb_eq in E. subst. intros _. apply list_elem_of_here.
  - intros H. apply list_elem_of_further. auto.
Qed.

Lemma get_None_keys k d : get k d = None ↔ k ∉ keys d.
Proof.
  induction d as [|[k' v'] d IH]; simpl.
  - split; [intros _; apply not_elem_of_nil | done].
  - rewrite not_elem_of_cons. destruct (String.eqb k k') eqn:E.
    + apply String.eqb_eq in E. subst. split; [done | intros [? _]; done].
    + apply String.eqb_neq in E. rewrite IH. tauto.
Qed.

Lemma keys_get k d : k ∈ keys d → is_Some (get k d).
Proof.
  intros Hin. destruct (get k d) eqn:E; [eauto|].
  apply get_None_keys in E. done.
Qed.

Lemma contains_true k d : contains k d = true ↔ k ∈ keys d.
Proof.
  unfold contains. destruct (get k d) eqn:E.
  - split; [intros _; by eapply get_Some_keys | done].
  - apply get_None_keys in E. split; [done | intros; done].
Qed.

Lemma contains_false k d : contains k d = false ↔ get k d = None.
Proof. unfold contains. destruct (get k d); split; congruence. Qed.

Lemma contains_del k d : contains k (del k d) = false.
Proof. apply contains_false, get_del_eq. Qed.

Lemma contains_set k v d : contains k (set k v d) = true.
Proof. unfold contains. by rewrite get_set_eq. Qed.

Lemma keys_set_in k v d : k ∈ keys d → keys (set k v d) = keys d.
Proof.
  induction d as [|[k' v'] d IH]; simpl; [by intros ?%elem_of_nil|].
  destruct (String.eqb k k') eqn:E.
  - apply String.eqb_eq in E. by subst.
  - apply String.eqb_neq in E. intros [?|?]%elem_of_cons; [done|].
    simpl. f_equal. auto.
Qed.

Lemma keys_set_notin k v d : k ∉ keys d → keys (set k v d) = keys d ++ [k].
Proof.
  induction d as [|[k' v'] d IH]; simpl; [done|].
  rewrite not_elem_of_cons. intros [Hne Hnin].
  apply String.eqb_neq in Hne. rewrite Hne. simpl. f_equal. auto.
Qed.

Lemma length_set_in k v d : k ∈ keys d → length (set k v d) = length d.
Proof.
  intros H. apply keys_set_in with (v := v) in H.
  unfold keys in H. apply (f_equal (@length _)) in H.
  by rewrite !length_map in H.
Qed.

Lemma length_set_notin k v d : k ∉ keys d → length (set k v d) = S (length d).
Proof.
  intros H. apply keys_set_notin with (v := v) in H.
  unfold keys in H. apply (f_equal (@length _)) in H.
  rewrite length_app, !length_map in H. simpl in H. lia.
Qed.

Lemma length_set_le k v d : (length (set k v d) ≤ S (length d))%nat.
Proof.
  destruct (decide (k ∈ keys d)) as [Hin|Hnin].
  - rewrite length_set_in by done. lia.
  - rewrite length_set_notin by done. lia.
Qed.

Lemma length_del_le k d : (length (del k d) ≤ length d)%nat.
Proof. unfold del. apply List.filter_length_le. Qed.

Lemma keys_del k d : keys (del k d) = List.filter (λ k', negb (String.eqb k k')) (keys d).
Proof.
  unfold del, keys. induction d as [|[k' v'] d IH]; simpl; [done|].
  destruct (String.eqb k k'); simpl; by rewrite ?IH.
Qed.

Lemma elem_of_keys_del k k' d : k' ∈ keys (del k d) ↔ k' ≠ k ∧ k' ∈ keys d.
Proof.
  rewrite keys_del, !list_elem_of_In, List.filter_In.
  rewrite negb_true_iff, String.eqb_neq. intuition congruence.
Qed.

(** deleting the first key of a dict with unique keys drops exactly
    the first entry *)
Lemma del_head k v d : wf ((k, v) :: d) → del k ((k, v) :: d) = d.
Proof.
  unfold wf, del. simpl. intros Hnd. apply NoDup_cons in Hnd as [Hnin _].
  rewrite String.eqb_refl. simpl.
  induction d as [|[k' v'] d IH]; simpl; [done|].
  simpl in Hnin. apply not_elem_of_cons in Hnin as [Hne Hnin].
  apply String.eqb_neq in Hne. rewrite Hne. simpl. f_equal. auto.
Qed.

Lemma del_notin k d : k ∉ keys d → del k d = d.
Proof.
  unfold del. induction d as [|[k' v'] d IH]; simpl; [done|].
  rewrite not_elem_of_cons. intros [Hne Hnin].
  apply String.eqb_neq in Hne. rewrite Hne. simpl. f_equal. auto.
Qed.

Lemma length_del_in k d :
  wf d → k ∈ keys d → S (length (del k d)) = length d.
Proof.
  unfold wf. induction d as [|[k' v'] d IH]; simpl; [by intros _ ?%elem_of_nil|].
  intros [Hnin Hnd]%NoDup_cons Hin. unfold del. simpl.
  destruct (String.eqb k k') eqn:E; simpl.
  - apply String.eqb_eq in E. subst k'. f_equal.
    fold (del k d). by rewrite del_notin.
  - apply String.eqb_neq in E. apply elem_of_cons in Hin as [?|Hin]; [done|].
    f_equal. by apply IH.
Qed.

Lemma wf_set k v d : wf d → wf (set k v d).
Proof.
  unfold wf. intros Hnd. destruct (decide (k ∈ keys d)) as [Hin|Hnin].
  - by rewrite keys_set_in.
  - rewrite keys_set_notin by done. apply NoDup_app. split; [done|].
    split; [|apply NoDup_singleton].
    intros x Hx Hx'. apply list_elem_of_singleton in Hx'. by subst.
Qed.

Lemma wf_del k d : wf d → wf (del k d).
Proof.
  unfold wf. rewrite keys_del. intros Hnd.
  induction Hnd as [|x l Hx Hnd IH]; simpl; [constructor|].
  destruct (negb (String.eqb k x)); [|done].
  constructor; [|done].
  rewrite list_elem_of_In, List.filter_In, <- list_elem_of_In. tauto.
Qed.
End facts.
End PyDictFacts.

(** ** File names *)

Section paths.
Lemma list_ascii_of_append (a b : string) :
  list_ascii_of_string (String.append a b)
  = list_ascii_of_string a ++ list_ascii_of_string b.
Proof. induction a as [|c a IH]; simpl; [done|]. by rewrite IH. Qed.

Lemma append_inj_l (a b suffix : string) :
  String.append a suffix = String.append b suffix → a = b.
Proof.
  intros H. apply (f_equal list_ascii_of_string) in H.
  rewrite !list_ascii_of_append in H. apply app_inv_tail in H.
  apply (f_equal string_of_list_ascii) in H.
  by rewrite !string_of_list_ascii_of_string in H.
Qed.

Lemma session_path_inj (a b : string) :
  _get_session_path a = _get_session_path b → a = b.
Proof. apply append_inj_l. Qed.

Lemma metadata_path_inj (a b : string) :
  _get_metadata_path a = _get_metadata_path b → a = b.
Proof. apply append_inj_l. Qed.

Lemma rev_ascii_of_append (a b : string) :
  rev (list_ascii_of_string (String.append a b))
  = rev (list_ascii_of_string b) ++ rev (list_ascii_of_string a).
Proof. by rewrite list_ascii_of_append, rev_app_distr. Qed.

(** a payload file is never a metadata file: the names end differently *)
Lemma session_path_not_metadata (a b : string) :
  _get_session_path a ≠ _get_metadata_path b.
Proof.
  unfold _get_session_path, _get_metadata_path. intros H.
  apply (f_equal (λ s, rev (list_ascii_of_string s))) in H.
  rewrite !rev_ascii_of_append in H. simpl in H. discriminate H.
Qed.

Lemma starts_with_app (p s : list ascii) : starts_with p (p ++ s) = true.
Proof.
  induction p as [|c p IH]; simpl; [done|].
  by rewrite Ascii.eqb_refl, IH.
Qed.

Lemma metadata_path_matches_glob (session_id : string) :
  ends_with "_meta.json" (_get_metadata_path session_id) = true.
Proof.
  unfold ends_with, _get_metadata_path.
  rewrite rev_ascii_of_append. apply starts_with_app.
Qed.

Lemma glob_meta_spec (fs : gmap string File) (name : string) :
  name ∈ glob_meta fs ↔ ends_with "_meta.json" name = true ∧ is_Some (fs !! name).
Proof.
  unfold glob_meta.
  rewrite list_elem_of_In, List.filter_In, <- list_elem_of_In.
  rewrite list_elem_of_fmap. split.
  - intros [[[n f] [-> Hin]] Hm]. split; [done|].
    apply elem_of_map_to_list in Hin. eauto.
  - intros [Hm [f Hf]]. split; [|done].
    exists (name, f). split; [done|]. by apply elem_of_map_to_list.
Qed.
End paths.

(** ** [delete_session] *)

Section delete_facts.
Import PyDict PyDictFacts.
Implicit Types (st : SessionStore) (s : string).

Lemma delete_session_cache s st :
  _session_cache (delete_session s st).2 = del s (_session_cache st).
Proof.
  unfold delete_session. simpl.
  destruct (contains s (_session_cache st)) eqn:E; [done|].
  apply contains_false, get_None_keys in E. by rewrite del_notin.
Qed.

Lemma delete_session_files s st :
  base_dir (delete_session s st).2
  = delete (_get_metadata_path s) (delete (_get_session_path s) (base_dir st)).
Proof.
  unfold delete_session. simpl.
  destruct (base_dir st !! _get_session_path s) eqn:E1.
  - destruct (delete _ _ !! _get_metadata_path s) eqn:E2; [done|].
    symmetry. by apply delete_id.
  - rewrite (delete_id (base_dir st) (_get_session_path s)) by done.
    destruct (base_dir st !! _get_metadata_path s) eqn:E2; [done|].
    symmetry. by apply delete_id.
Qed.

Lemma delete_session_ip_sessions s st :
  ip_sessions (delete_session s st).2 = ip_sessions st.
Proof. done. Qed.

Lemma delete_session_config s st :
  max_sessions_per_ip (delete_session s st).2 = max_sessions_per_ip st
  ∧ session_timeout (delete_session s st).2 = session_timeout st
  ∧ _max_cache_size (delete_session s st).2 = _max_cache_size st.
Proof. done. Qed.

Lemma delete_session_not_cached s st :
  in_hot_cache s (delete_session s st).2 = false.
Proof. unfold in_hot_cache. rewrite delete_session_cache. apply contains_del. Qed.

Lemma delete_session_payload s st : payload_file s (delete_session s st).2 = None.
Proof.
  unfold payload_file. rewrite delete_session_files.
  rewrite lookup_delete_ne by (intros H; symmetry in H; by apply session_path_not_metadata in H).
  apply lookup_delete_eq.
Qed.

Lemma delete_session_metadata s st : metadata_file s (delete_session s st).2 = None.
Proof. unfold metadata_file. rewrite delete_session_files. apply lookup_delete_eq. Qed.

Lemma delete_session_not_durable s st :
  in_durable_store s (delete_session s st).2 = false.
Proof.
  unfold in_durable_store.
  by rewrite delete_session_payload, delete_session_metadata.
Qed.

Lemma delete_session_other_cache s s' st :
  s ≠ s' →
  get s' (_session_cache (delete_session s st).2) = get s' (_session_cache st).
Proof. intros. rewrite delete_session_cache. by apply get_del_ne. Qed.

Lemma delete_session_other_payload s s' st :
  s ≠ s' → payload_file s' (delete_session s st).2 = payload_file s' st.
Proof.
  intros Hne. unfold payload_file. rewrite delete_session_files.
  rewrite lookup_delete_ne by (intros H; symmetry in H; by apply session_path_not_metadata in H).
  apply lookup_delete_ne. intros H. by apply session_path_inj in H.
Qed.

Lemma delete_session_other_metadata s s' st :
  s ≠ s' → metadata_file s' (delete_session s st).2 = metadata_file s' st.
Proof.
  intros Hne. unfold metadata_file. rewrite delete_session_files.
  rewrite lookup_delete_ne by (intros H; by apply metadata_path_inj in H).
  apply lookup_delete_ne. apply session_path_not_metadata.
Qed.

(** deletion only ever removes: what is absent stays absent *)
Lemma delete_session_keeps_absent_cache s s' st :
  get s' (_session_cache st) = None →
  get s' (_session_cache (delete_session s st).2) = None.
Proof.
  intros H. destruct (decide (s = s')) as [->|Hne].
  - rewrite delete_session_cache. apply get_del_eq.
  - by rewrite delete_session_other_cache.
Qed.

Lemma delete_session_keeps_absent_file s name st :
  base_dir st !! name = None → base_dir (delete_session s st).2 !! name = None.
Proof.
  intros H. rewrite delete_session_files.
  rewrite !lookup_delete. repeat case_decide; done.
Qed.
End delete_facts.

(** ** Sessions that are gone from both tiers *)

Section gone_facts.
Import PyDict PyDictFacts.
Implicit Types (st : SessionStore) (s : string) (q : DocumentProcessor).

Lemma gone_not_durable s st : gone s st → in_durable_store s st = false.
Proof. intros (_ & Hp & Hm). unfold in_durable_store. by rewrite Hp, Hm. Qed.

Lemma delete_session_gone s st : gone s (delete_session s st).2.
Proof.
  split; [apply delete_session_not_cached|].
  split; [apply delete_session_payload | apply delete_session_metadata].
Qed.

Lemma delete_session_keeps_gone s s' st :
  gone s' st → gone s' (delete_session s st).2.
Proof.
  intros (Hc & Hp & Hm). unfold gone, in_hot_cache, payload_file, metadata_file in *.
  apply contains_false in Hc. repeat split.
  - apply contains_false. by apply delete_session_keeps_absent_cache.
  - by apply delete_session_keeps_absent_file.
  - by apply delete_session_keeps_absent_file.
Qed.

(** deleting what is already gone changes nothing *)
Lemma delete_session_gone_id s st : gone s st → delete_session s st = (true, st).
Proof.
  intros (Hc & Hp & Hm). unfold in_hot_cache, payload_file, metadata_file in *.
  unfold delete_session. rewrite Hc, Hp, Hm. by destruct st.
Qed.

Lemma load_session_gone s t t' st : gone s st → load_session s t t' st = (None, st).
Proof.
  intros (Hc & Hp & Hm). unfold in_hot_cache, payload_file in *.
  apply contains_false in Hc. unfold load_session. by rewrite Hc, Hp.
Qed.
Lemma load_session_hit_state s q ts t t' st :
  get s (_session_cache st) = Some (q, ts) →
  load_session s t t' st
  = (Some q, with_cache (set s (q, t) (_session_cache st)) st).
Proof. intros H. unfold load_session. by rewrite H. Qed.
End gone_facts.

(** ** Explicit deletion *)

(** what the entry left behind costs: a client of a store with a quota
    of two saves ["s1"] and ["s2"] and deletes ["s2"], which stays on its
    list; the next save of the client finds the list full and deletes
    ["s1"], the only session the client still had *)
Lemma stale_quota_entry_evicts_live_session :
  get_sessions_for_ip "10.0.0.1" (run two_saves_one_deletion store_quota_2)
  = ["s1"%string; "s2"%string]
  ∧ gone "s2" (run two_saves_one_deletion store_quota_2)
  ∧ in_durable_store "s1" (run two_saves_one_deletion store_quota_2) = true
  ∧ gone "s1" (run deletion_then_save store_quota_2)
  ∧ get_sessions_for_ip "10.0.0.1" (run deletion_then_save store_quota_2)
    = ["s2"%string; "s3"%string].
Proof.
  unfold gone. split_and!; vm_compute; reflexivity.
Qed.

(** C2, the code at the failing input: after [delete_session "s1"], with
    ["s1"] registered under client ["10.0.0.1"], the quota list of that
    client still holds ["s1"]; the claim asks for a list without it. *)
Lemma delete_session_leaves_quota_entry :
  ¬ delete_clears_all_three_tiers store_with_s1 "10.0.0.1" "s1".
Proof.
  unfold delete_clears_all_three_tiers. intros H.
  assert (Hin : "s1"%string ∈ get_sessions_for_ip "10.0.0.1" store_with_s1).
  { vm_compute. apply list_elem_of_here. }
  destruct (H Hin) as (_ & _ & _ & Hnot). apply Hnot.
  vm_compute. apply list_elem_of_here.
Qed.


(** after [delete_session s], loading [s] finds nothing and leaves the
    store as the deletion left it *)
Lemma delete_then_load (st : SessionStore) (s : string) (t t' : Z) :
  load_session s t t' (delete_session s st).2 = (None, (delete_session s st).2).
Proof. apply load_session_gone, delete_session_gone. Qed.

(** a second deletion has no side effect, and its result is [True] again *)
Lemma delete_twice (st : SessionStore) (s : string) :
  delete_session s (delete_session s st).2 = (true, (delete_session s st).2).
Proof. apply delete_session_gone_id, delete_session_gone. Qed.

(** C3, the code at the failing inputs: deleting an id the store never
    held, and deleting ["s1"] a second time, both report [True] (success)
    and change nothing; the claim asks for a not-found report there. *)
Theorem delete_session_absent_reports_success :
  delete_session "nope" default_store = (true, default_store)
  ∧ (delete_session "s1" store_with_s1).1 = true
  ∧ delete_session "s1" (delete_session "s1" store_with_s1).2
    = (true, (delete_session "s1" store_with_s1).2)
  ∧ load_session "s1" 1 1 (delete_session "s1" store_with_s1).2
    = (None, (delete_session "s1" store_with_s1).2).
Proof.
  split; [by vm_compute|]. split; [done|].
  split; [apply delete_twice | apply delete_then_load].
Qed.

(** ** The reaper scan *)

Section cleanup_facts.
Import PyDict PyDictFacts.
Implicit Types (st : SessionStore) (s : string) (m : Metadata).

Lemma cleanup_cache_frame now st :
  base_dir (_cleanup_cache now st) = base_dir st
  ∧ session_timeout (_cleanup_cache now st) = session_timeout st
  ∧ ip_sessions (_cleanup_cache now st) = ip_sessions st.
Proof.
  unfold _cleanup_cache.
  generalize (map fst
    (List.filter (λ e, session_timeout st <? now - e.2.2) (_session_cache st))).
  intros ks. revert st. induction ks as [|k ks IH]; intros st; simpl; [done|].
  destruct (contains k (_session_cache st)); [|apply IH].
  by destruct (IH (with_cache (del k (_session_cache st)) st)) as (-> & -> & ->).
Qed.

Lemma cleanup_meta_file_timeout now st f :
  session_timeout (_cleanup_meta_file now st f) = session_timeout st.
Proof.
  unfold _cleanup_meta_file.
  destruct (base_dir st !! f) as [[p|m]|]; [done| |done].
  by destruct (session_timeout st <? now - last_accessed m).
Qed.

Lemma cleanup_meta_file_keeps_gone now st f s :
  gone s st → gone s (_cleanup_meta_file now st f).
Proof.
  intros Hg. unfold _cleanup_meta_file.
  destruct (base_dir st !! f) as [[p|m]|]; [done| |done].
  destruct (session_timeout st <? now - last_accessed m); [|done].
  by apply delete_session_keeps_gone.
Qed.

Lemma cleanup_meta_file_pending now st f s m :
  pending s m st → pending s m (_cleanup_meta_file now st f).
Proof.
  intros [Hm|Hg]; [|right; by apply cleanup_meta_file_keeps_gone].
  unfold _cleanup_meta_file.
  destruct (base_dir st !! f) as [[p|m']|]; [by left| |by left].
  destruct (session_timeout st <? now - last_accessed m'); [|by left].
  destruct (decide (meta_session_id m' = s)) as [->|Hne].
  - right. apply delete_session_gone.
  - left. by rewrite delete_session_other_metadata.
Qed.

Lemma cleanup_meta_file_expired now st s m :
  meta_session_id m = s →
  session_timeout st < now - last_accessed m →
  pending s m st →
  gone s (_cleanup_meta_file now st (_get_metadata_path s)).
Proof.
  intros Hid Hexp [Hm|Hg]; [|by apply cleanup_meta_file_keeps_gone].
  unfold _cleanup_meta_file. unfold metadata_file in Hm. rewrite Hm.
  apply Z.ltb_lt in Hexp. rewrite Hexp, Hid. apply delete_session_gone.
Qed.

Lemma cleanup_disk_timeout now files st :
  session_timeout (_cleanup_disk now files st) = session_timeout st.
Proof.
  unfold _cleanup_disk. revert st.
  induction files as [|f files IH]; intros st; simpl; [done|].
  by rewrite IH, cleanup_meta_file_timeout.
Qed.

Lemma cleanup_disk_keeps_gone now files st s :
  gone s st → gone s (_cleanup_disk now files st).
Proof.
  unfold _cleanup_disk. revert st.
  induction files as [|f files IH]; intros st Hg; simpl; [done|].
  by apply IH, cleanup_meta_file_keeps_gone.
Qed.

(** whatever the order in which [glob] lists the metadata files *)
Lemma cleanup_disk_removes_expired now files st s m :
  meta_session_id m = s →
  session_timeout st < now - last_accessed m →
  _get_metadata_path s ∈ files →
  pending s m st →
  gone s (_cleanup_disk now files st).
Proof.
  intros Hid Hexp. unfold _cleanup_disk. revert st Hexp.
  induction files as [|f files IH]; intros st Hexp Hin Hp; simpl.
  - by apply elem_of_nil in Hin.
  - destruct (decide (f = _get_metadata_path s)) as [->|Hne].
    + apply (cleanup_disk_keeps_gone now files).
      by apply cleanup_meta_file_expired with m.
    + apply elem_of_cons in Hin as [Heq|Hin]; [congruence|].
      apply IH; [by rewrite cleanup_meta_file_timeout | done |].
      by apply cleanup_meta_file_pending.
Qed.

(** a record whose durable [last_accessed] is older than the timeout is
    gone from the hot cache and from the durable store after one scan *)
Lemma cleanup_removes_expired now st s m :
  metadata_file s st = Some (JsonFile m) →
  meta_session_id m = s →
  session_timeout st < now - last_accessed m →
  gone s (_cleanup_old_sessions now st).
Proof.
  intros Hm Hid Hexp. unfold _cleanup_old_sessions.
  destruct (cleanup_cache_frame now st) as (Hfs & Hto & _).
  apply cleanup_disk_removes_expired with m; [done | by rewrite Hto | |].
  - apply glob_meta_spec. split; [apply metadata_path_matches_glob|].
    rewrite Hfs. unfold metadata_file in Hm. by rewrite Hm.
  - left. unfold metadata_file. by rewrite Hfs.
Qed.
(** a hit of the hot cache leaves the durable [last_accessed] as it was,
    so it does not keep an expired record from the next scan *)
Lemma cleanup_after_hit_removes_expired now st s q ts m t t' :
  get s (_session_cache st) = Some (q, ts) →
  metadata_file s st = Some (JsonFile m) →
  meta_session_id m = s →
  session_timeout st < now - last_accessed m →
  (load_session s t t' st).1 = Some q
  ∧ gone s (_cleanup_old_sessions now (load_session s t t' st).2).
Proof.
  intros Hhit Hm Hid Hexp. rewrite (load_session_hit_state s q ts t t' st Hhit).
  split; [done|]. by apply cleanup_removes_expired with m.
Qed.
End cleanup_facts.

(** C1, the code at the failing input.  ["s1"] is saved at time [0] with
    the default timeout of 24 hours; 25 hours later it is loaded (a hit of
    the hot cache, which refreshes the cached timestamp only) and a scan
    runs a microsecond after that load.  The scan finds the durable
    [last_accessed] still at [0] and deletes ["s1"] from both tiers. *)
Theorem cleanup_after_cache_hit_deletes_session :
  let '(loaded, st) := load_session "s1" (hours 25) (hours 25) store_saved_at_0 in
  let st' := _cleanup_old_sessions (hours 25 + 1) st in
  loaded = Some a_processor
  ∧ PyDict.get "s1" (_session_cache st) = Some (a_processor, hours 25)
  ∧ in_hot_cache "s1" st' = false
  ∧ in_durable_store "s1" st' = false.
Proof. by vm_compute. Qed.

(** For comparison, the same load served from the durable store (the hot
    cache is empty after a restart) rewrites [last_accessed], and the scan
    keeps the session in both tiers. *)
Example cleanup_after_cache_miss_keeps_session :
  let '(loaded, st) := load_session "s1" (hours 25) (hours 25) store_restarted in
  let st' := _cleanup_old_sessions (hours 25 + 1) st in
  loaded = Some a_processor
  ∧ in_hot_cache "s1" st' = true
  ∧ payload_file "s1" st' = Some (PickleFile a_processor)
  ∧ in_durable_store "s1" st' = true.
Proof. by vm_compute. Qed.

(** Without any access the scan removes the session from both tiers. *)
Example cleanup_without_access_removes_session :
  gone "s1" (_cleanup_old_sessions (hours 25) store_saved_at_0).
Proof. by vm_compute. Qed.

(** ** The stages of [save_session] *)

Section save_facts.
Import PyDict PyDictFacts.
Implicit Types (st : SessionStore) (s e c : string) (p : DocumentProcessor).

Lemma truthy_Some c : c ≠ ""%string → truthy (Some c) = Some c.
Proof. intros H. unfold truthy. apply String.eqb_neq in H. by rewrite H. Qed.

Lemma truthy_inv ip c : truthy ip = Some c → ip = Some c ∧ c ≠ ""%string.
Proof.
  unfold truthy. destruct ip as [c'|]; [|done].
  destruct (String.eqb c' "") eqn:E; [done|].
  apply String.eqb_neq in E. intros [= ->]. done.
Qed.

(** the quota stage never raises under a positive quota *)
Lemma register_ip_Some s c st :
  c ≠ ""%string → 0 < max_sessions_per_ip st →
  ∃ st1, register_ip s (Some c) st = Ok st1
    ∧ get_sessions_for_ip c st1
      = quota_step (max_sessions_per_ip st) (get_sessions_for_ip c st) s
    ∧ max_sessions_per_ip st1 = max_sessions_per_ip st
    ∧ _max_cache_size st1 = _max_cache_size st
    ∧ (∀ e, gone e st → gone e st1)
    ∧ (∀ o, max_sessions_per_ip st <= Z.of_nat (length (get_sessions_for_ip c st)) →
            head (get_sessions_for_ip c st) = Some o → gone o st1).
Proof.
  intros Hc Hmax. unfold register_ip, quota_step, get_sessions_for_ip.
  rewrite truthy_Some by done.
  destruct (default [] (ip_sessions st !! c)) as [|o rest] eqn:El.
  - simpl length. replace (max_sessions_per_ip st <=? Z.of_nat 0) with false
      by (symmetry; apply Z.leb_gt; simpl; lia).
    eexists. split; [done|]. simpl. rewrite lookup_insert_eq. simpl.
    split_and!; done.
  - destruct (max_sessions_per_ip st <=? Z.of_nat (length (o :: rest))) eqn:Efull.
    + eexists. split; [done|]. simpl. rewrite lookup_insert_eq. simpl.
      split_and!; try done.
      * intros e He. by apply (delete_session_keeps_gone o) in He.
      * intros o' _ [= <-]. apply (delete_session_gone o st).
    + eexists. split; [done|]. simpl. rewrite lookup_insert_eq. simpl.
      split_and!; try done. intros o' Hle. apply Z.leb_gt in Efull.
      simpl in *. lia.
Qed.

(** the quota stage changes the quota lists and, when the list is full,
    deletes the victim; nothing else *)
Lemma register_ip_cases s ip st st1 :
  register_ip s ip st = Ok st1 →
  ∃ m, (quota_victim ip st = None ∧ st1 = with_ip_sessions m st)
     ∨ (∃ o, quota_victim ip st = Some o
           ∧ st1 = with_ip_sessions m (delete_session o st).2).
Proof.
  unfold register_ip, quota_victim, get_sessions_for_ip. intros H.
  destruct (truthy ip) as [c|].
  - destruct (max_sessions_per_ip st <=? _).
    + destruct (default [] (ip_sessions st !! c)) as [|o rest]; [done|].
      exists (<[c := rest ++ [s]]> (ip_sessions (delete_session o st).2)).
      right. exists o. split; [done|]. injection H as <-. reflexivity.
    + eexists. left. split; [done|]. injection H as <-. reflexivity.
  - exists (ip_sessions st). left. split; [done|].
    assert (st1 = st) as -> by congruence. by destruct st.
Qed.

Lemma register_ip_None s ip st : truthy ip = None → register_ip s ip st = Ok st.
Proof. intros H. unfold register_ip. by rewrite H. Qed.

(** the quota stage leaves other clients alone *)
Lemma register_ip_other_client s ip c st st1 :
  register_ip s ip st = Ok st1 → truthy ip ≠ Some c →
  get_sessions_for_ip c st1 = get_sessions_for_ip c st.
Proof.
  unfold register_ip, get_sessions_for_ip. intros H Hne.
  destruct (truthy ip) as [c'|] eqn:Et; [|by injection H as <-].
  assert (c' ≠ c) by congruence.
  destruct (max_sessions_per_ip st <=? _).
  - destruct (default [] (ip_sessions st !! c')) as [|o rest]; [done|].
    injection H as <-. simpl. by rewrite lookup_insert_ne.
  - injection H as <-. simpl. by rewrite lookup_insert_ne.
Qed.

Lemma evict_lru_frame st :
  base_dir (evict_lru st) = base_dir st
  ∧ ip_sessions (evict_lru st) = ip_sessions st
  ∧ max_sessions_per_ip (evict_lru st) = max_sessions_per_ip st
  ∧ _max_cache_size (evict_lru st) = _max_cache_size st
  ∧ session_timeout (evict_lru st) = session_timeout st.
Proof.
  unfold evict_lru. destruct (_max_cache_size st <? _); [|done].
  by destruct (py_min _ _).
Qed.

(** the eviction removes at most one key, and nothing else changes *)
Lemma evict_lru_cache st :
  _session_cache (evict_lru st) = _session_cache st
  ∨ ∃ k, k ∈ keys (_session_cache st)
      ∧ py_min (cache_time (_session_cache st)) (keys (_session_cache st)) = Some k
      ∧ _max_cache_size st < len (_session_cache st)
      ∧ _session_cache (evict_lru st) = del k (_session_cache st).
Proof.
  unfold evict_lru. destruct (_max_cache_size st <? _) eqn:E; [|by left].
  destruct (py_min _ _) as [k|] eqn:Ek; [|by left].
  right. exists k. apply Z.ltb_lt in E. split_and!; try done.
  clear E. unfold py_min in Ek.
  destruct (keys (_session_cache st)) as [|k0 ks]; [done|].
  injection Ek as <-. clear. revert k0.
  assert (H : ∀ pre b, b ∈ pre ++ ks →
            py_min_from (cache_time (_session_cache st)) b ks ∈ pre ++ ks).
  { induction ks as [|x ks IH]; intros pre b Hb; simpl; [done|].
    replace (pre ++ x :: ks) with ((pre ++ [x]) ++ ks) in *
      by (by rewrite <- app_assoc).
    apply IH. destruct (_ <? _); [|done].
    apply elem_of_app. left. apply elem_of_app. right. apply list_elem_of_here. }
  intros k0. apply (H [k0]). apply list_elem_of_here.
Qed.


Lemma write_session_frame s p ip t t' st :
  _session_cache (write_session s p ip t t' st) = _session_cache st
  ∧ ip_sessions (write_session s p ip t t' st) = ip_sessions st
  ∧ max_sessions_per_ip (write_session s p ip t t' st) = max_sessions_per_ip st
  ∧ _max_cache_size (write_session s p ip t t' st) = _max_cache_size st
  ∧ session_timeout (write_session s p ip t t' st) = session_timeout st.
Proof. done. Qed.

Lemma write_session_payload s p ip t t' st :
  payload_file s (write_session s p ip t t' st) = Some (PickleFile p).
Proof.
  unfold payload_file, write_session. simpl.
  rewrite lookup_insert_ne
    by (intros H; symmetry in H; by apply session_path_not_metadata in H).
  apply lookup_insert_eq.
Qed.

Lemma write_session_metadata s p ip t t' st :
  metadata_file s (write_session s p ip t t' st)
  = Some (JsonFile {| meta_session_id := s; created_at := t;
                      last_accessed := t'; meta_ip_address := ip |}).
Proof. unfold metadata_file, write_session. simpl. apply lookup_insert_eq. Qed.

Lemma write_session_other s e p ip t t' st :
  s ≠ e →
  payload_file e (write_session s p ip t t' st) = payload_file e st
  ∧ metadata_file e (write_session s p ip t t' st) = metadata_file e st.
Proof.
  intros Hne. unfold payload_file, metadata_file, write_session. simpl. split.
  - rewrite lookup_insert_ne
      by (intros H; symmetry in H; by apply session_path_not_metadata in H).
    apply lookup_insert_ne. intros H. by apply session_path_inj in H.
  - rewrite lookup_insert_ne by (intros H; by apply metadata_path_inj in H).
    apply lookup_insert_ne. apply session_path_not_metadata.
Qed.

(** [save_session] unfolded into its stages *)
Lemma save_session_stages s p ip t1 t2 t3 st st' :
  save_session s p ip t1 t2 t3 st = Ok st' ↔
  ∃ st1, register_ip s ip st = Ok st1
    ∧ st' = write_session s p ip t2 t3
              (evict_lru (with_cache (set s (p, t1) (_session_cache st1)) st1)).
Proof.
  unfold save_session, rbind. destruct (register_ip s ip st) as [st1|x].
  - split; [intros [= <-]; eauto | intros (? & [= <-] & ->); done].
  - split; [done | intros (? & ? & _); done].
Qed.

Lemma save_session_ip_sessions s p ip t1 t2 t3 st st' st1 :
  save_session s p ip t1 t2 t3 st = Ok st' → register_ip s ip st = Ok st1 →
  ip_sessions st' = ip_sessions st1
  ∧ max_sessions_per_ip st' = max_sessions_per_ip st1
  ∧ _max_cache_size st' = _max_cache_size st1.
Proof.
  intros (st1' & Hr & ->)%save_session_stages Hr'.
  rewrite Hr in Hr'. injection Hr' as ->. simpl.
  by destruct (evict_lru_frame (with_cache (set s (p, t1) (_session_cache st1)) st1))
    as (_ & -> & -> & -> & _).
Qed.

End save_facts.

(** ** The per-client quota *)

Section quota_lists.
Implicit Types (l L ids : list string) (s : string).







End quota_lists.

Section quota_facts.
Import PyDict PyDictFacts.
Implicit Types (st : SessionStore) (s e c : string).


End quota_facts.





(** the consequence: the one session ["s1"] fills both slots of the
    quota, and the next save of the client evicts the older occurrence,
    which deletes the data of ["s1"] while ["s1"] is still listed *)
Example duplicate_fills_quota :
  match save_all (Some "10.0.0.1"%string) [call "s1" 2] store_quota_2_s1 with
  | Ok st2 =>
      get_sessions_for_ip "10.0.0.1" st2 = ["s1"; "s1"]%string
      ∧ match save_all (Some "10.0.0.1"%string) [call "s2" 3] st2 with
        | Ok st3 =>
            get_sessions_for_ip "10.0.0.1" st3 = ["s1"; "s2"]%string
            ∧ in_hot_cache "s1" st3 = false
            ∧ in_durable_store "s1" st3 = false
        | Raise _ => False
        end
  | Raise _ => False
  end.
Proof. by vm_compute. Qed.

(** ** Eviction from the hot cache *)

Section min_facts.
Context {A : Type} (f : A → Z).

Lemma py_min_from_le (b : A) (xs : list A) :
  f (py_min_from f b xs) <= f b ∧ ∀ y, y ∈ xs → f (py_min_from f b xs) <= f y.
Proof.
  revert b. induction xs as [|x xs IH]; intros b; simpl.
  - split; [lia | by intros y ?%elem_of_nil].
  - destruct (IH (if f x <? f b then x else b)) as [Hb Hxs].
    destruct (f x <? f b) eqn:E;
      [apply Z.ltb_lt in E | apply Z.ltb_ge in E];
      (split; [lia|]); intros y [->|Hy]%elem_of_cons; auto; lia.
Qed.

Lemma py_min_from_in (b : A) (xs : list A) : py_min_from f b xs ∈ b :: xs.
Proof.
  revert b. induction xs as [|x xs IH]; intros b; simpl; [apply list_elem_of_here|].
  specialize (IH (if f x <? f b then x else b)).
  apply elem_of_cons in IH as [->|IH].
  - destruct (f x <? f b); [apply list_elem_of_further|]; apply list_elem_of_here.
  - by do 2 apply list_elem_of_further.
Qed.

(** [min] returns an element whose key is below every other key *)
Lemma py_min_spec (xs : list A) (k : A) :
  py_min f xs = Some k → k ∈ xs ∧ ∀ y, y ∈ xs → f k <= f y.
Proof.
  destruct xs as [|x xs]; [done|]. simpl. intros [= <-].
  split; [apply py_min_from_in|].
  destruct (py_min_from_le x xs) as [Hx Hxs].
  intros y [->|Hy]%elem_of_cons; auto.
Qed.
End min_facts.

Section eviction_facts.
Import PyDict PyDictFacts.
Implicit Types (st : SessionStore) (s e : string).

(** lines 102-105: when the cache is over its capacity, the key removed
    carries the least timestamp of the cache, and one entry goes *)
Lemma evict_lru_removes_least_recent st :
  wf (_session_cache st) →
  0 <= _max_cache_size st →
  _max_cache_size st < len (_session_cache st) →
  ∃ k, _session_cache (evict_lru st) = del k (_session_cache st)
    ∧ k ∈ keys (_session_cache st)
    ∧ (∀ k', k' ∈ keys (_session_cache st) →
             cache_time (_session_cache st) k <= cache_time (_session_cache st) k')
    ∧ len (_session_cache (evict_lru st)) = len (_session_cache st) - 1.
Proof.
  intros Hwf Hcap Hover.
  destruct (evict_lru_cache st) as [Heq|(k & Hin & Hmin & _ & Heq)].
  - exfalso. unfold evict_lru in Heq.
    apply Z.ltb_lt in Hover. rewrite Hover in Heq.
    destruct (py_min _ _) as [k|] eqn:Ek.
    + simpl in Heq. apply py_min_spec in Ek as [Hin _].
      pose proof (length_del_in k _ Hwf Hin) as Hlen. rewrite Heq in Hlen. lia.
    + unfold py_min in Ek. apply Z.ltb_lt in Hover. unfold len, keys in *.
      destruct (_session_cache st); [simpl in Hover; lia | done].
  - exists k. split; [done|]. split; [done|].
    split; [by apply py_min_spec in Hmin as [_ ?]|].
    rewrite Heq. unfold len. pose proof (length_del_in k _ Hwf Hin). lia.
Qed.

Lemma register_ip_cache_shrinks s ip st st1 :
  register_ip s ip st = Ok st1 →
  wf (_session_cache st) →
  wf (_session_cache st1)
  ∧ len (_session_cache st1) <= len (_session_cache st)
  ∧ _max_cache_size st1 = _max_cache_size st.
Proof.
  intros H Hwf.
  destruct (register_ip_cases _ _ _ _ H) as (m & [(_ & ->)|(o & _ & ->)]).
  - split; [done|]. split; [simpl; lia | done].
  - change (_session_cache (with_ip_sessions m (delete_session o st).2))
      with (_session_cache (delete_session o st).2).
    rewrite delete_session_cache. split; [by apply wf_del|]. split; [|done].
    unfold len. pose proof (length_del_le o (_session_cache st)). lia.
Qed.

(** an insertion by [save_session] into a cache within its capacity
    leaves it within its capacity *)
Lemma save_session_cache_bound s p ip t1 t2 t3 st st' :
  save_session s p ip t1 t2 t3 st = Ok st' →
  wf (_session_cache st) →
  len (_session_cache st) <= _max_cache_size st →
  wf (_session_cache st')
  ∧ len (_session_cache st') <= _max_cache_size st'
  ∧ _max_cache_size st' = _max_cache_size st.
Proof.
  intros (st1 & Hreg & ->)%save_session_stages Hwf Hle.
  destruct (register_ip_cache_shrinks _ _ _ _ Hreg Hwf) as (Hwf1 & Hle1 & Hcap1).
  set (st2 := with_cache (set s (p, t1) (_session_cache st1)) st1).
  assert (Hwf2 : wf (_session_cache st2)) by (by apply wf_set).
  assert (Hle2 : len (_session_cache st2) <= _max_cache_size st2 + 1).
  { unfold st2, len. simpl.
    pose proof (length_set_le s (p, t1) (_session_cache st1)).
    unfold len in *. lia. }
  destruct (write_session_frame s p ip t2 t3 (evict_lru st2)) as (-> & _ & _ & -> & _).
  destruct (evict_lru_frame st2) as (_ & _ & _ & Hcap & _). rewrite Hcap.
  assert (Hcap2 : _max_cache_size st2 = _max_cache_size st) by exact Hcap1.
  destruct (Z.ltb_spec (_max_cache_size st2) (len (_session_cache st2))) as [Hover|Hok].
  - assert (Hpos : 0 <= _max_cache_size st2) by (unfold len in *; lia).
    destruct (evict_lru_removes_least_recent st2 Hwf2 Hpos Hover)
      as (k & Heq & _ & _ & Hlen).
    split; [rewrite Heq; by apply wf_del|]. split; [lia | exact Hcap2].
  - unfold evict_lru. apply Z.ltb_ge in Hok. rewrite Hok.
    split; [exact Hwf2|]. split; [by apply Z.ltb_ge | exact Hcap2].
Qed.
End eviction_facts.

(** the scenario of the specification at capacity two:
    [put(A)], [put(B)], [get(A)], [put(C)] leaves [A] and [C] *)
Example lru_scenario_capacity_2 :
  match save_all None [call "A" 1; call "B" 2] store_cache_2 with
  | Ok st =>
      let '(a, st1) := load_session "A" 3 3 st in
      match save_all None [call "C" 4] st1 with
      | Ok st2 =>
          a = Some a_processor
          ∧ PyDict.keys (_session_cache st2) = ["A"; "C"]%string
          ∧ in_hot_cache "B" st2 = false
      | Raise _ => False
      end
  | Raise _ => False
  end.
Proof. by vm_compute. Qed.

(** C5, the code at the failing input.  In a store built by [__init__]
    (capacity 50), 51 sessions are saved, which evicts ["s0"] from the hot
    cache and leaves 50 entries; loading ["s0"] then promotes it from the
    durable store (line 146) with no eviction, and the hot cache holds 51
    entries; a further [save_session] evicts one entry only and leaves it
    at 51.  The same at capacity two: three saves and one load leave three
    entries. *)
Theorem load_promotion_exceeds_capacity :
  match save_all None (saves 51) default_store with
  | Ok st =>
      let '(loaded, st1) := load_session (sid 0) 100 100 st in
      PyDict.len (_session_cache st) = 50
      ∧ in_hot_cache (sid 0) st = false
      ∧ loaded = Some a_processor
      ∧ _max_cache_size st1 = 50
      ∧ PyDict.len (_session_cache st1) = 51
      ∧ match save_all None [call "next" 101] st1 with
        | Ok st2 => PyDict.len (_session_cache st2) = 51
        | Raise _ => False
        end
  | Raise _ => False
  end
  ∧ match save_all None [call "A" 1; call "B" 2; call "C" 3] store_cache_2 with
    | Ok st =>
        PyDict.keys (_session_cache (load_session "A" 4 4 st).2)
        = ["B"; "C"; "A"]%string
    | Raise _ => False
    end.
Proof. by vm_compute. Qed.

(** ** Loading *)

Section load_facts.
Import PyDict PyDictFacts.
Implicit Types (st : SessionStore) (s e : string) (p q : DocumentProcessor).

(** a miss of the hot cache served from the durable store: the payload
    is returned and promoted, its file stays as it is *)
Lemma load_session_promotes s q m i t t' st :
  in_hot_cache s st = false →
  payload_file s st = Some (PickleFile q) →
  metadata_file s st = Some (JsonFile m) →
  index q = Some i →
  (load_session s t t' st).1 = Some q
  ∧ in_hot_cache s (load_session s t t' st).2 = true
  ∧ payload_file s (load_session s t t' st).2 = Some (PickleFile q)
  ∧ metadata_file s (load_session s t t' st).2
    = Some (JsonFile {| meta_session_id := meta_session_id m;
                        created_at := created_at m;
                        last_accessed := t';
                        meta_ip_address := meta_ip_address m |}).
Proof.
  unfold in_hot_cache, payload_file, metadata_file. intros Hc Hp Hm Hi.
  apply contains_false in Hc. unfold load_session.
  rewrite Hc, Hp, Hi. cbn [base_dir with_cache]. rewrite Hm.
  cbn [fst snd base_dir with_files with_cache _session_cache].
  split; [done|]. split; [apply contains_set|].
  split; [|apply lookup_insert_eq].
  rewrite lookup_insert_ne; [done|].
  intros H. symmetry in H. by apply session_path_not_metadata in H.
Qed.

(** a payload without an index is refused by line 141 *)
Lemma load_session_refuses_no_index s q t t' st :
  in_hot_cache s st = false →
  payload_file s st = Some (PickleFile q) →
  index q = None →
  load_session s t t' st = (None, st).
Proof.
  unfold in_hot_cache, payload_file. intros Hc Hp Hi.
  apply contains_false in Hc. unfold load_session. by rewrite Hc, Hp, Hi.
Qed.

(** what a save that does not pick [e] as its quota victim leaves of
    the durable records of another session [e] *)
Lemma save_session_other_files s e p ip t1 t2 t3 st st' :
  save_session s p ip t1 t2 t3 st = Ok st' →
  e ≠ s → quota_victim ip st ≠ Some e →
  payload_file e st' = payload_file e st
  ∧ metadata_file e st' = metadata_file e st.
Proof.
  intros (st1 & Hreg & ->)%save_session_stages Hne Hvict.
  set (st2 := evict_lru _).
  destruct (write_session_other s e p ip t2 t3 st2) as [-> ->]; [done|].
  unfold payload_file, metadata_file, st2.
  destruct (evict_lru_frame
    (with_cache (set s (p, t1) (_session_cache st1)) st1)) as (-> & _).
  cbn [base_dir with_cache].
  destruct (register_ip_cases _ _ _ _ Hreg) as (m & [(_ & ->)|(o & Ho & ->)]);
    [done|].
  assert (o ≠ e) by congruence.
  cbn [base_dir with_ip_sessions].
  split; [by apply delete_session_other_payload
         | by apply delete_session_other_metadata].
Qed.

Lemma save_session_cache_after s p ip t1 t2 t3 st st' :
  save_session s p ip t1 t2 t3 st = Ok st' →
  payload_file s st' = Some (PickleFile p)
  ∧ metadata_file s st'
    = Some (JsonFile {| meta_session_id := s; created_at := t2;
                        last_accessed := t3; meta_ip_address := ip |})
  ∧ (get s (_session_cache st') = Some (p, t1)
     ∨ get s (_session_cache st') = None).
Proof.
  intros (st1 & Hreg & ->)%save_session_stages.
  split; [apply write_session_payload|].
  split; [apply write_session_metadata|].
  set (st2 := with_cache (set s (p, t1) (_session_cache st1)) st1).
  destruct (write_session_frame s p ip t2 t3 (evict_lru st2)) as (-> & _).
  destruct (evict_lru_cache st2) as [->|(k & _ & _ & _ & ->)].
  - left. apply get_set_eq.
  - destruct (decide (k = s)) as [->|Hne]; [right; apply get_del_eq|].
    left. rewrite get_del_ne by done. apply get_set_eq.
Qed.
End load_facts.

(** C6, counterexample: ["old"] was saved with a processor that has no
    index.  The 51st save evicts it from the hot cache; its records are
    still in the durable store, yet [load_session] answers [None]. *)
Lemma eviction_loses_session_without_index :
  ¬ eviction_keeps_session_loadable (store_full no_index_processor)
      (sid 50) a_processor None 50 50 50 "old" no_index_processor old_metadata.
Proof.
  intros H.
  pose (st' := match save_session (sid 50) a_processor None 50 50 50
                       (store_full no_index_processor) with
               | Ok x => x | Raise _ => default_store end).
  assert (Hsave : save_session (sid 50) a_processor None 50 50 50
                    (store_full no_index_processor) = Ok st') by (by vm_compute).
  destruct (H st' Hsave) as (_ & _ & Hload);
    [by vm_compute | by vm_compute | by vm_compute | by vm_compute
    | by vm_compute | by vm_compute |].
  specialize (Hload 60 60). vm_compute in Hload. discriminate Hload.
Qed.

(** C6, amended: if moreover the payload [q] has an index (it passes the
    check of line 141), and the ids involved are file names (the evicted
    [e], the saved [s], and the session that the save deletes for the
    quota, if any), so that different ids have different files, then the
    save leaves the payload and metadata records of [e] as they were, and
    a following [load_session] returns [q], promoted back into the hot
    cache from the durable store. *)
Theorem eviction_keeps_indexed_session_loadable (st st' : SessionStore)
    (s : string) (p : DocumentProcessor) (ip : option string) (t1 t2 t3 : Z)
    (e : string) (q : DocumentProcessor) (m : Metadata) (i : Z) :
  save_session s p ip t1 t2 t3 st = Ok st' →
  plain_id s = true →
  plain_id e = true →
  (∀ v, quota_victim ip st = Some v → plain_id v = true) →
  e ≠ s →
  quota_victim ip st ≠ Some e →
  payload_file e st = Some (PickleFile q) →
  metadata_file e st = Some (JsonFile m) →
  index q = Some i →
  in_hot_cache e st = true →
  in_hot_cache e st' = false →
  payload_file e st' = Some (PickleFile q)
  ∧ metadata_file e st' = Some (JsonFile m)
  ∧ ∀ t t', (load_session e t t' st').1 = Some q
            ∧ in_hot_cache e (load_session e t t' st').2 = true
            ∧ payload_file e (load_session e t t' st').2 = Some (PickleFile q).
Proof.
  intros Hsave _ _ _ Hne Hvict Hp Hm Hi _ Hout.
  destruct (save_session_other_files _ _ _ _ _ _ _ _ _ Hsave Hne Hvict) as [Hp' Hm'].
  rewrite Hp in Hp'. rewrite Hm in Hm'.
  split; [done|]. split; [done|]. intros t t'.
  destruct (load_session_promotes e q m i t t' st' Hout Hp' Hm' Hi) as (? & ? & ? & _).
  done.
Qed.

Lemma eviction_keeps_indexed_session_loadable_witness :
  payload_file "old" store_after_overflow = Some (PickleFile a_processor)
  ∧ metadata_file "old" store_after_overflow = Some (JsonFile old_metadata)
  ∧ ∀ t t', (load_session "old" t t' store_after_overflow).1 = Some a_processor
            ∧ in_hot_cache "old" (load_session "old" t t' store_after_overflow).2 = true
            ∧ payload_file "old" (load_session "old" t t' store_after_overflow).2
              = Some (PickleFile a_processor).
Proof.
  apply (eviction_keeps_indexed_session_loadable (store_full a_processor)
           store_after_overflow (sid 50) a_processor None 50 50 50
           "old" a_processor old_metadata 1).
  - vm_compute. reflexivity.
  - vm_compute. reflexivity.
  - vm_compute. reflexivity.
  - intros v Hv. discriminate Hv.
  - discriminate.
  - discriminate.
  - vm_compute. reflexivity.
  - vm_compute. reflexivity.
  - reflexivity.
  - vm_compute. reflexivity.
  - vm_compute. reflexivity.
Defined.

Section roundtrip_facts.
Import PyDict PyDictFacts.
Implicit Types (st : SessionStore) (s e : string) (p q : DocumentProcessor).

Lemma register_ip_total s ip st :
  0 < max_sessions_per_ip st → ∃ st1, register_ip s ip st = Ok st1.
Proof.
  intros Hmax. destruct (truthy ip) as [c|] eqn:Et.
  - apply truthy_inv in Et as [-> Hc].
    destruct (register_ip_Some s c st Hc Hmax) as (st1 & H & _). eauto.
  - exists st. by apply register_ip_None.
Qed.

Lemma register_ip_cache_lookup s ip st st1 k v :
  register_ip s ip st = Ok st1 →
  get k (_session_cache st1) = Some v → get k (_session_cache st) = Some v.
Proof.
  intros H. destruct (register_ip_cases _ _ _ _ H) as (m & [(_ & ->)|(o & _ & ->)]);
    [done|].
  change (_session_cache (with_ip_sessions m (delete_session o st).2))
    with (_session_cache (delete_session o st).2).
  rewrite delete_session_cache. destruct (decide (o = k)) as [->|Hne].
  - by rewrite get_del_eq.
  - by rewrite get_del_ne.
Qed.

Lemma NoDup_other (l : list string) (x : string) :
  NoDup l → (2 ≤ length l)%nat → ∃ y, y ∈ l ∧ y ≠ x.
Proof.
  destruct l as [|a [|b l]]; simpl; [lia | lia |]. intros Hnd _.
  apply NoDup_cons in Hnd as [Hab _]. apply not_elem_of_cons in Hab as [Hab _].
  destruct (decide (a = x)) as [->|Hax].
  - exists b. split; [apply list_elem_of_further, list_elem_of_here | congruence].
  - exists a. split; [apply list_elem_of_here | done].
Qed.

(** an entry stamped later than every other entry is not the one
    [evict_lru] removes, in a cache with room for one entry at least *)
Lemma evict_lru_keeps_newest st s p t1 :
  wf (_session_cache st) →
  0 < _max_cache_size st →
  get s (_session_cache st) = Some (p, t1) →
  (∀ k q t, k ≠ s → get k (_session_cache st) = Some (q, t) → t < t1) →
  get s (_session_cache (evict_lru st)) = Some (p, t1).
Proof.
  intros Hwf Hcap Hs Hnew.
  destruct (evict_lru_cache st) as [->|(k & Hin & Hmin & Hover & ->)]; [done|].
  destruct (decide (k = s)) as [->|Hne]; [|by rewrite get_del_ne].
  exfalso. apply py_min_spec in Hmin as [_ Hmin].
  destruct (NoDup_other (keys (_session_cache st)) s Hwf) as (k' & Hk' & Hne).
  { unfold len, keys in *. rewrite length_map. lia. }
  specialize (Hmin k' Hk'). apply keys_get in Hk' as [[q t] Hq].
  specialize (Hnew k' q t Hne Hq).
  unfold cache_time in Hmin. rewrite Hs, Hq in Hmin. lia.
Qed.
End roundtrip_facts.

(** C7, counterexample: the hot cache of [store_full] holds 50 sessions
    with timestamps from [0] on.  A save whose clock reading is [-1] (the
    wall clock was set back) puts its entry in and, the cache being over
    capacity, evicts it at once as the least recent; the payload has no
    index, so the load answers [None] although the save returned. *)
Lemma save_then_load_fails_after_clock_regression :
  ¬ save_load_roundtrip (store_full a_processor) "late" no_index_processor None
      (-1) 50 50 51 51.
Proof.
  intros (st' & Hsave & Hload).
  pose (st0 := match save_session "late" no_index_processor None (-1) 50 50
                       (store_full a_processor) with
               | Ok x => x | Raise _ => default_store end).
  assert (Hst0 : save_session "late" no_index_processor None (-1) 50 50
                   (store_full a_processor) = Ok st0) by (by vm_compute).
  assert (Heq : st' = st0) by congruence. subst st'.
  vm_compute in Hload. discriminate Hload.
Qed.

(** the round trip also fails where the save raises: with a quota of zero
    the first save of a client ends in [IndexError] *)
Lemma save_then_load_fails_without_quota :
  ¬ save_load_roundtrip store_quota_0 "s1" a_processor (Some "10.0.0.1"%string)
      0 0 0 1 1.
Proof. intros (st' & Hsave & _). vm_compute in Hsave. discriminate Hsave. Qed.

(** C7, amended.  When [save_session s p] has returned, an immediately
    following [load_session s] returns [p] if the clock reading of the
    save is later than the timestamp of every other cached session and
    the hot cache has room for one entry at least (the load is then a hit
    of the hot cache), or if [p] has an index (if the save itself evicted
    [s], the load is served from the durable store). *)
Theorem save_then_load_roundtrip (st st' : SessionStore) (s : string)
    (p : DocumentProcessor) (ip : option string) (t1 t2 t3 t4 t5 : Z) :
  save_session s p ip t1 t2 t3 st = Ok st' →
  (PyDict.wf (_session_cache st)
   ∧ 0 < _max_cache_size st
   ∧ ∀ k q t, k ≠ s → PyDict.get k (_session_cache st) = Some (q, t) → t < t1)
  ∨ index p ≠ None →
  (load_session s t4 t5 st').1 = Some p.
Proof.
  intros Hsave Hcond.
  destruct (save_session_cache_after _ _ _ _ _ _ _ _ Hsave) as (Hp & Hm & Hc).
  pose proof Hsave as (st1 & Hreg & Hst')%save_session_stages.
  destruct Hcond as [(Hwf & Hcap & Hnew)|Hidx].
  - set (st2 := with_cache (PyDict.set s (p, t1) (_session_cache st1)) st1) in Hst'.
    assert (Hs : PyDict.get s (_session_cache st') = Some (p, t1)).
    { rewrite Hst'.
      destruct (write_session_frame s p ip t2 t3 (evict_lru st2)) as (-> & _).
      destruct (register_ip_cache_shrinks _ _ _ _ Hreg Hwf) as (Hwf1 & _ & Hcap1).
      apply evict_lru_keeps_newest.
      - by apply PyDictFacts.wf_set.
      - unfold st2. cbn [_max_cache_size with_cache]. lia.
      - apply PyDictFacts.get_set_eq.
      - intros k q t Hne Hk. unfold st2 in Hk. cbn [_session_cache with_cache] in Hk.
        rewrite PyDictFacts.get_set_ne in Hk by done.
        apply (Hnew k q t Hne). by eapply register_ip_cache_lookup. }
    by rewrite (load_session_hit_state s p t1 t4 t5 st' Hs).
  - destruct Hc as [Hs|Hs].
    + by rewrite (load_session_hit_state s p t1 t4 t5 st' Hs).
    + destruct (index p) as [i|] eqn:Hi; [|done].
      apply PyDictFacts.contains_false in Hs.
      by destruct (load_session_promotes s p _ i t4 t5 st' Hs Hp Hm Hi) as (? & _).
Qed.

Lemma save_then_load_roundtrip_witness :
  (load_session "s2" 6 6 store_saved_s1_s2).1 = Some no_index_processor.
Proof.
  apply (save_then_load_roundtrip store_saved_at_0 store_saved_s1_s2 "s2"
           no_index_processor None 5 5 5 6 6).
  - vm_compute. reflexivity.
  - left. split; [|split].
    + apply (bool_decide_unpack _). vm_compute. exact I.
    + reflexivity.
    + intros k q t _ Hk. simpl in Hk.
      destruct (String.eqb k "s1"); [|discriminate Hk].
      injection Hk as _ <-. reflexivity.
Defined.

(** ** The response cache *)

Section normalization.
Implicit Types (l w c : list ascii) (q : string).








End normalization.


(** the normal form on examples: white space of every kind is stripped
    at both ends only, and letters with a lower-case form are lowered *)
Lemma cache_key_examples :
  cache_key "  Hello World  " = "hello world"%string
  ∧ cache_key (String "009" (String "010" (String "160" "MiXeD"))) = "mixed"%string
  ∧ cache_key (String "A" (String "013" (String "012" (String "133" EmptyString))))
    = "a"%string
  ∧ cache_key (String "201" (String "215" (String "222" EmptyString)))
    = String "233" (String "215" (String "254" EmptyString))
  ∧ cache_key "Hello  World" = "hello  world"%string
  ∧ cache_key "Hello  World" ≠ cache_key "Hello World".
Proof. split_and!; try (vm_compute; reflexivity). vm_compute. discriminate. Qed.

Section spec_normal_form.
Implicit Types (a b : ascii) (w c : string).




End spec_normal_form.



Section response_cache_facts.
Import PyDict PyDictFacts.
Implicit Types (self : DocumentProcessor).

Lemma make_room_spec self :
  wf (_response_cache self) →
  0 < _cache_size self →
  len (_response_cache self) <= _cache_size self →
  make_room self
  = Ok (if _cache_size self <=? len (_response_cache self)
        then tail (_response_cache self) else _response_cache self).
Proof.
  intros Hwf Hcap Hle. unfold make_room.
  destruct (_cache_size self <=? len (_response_cache self)) eqn:E; [|done].
  apply Z.leb_le in E. unfold len in *.
  destruct (_response_cache self) as [|[k v] d]; [simpl in E; lia|].
  change (tail ((k, v) :: d)) with d.
  rewrite <- (del_head k v d Hwf) at 2. reflexivity.
Qed.

Lemma wf_tail {V} (d : list (string * V)) : wf d → wf (tail d).
Proof. destruct d as [|x d]; [done|]. unfold wf. simpl. by intros [_ ?]%NoDup_cons. Qed.

Lemma get_tail_None {V} k (d : list (string * V)) : get k d = None → get k (tail d) = None.
Proof.
  destruct d as [|[k' v] d]; [done|]. simpl.
  by destruct (String.eqb k k').
Qed.
End response_cache_facts.

(** the insertion of lines 206-217, on a cache within its capacity *)
Lemma query_document_inserts (self : DocumentProcessor)
    (query : string) (resp : EngineResponse) (t0 t1 : Z) :
  PyDict.wf (_response_cache self) →
  0 < _cache_size self →
  PyDict.len (_response_cache self) <= _cache_size self →
  index self ≠ None →
  strip (engine_text resp) ≠ ""%string →
  PyDict.get (cache_key query) (_response_cache self) = None →
  ∃ r self',
    query_document query (Some resp) t0 t1 self = Ok (r, self')
    ∧ _cache_size self' = _cache_size self
    ∧ _response_cache self'
      = PyDict.set (cache_key query) r
          (if _cache_size self <=? PyDict.len (_response_cache self)
           then tail (_response_cache self) else _response_cache self)
    ∧ PyDict.wf (_response_cache self')
    ∧ PyDict.len (_response_cache self') <= _cache_size self
    ∧ (PyDict.len (_response_cache self) = _cache_size self →
       PyDict.len (_response_cache self') = _cache_size self).
Proof.
  intros Hwf Hcap Hle Hidx Htext Hmiss. unfold query_document.
  destruct (index self) as [i|]; [|done]. rewrite Hmiss.
  apply String.eqb_neq in Htext. rewrite Htext.
  rewrite (make_room_spec self Hwf Hcap Hle). cbn [rbind].
  eexists _, _. split; [reflexivity|]. cbn [_cache_size _response_cache with_response_cache].
  split; [done|]. split; [done|].
  set (c0 := if _cache_size self <=? PyDict.len (_response_cache self)
             then tail (_response_cache self) else _response_cache self).
  assert (Hwf0 : PyDict.wf c0).
  { unfold c0. destruct (_ <=? _); [by apply wf_tail | done]. }
  assert (Hmiss0 : cache_key query ∉ PyDict.keys c0).
  { apply PyDictFacts.get_None_keys. unfold c0.
    destruct (_ <=? _); [by apply get_tail_None | done]. }
  split; [by apply PyDictFacts.wf_set|].
  unfold PyDict.len in *. rewrite PyDictFacts.length_set_notin by done.
  unfold c0. destruct (Z.leb_spec (_cache_size self)
                         (Z.of_nat (length (_response_cache self)))) as [Hfull|Hroom].
  - destruct (_response_cache self) as [|x d]; simpl in *; lia.
  - split; lia.
Qed.

(** C9.  Every insertion into the response cache (a query that misses the
    cache and gets a non-blank answer from the engine) on a processor
    whose cache is within its positive capacity returns normally and
    stores the response under the normalized query after dropping, when
    the cache is at capacity, exactly the first-inserted entry; the cache
    is within capacity afterwards, and an insertion at capacity leaves
    exactly [_cache_size] entries (100 for a processor made by
    [__init__]). *)
Theorem response_cache_insertion_bounded (self : DocumentProcessor)
    (query : string) (resp : EngineResponse) (t0 t1 : Z) :
  PyDict.wf (_response_cache self) →
  0 < _cache_size self →
  PyDict.len (_response_cache self) <= _cache_size self →
  index self ≠ None →
  strip (engine_text resp) ≠ ""%string →
  PyDict.get (cache_key query) (_response_cache self) = None →
  ∃ r self',
    query_document query (Some resp) t0 t1 self = Ok (r, self')
    ∧ _cache_size self' = _cache_size self
    ∧ _response_cache self'
      = PyDict.set (cache_key query) r
          (if _cache_size self <=? PyDict.len (_response_cache self)
           then tail (_response_cache self) else _response_cache self)
    ∧ PyDict.wf (_response_cache self')
    ∧ PyDict.len (_response_cache self') <= _cache_size self
    ∧ (PyDict.len (_response_cache self) = _cache_size self →
       PyDict.len (_response_cache self') = _cache_size self).
Proof. apply query_document_inserts. Qed.

Section response_cache_invariant.
Import PyDict PyDictFacts.

Lemma query_document_within_capacity self query engine t0 t1 r self' :
  cache_within_capacity self →
  query_document query engine t0 t1 self = Ok (r, self') →
  cache_within_capacity self' ∧ _cache_size self' = _cache_size self.
Proof.
  intros (Hwf & Hcap & Hle) Hq.
  destruct (index self) as [i|] eqn:Hi;
    [|by unfold query_document in Hq; rewrite Hi in Hq].
  destruct (get (cache_key query) (_response_cache self)) as [cached|] eqn:Hc.
  { unfold query_document in Hq. rewrite Hi, Hc in Hq. by injection Hq as <- <-. }
  destruct engine as [resp|];
    [|by unfold query_document in Hq; rewrite Hi, Hc in Hq].
  destruct (String.eqb (strip (engine_text resp)) "") eqn:Et;
    [by unfold query_document in Hq; rewrite Hi, Hc, Et in Hq|].
  apply String.eqb_neq in Et.
  destruct (query_document_inserts self query resp t0 t1)
    as (r0 & self0 & Hq0 & Hcap0 & _ & Hwf0 & Hle0 & _); try done.
  { by rewrite Hi. }
  rewrite Hq in Hq0. injection Hq0 as <- <-.
  split; [|done]. unfold cache_within_capacity. rewrite Hcap0. done.
Qed.

Lemma run_queries_within_capacity calls self :
  cache_within_capacity self →
  cache_within_capacity (run_queries calls self)
  ∧ _cache_size (run_queries calls self) = _cache_size self.
Proof.
  revert self. induction calls as [|a calls IH]; intros self Hinv; simpl; [done|].
  destruct (query_document _ _ _ _ self) as [[r self']|x] eqn:Hq; [|by apply IH].
  destruct (query_document_within_capacity _ _ _ _ _ _ _ Hinv Hq) as [Hinv' Hcap'].
  destruct (IH self' Hinv') as [? ?]. split; [done | congruence].
Qed.

(** a processor as [__init__] makes it, with whatever index, never holds
    more than 100 cached responses *)
Lemma response_cache_never_exceeds_100 calls (idx : option Z) :
  len (_response_cache
         (run_queries calls
            {| index := idx; _response_cache := _response_cache new_processor;
               _cache_size := _cache_size new_processor |})) <= 100.
Proof.
  set (self := {| index := idx |}).
  assert (Hinv : cache_within_capacity self).
  { split; [apply NoDup_nil_2|]. split; [reflexivity | discriminate]. }
  destruct (run_queries_within_capacity calls self Hinv) as [(_ & _ & Hle) Hcap].
  by rewrite Hcap in Hle.
Qed.
End response_cache_invariant.

(** at the default capacity: the 101st distinct query drops ["q0"] and
    leaves exactly 100 entries *)
Lemma response_cache_insertion_bounded_witness :
  ∃ r self',
    query_document "one more" (Some hello_response) 0 1 full_processor = Ok (r, self')
    ∧ _cache_size self' = _cache_size full_processor
    ∧ _response_cache self'
      = PyDict.set (cache_key "one more") r
          (if _cache_size full_processor <=? PyDict.len (_response_cache full_processor)
           then tail (_response_cache full_processor)
           else _response_cache full_processor)
    ∧ PyDict.wf (_response_cache self')
    ∧ PyDict.len (_response_cache self') <= _cache_size full_processor
    ∧ (PyDict.len (_response_cache full_processor) = _cache_size full_processor →
       PyDict.len (_response_cache self') = _cache_size full_processor).
Proof.
  apply (response_cache_insertion_bounded full_processor "one more" hello_response 0 1).
  - apply (bool_decide_unpack _). vm_compute. exact I.
  - reflexivity.
  - apply Z.leb_le. vm_compute. reflexivity.
  - vm_compute. discriminate.
  - vm_compute. discriminate.
  - vm_compute. reflexivity.
Defined.

Example response_cache_101st_insertion :
  PyDict.len (_response_cache full_processor) = 100
  ∧ head (PyDict.keys (_response_cache full_processor)) = Some "q0"%string
  ∧ match query_document "  One More " (Some hello_response) 0 1 full_processor with
    | Ok (_, self') =>
        PyDict.len (_response_cache self') = 100
        ∧ head (PyDict.keys (_response_cache self')) = Some "q1"%string
        ∧ last (PyDict.keys (_response_cache self')) = Some "one more"%string
    | Raise _ => False
    end.
Proof. by vm_compute. Qed.

(** ** Stores reached from [__init__] *)

Section reachable.
Import PyDict PyDictFacts.
Implicit Types (st : SessionStore) (s c : string).

Lemma delete_session_invariant s st :
  store_invariant st → store_invariant (delete_session s st).2.
Proof.
  intros [Hwf Hq]. split; [|exact Hq].
  rewrite delete_session_cache. by apply wf_del.
Qed.

Lemma load_session_invariant s t t' st :
  store_invariant st → store_invariant (load_session s t t' st).2.
Proof.
  intros [Hwf Hq]. unfold load_session.
  destruct (get s (_session_cache st)) as [[q ts]|].
  { split; [by apply wf_set | exact Hq]. }
  destruct (base_dir st !! _get_session_path s) as [[q|m]|]; [|done|done].
  destruct (index q); [|done]. cbn [base_dir with_cache].
  destruct (base_dir st !! _get_metadata_path s) as [[q'|m]|];
    (split; [by apply wf_set | exact Hq]).
Qed.

Lemma quota_step_length max (l : list string) s :
  0 <= max → Z.of_nat (length l) <= max →
  (max <= 0 → l ≠ []) →
  Z.of_nat (length (quota_step max l s)) <= max.
Proof.
  intros Hmax Hl Hne. unfold quota_step.
  destruct (Z.leb_spec max (Z.of_nat (length l))) as [Hfull|Hroom].
  - destruct l as [|x l]; rewrite length_app; simpl in *; [|lia].
    assert (max = 0) by lia. exfalso. by apply Hne; [lia|].
  - rewrite length_app. simpl. lia.
Qed.

Lemma save_session_invariant s p ip t1 t2 t3 st st' :
  save_session s p ip t1 t2 t3 st = Ok st' →
  store_invariant st → store_invariant st'.
Proof.
  intros Hsave [Hwf Hq].
  pose proof Hsave as (st1 & Hreg & Hst')%save_session_stages.
  destruct (register_ip_cache_shrinks _ _ _ _ Hreg Hwf) as (Hwf1 & _ & _).
  destruct (save_session_ip_sessions _ _ _ _ _ _ _ _ _ Hsave Hreg) as (Hips & Hmax & _).
  split.
  - rewrite Hst'.
    destruct (write_session_frame s p ip t2 t3
      (evict_lru (with_cache (set s (p, t1) (_session_cache st1)) st1))) as (-> & _).
    destruct (evict_lru_cache (with_cache (set s (p, t1) (_session_cache st1)) st1))
      as [->|(k & _ & _ & _ & ->)].
    + by apply wf_set.
    + by apply wf_del, wf_set.
  - intros c. unfold get_sessions_for_ip. rewrite Hips, Hmax.
    fold (get_sessions_for_ip c st1).
    assert (Hmax1 : max_sessions_per_ip st1 = max_sessions_per_ip st).
    { destruct (register_ip_cases _ _ _ _ Hreg) as (m & [(_ & ->)|(o & _ & ->)]); done. }
    rewrite Hmax1.
    destruct (decide (truthy ip = Some c)) as [Heq|Hne].
    + apply truthy_inv in Heq as [-> Hc].
      unfold register_ip in Hreg. rewrite truthy_Some in Hreg by done.
      fold (get_sessions_for_ip c st) in Hreg.
      assert (Hl1 : get_sessions_for_ip c st1
                    = quota_step (max_sessions_per_ip st) (get_sessions_for_ip c st) s).
      { unfold quota_step. destruct (max_sessions_per_ip st <=? _).
        - destruct (get_sessions_for_ip c st) as [|o rest]; [done|].
          injection Hreg as <-. unfold get_sessions_for_ip. simpl.
          by rewrite lookup_insert_eq.
        - injection Hreg as <-. unfold get_sessions_for_ip. simpl.
          by rewrite lookup_insert_eq. }
      rewrite Hl1. specialize (Hq c). apply quota_step_length; [lia | done |].
      intros Hle Hnil. rewrite Hnil in Hreg. simpl in Hreg.
      destruct (Z.leb_spec (max_sessions_per_ip st) (Z.of_nat 0)) as [_|Hgt];
        [done | simpl in Hgt; lia].
    + rewrite (register_ip_other_client _ _ _ _ _ Hreg Hne). apply Hq.
Qed.

Lemma cleanup_invariant now st :
  store_invariant st → store_invariant (_cleanup_old_sessions now st).
Proof.
  intros Hinv. unfold _cleanup_old_sessions.
  assert (Hc : store_invariant (_cleanup_cache now st)).
  { unfold _cleanup_cache.
    generalize (map fst
      (List.filter (λ e, session_timeout st <? now - e.2.2) (_session_cache st))).
    intros ks. revert st Hinv. induction ks as [|k ks IH]; intros st Hinv; [done|].
    simpl. apply IH. destruct (contains k (_session_cache st)); [|done].
    destruct Hinv as [Hwf Hq]. split; [by apply wf_del | exact Hq]. }
  revert Hc. generalize (_cleanup_cache now st) as st1.
  unfold _cleanup_disk. intros st1.
  generalize (glob_meta (base_dir st1)) as files. intros files. revert st1.
  induction files as [|f files IH]; intros st1 H1; [done|].
  simpl. apply IH. unfold _cleanup_meta_file.
  destruct (base_dir st1 !! f) as [[q|m]|]; [done| |done].
  destruct (session_timeout st1 <? _); [|done].
  by apply delete_session_invariant.
Qed.

Lemma step_invariant st op : store_invariant st → store_invariant (step st op).
Proof.
  intros Hinv. destruct op as [s p ip t1 t2 t3|s t t'|s|now]; simpl.
  - destruct (save_session s p ip t1 t2 t3 st) as [st'|x] eqn:Hs; [|done].
    by eapply save_session_invariant.
  - by apply load_session_invariant.
  - by apply delete_session_invariant.
  - by apply cleanup_invariant.
Qed.

(** every store reached from a constructor call with a non-negative
    quota by any sequence of operations satisfies the invariant *)
Lemma run_invariant ops files max_sessions session_timeout_hours :
  0 <= max_sessions →
  store_invariant (run ops (__init__ files max_sessions session_timeout_hours)).
Proof.
  intros Hmax. unfold run.
  assert (H0 : store_invariant (__init__ files max_sessions session_timeout_hours)).
  { split; [apply NoDup_nil_2|]. intros c. unfold get_sessions_for_ip. simpl.
    rewrite lookup_empty. simpl. lia. }
  revert H0. generalize (__init__ files max_sessions session_timeout_hours) as st.
  induction ops as [|op ops IH]; intros st H0; [done|].
  simpl. by apply IH, step_invariant.
Qed.
End reachable.

(** ** Further properties of the session store *)

Section store_extras.
Import PyDict PyDictFacts.
Implicit Types (st : SessionStore) (s e c : string) (p q : DocumentProcessor).

(** X1.  Deleting a session leaves every other session alone: for two
    ids that are file names and differ, [delete_session s] leaves the
    cache entry, the payload file and the metadata file of [e] as they
    were, and all quota lists too. *)
Theorem delete_session_leaves_other_sessions st s e :
  plain_id s = true →
  plain_id e = true →
  s ≠ e →
  get e (_session_cache (delete_session s st).2) = get e (_session_cache st)
  ∧ payload_file e (delete_session s st).2 = payload_file e st
  ∧ metadata_file e (delete_session s st).2 = metadata_file e st
  ∧ ip_sessions (delete_session s st).2 = ip_sessions st.
Proof.
  intros _ _ Hne. split; [by apply delete_session_other_cache|].
  split; [by apply delete_session_other_payload|].
  split; [by apply delete_session_other_metadata | done].
Qed.

(** X2.  For an id that is a file name, [delete_session] is idempotent
    and final: a second deletion changes nothing, and a load after the
    deletion finds nothing and changes nothing, whatever the store
    held. *)
Theorem delete_session_idempotent st s t t' :
  plain_id s = true →
  (delete_session s (delete_session s st).2).2 = (delete_session s st).2
  ∧ load_session s t t' (delete_session s st).2 = (None, (delete_session s st).2).
Proof.
  intros _. split; [by rewrite delete_twice | apply delete_then_load].
Qed.


(** X4.  With a quota of zero or less, the first save of a client (one
    with no list yet) raises [IndexError] at [ip_sessions[0]]. *)
Theorem save_session_zero_quota_raises st s p c t1 t2 t3 :
  c ≠ ""%string →
  max_sessions_per_ip st <= 0 →
  get_sessions_for_ip c st = [] →
  save_session s p (Some c) t1 t2 t3 st = Raise IndexError.
Proof.
  intros Hc Hmax Hl. unfold save_session, register_ip.
  rewrite truthy_Some by done. unfold get_sessions_for_ip in Hl. rewrite Hl.
  simpl length. destruct (Z.leb_spec (max_sessions_per_ip st) (Z.of_nat 0)) as [_|Hgt];
    [done | simpl in Hgt; lia].
Qed.


(** the files after a load: all as before, but for the access time in
    the metadata file of the session *)
Lemma load_session_files st s t t' name :
  base_dir (load_session s t t' st).2 !! name = base_dir st !! name
  ∨ (name = _get_metadata_path s
     ∧ ∃ m, base_dir st !! name = Some (JsonFile m)
          ∧ base_dir (load_session s t t' st).2 !! name = Some (JsonFile (touch t' m))).
Proof.
  unfold load_session.
  destruct (get s (_session_cache st)) as [[q ts]|]; [by left|].
  destruct (base_dir st !! _get_session_path s) as [[q|m]|]; [|by left|by left].
  destruct (index q); [|by left]. cbn [base_dir with_cache].
  destruct (base_dir st !! _get_metadata_path s) as [[q'|m]|] eqn:Hm;
    [by left| |by left].
  cbn [snd base_dir with_files].
  destruct (decide (name = _get_metadata_path s)) as [->|Hne].
  - right. split; [done|]. exists m. split; [done|]. apply lookup_insert_eq.
  - left. by rewrite lookup_insert_ne.
Qed.

(** X6.  [load_session] writes nothing but the access time: every file
    of the directory is as before, except that a load served from the
    durable store replaces [last_accessed] in the metadata file of the
    session, keeping its other fields. *)
Theorem load_session_touches_only_last_accessed st s t t' name :
  base_dir (load_session s t t' st).2 !! name = base_dir st !! name
  ∨ (name = _get_metadata_path s
     ∧ ∃ m, base_dir st !! name = Some (JsonFile m)
          ∧ base_dir (load_session s t t' st).2 !! name = Some (JsonFile (touch t' m))).
Proof. apply load_session_files. Qed.
End store_extras.


Section reaper_extras.
Import PyDict PyDictFacts.
Implicit Types (st : SessionStore) (s e c : string) (p q : DocumentProcessor).

Lemma get_In {V} k (v : V) (d : list (string * V)) : get k d = Some v → In (k, v) d.
Proof.
  induction d as [|[k' v'] d IH]; simpl; [done|].
  destruct (String.eqb k k') eqn:E.
  - apply String.eqb_eq in E. intros [= ->]. left. by subst.
  - intros H. right. auto.
Qed.

Lemma wf_In_get {V} k (v : V) (d : list (string * V)) :
  wf d → In (k, v) d → get k d = Some v.
Proof.
  unfold wf. induction d as [|[k' v'] d IH]; simpl; [done|].
  intros [Hnin Hnd]%NoDup_cons [[= -> ->]|Hin].
  - by rewrite String.eqb_refl.
  - destruct (String.eqb k k') eqn:E; [|auto].
    apply String.eqb_eq in E. subst k'. exfalso. apply Hnin.
    apply list_elem_of_In. change k with (fst (k, v)). by apply in_map.
Qed.

Lemma In_del {V} k (e : string * V) (d : list (string * V)) :
  In e (del k d) → In e d ∧ e.1 ≠ k.
Proof.
  unfold del. rewrite List.filter_In, negb_true_iff, String.eqb_neq.
  intros [? ?]. split; [done | congruence].
Qed.

Lemma delete_session_cache_In s st (e : string * (DocumentProcessor * Z)) :
  In e (_session_cache (delete_session s st).2) → In e (_session_cache st).
Proof. rewrite delete_session_cache. by intros [? _]%In_del. Qed.

(** the cache phase drops every entry whose key is that of an expired
    entry, and nothing else *)
Lemma cleanup_cache_In now st (e : string * (DocumentProcessor * Z)) :
  In e (_session_cache (_cleanup_cache now st)) →
  In e (_session_cache st) ∧ now - e.2.2 <= session_timeout st.
Proof.
  unfold _cleanup_cache. intros Hin.
  assert (Hgen : ∀ ks st0,
    In e (_session_cache
            (fold_left
               (λ st' key,
                  if contains key (_session_cache st')
                  then with_cache (del key (_session_cache st')) st' else st')
               ks st0)) →
    In e (_session_cache st0) ∧ e.1 ∉ ks).
  { clear. induction ks as [|k ks IH]; intros st0 H; simpl in *.
    - split; [done | apply not_elem_of_nil].
    - apply IH in H as [H Hks].
      destruct (contains k (_session_cache st0)) eqn:Ec.
      + simpl in H. apply In_del in H as [H Hne].
        split; [done|]. apply not_elem_of_cons. done.
      + split; [done|]. apply not_elem_of_cons. split; [|done].
        intros <-. apply contains_false, get_None_keys in Ec. apply Ec.
        apply list_elem_of_In. by apply in_map. }
  apply Hgen in Hin as [Hin Hnot]. split; [done|].
  destruct (Z.leb_spec (now - e.2.2) (session_timeout st)) as [|Hexp]; [done|].
  exfalso. apply Hnot. apply list_elem_of_In.
  apply (in_map fst _ e). apply List.filter_In. split; [done|].
  by apply Z.ltb_lt.
Qed.

Lemma cleanup_disk_In now files st (e : string * (DocumentProcessor * Z)) :
  In e (_session_cache (_cleanup_disk now files st)) → In e (_session_cache st).
Proof.
  unfold _cleanup_disk. revert st.
  induction files as [|f files IH]; intros st H; simpl in *; [done|].
  apply IH in H. unfold _cleanup_meta_file in H.
  destruct (base_dir st !! f) as [[q|m]|]; [done| |done].
  destruct (session_timeout st <? _); [|done].
  by apply delete_session_cache_In in H.
Qed.

Lemma files_wf_delete s st :
  files_wf (base_dir st) → files_wf (base_dir (delete_session s st).2).
Proof.
  intros Hwf name m Hend Hf. apply Hwf; [done|].
  rewrite delete_session_files in Hf.
  apply lookup_delete_Some in Hf as [_ Hf].
  by apply lookup_delete_Some in Hf as [_ Hf].
Qed.

(** the state of one session, and what the scan reads, while the disk
    phase runs over the metadata files *)
Lemma cleanup_disk_keeps_fresh now files st s m :
  Forall (λ f, ends_with "_meta.json" f = true) files →
  files_wf (base_dir st) →
  metadata_file s st = Some (JsonFile m) →
  now - last_accessed m <= session_timeout st →
  metadata_file s (_cleanup_disk now files st) = Some (JsonFile m)
  ∧ payload_file s (_cleanup_disk now files st) = payload_file s st
  ∧ get s (_session_cache (_cleanup_disk now files st)) = get s (_session_cache st).
Proof.
  unfold _cleanup_disk. intros Hfiles. revert st.
  induction Hfiles as [|f files Hf _ IH]; intros st Hwf Hm Hfresh; simpl; [done|].
  assert (Hstep : files_wf (base_dir (_cleanup_meta_file now st f))
    ∧ metadata_file s (_cleanup_meta_file now st f) = Some (JsonFile m)
    ∧ payload_file s (_cleanup_meta_file now st f) = payload_file s st
    ∧ get s (_session_cache (_cleanup_meta_file now st f)) = get s (_session_cache st)).
  { unfold _cleanup_meta_file.
    destruct (base_dir st !! f) as [[q|m']|] eqn:Ef; [done| |done].
    destruct (session_timeout st <? now - last_accessed m') eqn:Eexp; [|done].
    apply Z.ltb_lt in Eexp.
    assert (Hne : meta_session_id m' ≠ s).
    { intros Heq. pose proof (Hwf f m' Hf Ef) as Hname. rewrite Heq in Hname.
      unfold metadata_file in Hm. rewrite <- Hname, Ef in Hm.
      injection Hm as ->. lia. }
    split; [by apply files_wf_delete|].
    split; [by rewrite delete_session_other_metadata|].
    split; [by apply delete_session_other_payload
           | by apply delete_session_other_cache]. }
  destruct Hstep as (Hwf' & Hm' & Hp' & Hc').
  destruct (IH _ Hwf' Hm') as (? & ? & ?);
    [by rewrite cleanup_meta_file_timeout|].
  split; [done|]. split; congruence.
Qed.

Lemma cleanup_cache_fold_other s (ks : list string) st :
  s ∉ ks →
  get s (_session_cache
           (fold_left
              (λ st' key,
                 if contains key (_session_cache st')
                 then with_cache (del key (_session_cache st')) st' else st')
              ks st))
  = get s (_session_cache st).
Proof.
  revert st. induction ks as [|k ks IH]; intros st Hs; simpl; [done|].
  apply not_elem_of_cons in Hs as [Hne Hs]. rewrite IH by done.
  destruct (contains k (_session_cache st)); [|done].
  simpl. by rewrite get_del_ne.
Qed.


(** one scan and a session that is within the timeout on disk *)
Lemma cleanup_keeps_fresh now st s m :
  files_wf (base_dir st) →
  wf (_session_cache st) →
  metadata_file s st = Some (JsonFile m) →
  now - last_accessed m <= session_timeout st →
  metadata_file s (_cleanup_old_sessions now st) = Some (JsonFile m)
  ∧ payload_file s (_cleanup_old_sessions now st) = payload_file s st
  ∧ ∀ q ts, get s (_session_cache st) = Some (q, ts) →
            now - ts <= session_timeout st →
            get s (_session_cache (_cleanup_old_sessions now st)) = Some (q, ts).
Proof.
  intros Hwf Hkeys Hm Hfresh. unfold _cleanup_old_sessions.
  destruct (cleanup_cache_frame now st) as (Hfs & Hto & _).
  destruct (cleanup_disk_keeps_fresh now (glob_meta (base_dir (_cleanup_cache now st)))
              (_cleanup_cache now st) s m) as (Hm' & Hp' & Hc').
  - apply Forall_forall. intros f Hf. by apply glob_meta_spec in Hf as [? _].
  - by rewrite Hfs.
  - unfold metadata_file. by rewrite Hfs.
  - by rewrite Hto.
  - split; [done|]. split; [by rewrite Hp'; unfold payload_file; rewrite Hfs|].
    intros q ts Hget Hts. rewrite Hc'. clear Hm' Hp' Hc'.
    unfold _cleanup_cache.
    set (ks := map fst _).
    assert (Hs : s ∉ ks).
    { intros Hin. apply list_elem_of_In, in_map_iff in Hin as ([k [q' ts']] & Hk & Hin).
      simpl in Hk. subst k. apply List.filter_In in Hin as [Hin Hexp].
      apply (wf_In_get _ _ _ Hkeys) in Hin. rewrite Hget in Hin.
      injection Hin as <- <-. simpl in Hexp. apply Z.ltb_lt in Hexp. lia. }
    rewrite cleanup_cache_fold_other; done.
Qed.

(** X8.  In a directory written by this store only, one scan keeps every
    session whose durable [last_accessed] is within the timeout: its
    payload and metadata files are untouched, and its hot-cache entry
    stays too when the cached timestamp is within the timeout. *)
Theorem cleanup_keeps_fresh_session now st s m :
  files_wf (base_dir st) →
  wf (_session_cache st) →
  metadata_file s st = Some (JsonFile m) →
  now - last_accessed m <= session_timeout st →
  metadata_file s (_cleanup_old_sessions now st) = Some (JsonFile m)
  ∧ payload_file s (_cleanup_old_sessions now st) = payload_file s st
  ∧ ∀ q ts, get s (_session_cache st) = Some (q, ts) →
            now - ts <= session_timeout st →
            get s (_session_cache (_cleanup_old_sessions now st)) = Some (q, ts).
Proof. apply cleanup_keeps_fresh. Qed.

(** X9.  After a scan the hot cache holds no expired entry: every entry
    left has a timestamp within [session_timeout] of the time of the
    scan. *)
Theorem cleanup_leaves_no_expired_cache_entry now st k q ts :
  get k (_session_cache (_cleanup_old_sessions now st)) = Some (q, ts) →
  now - ts <= session_timeout st.
Proof.
  intros H. apply get_In in H. unfold _cleanup_old_sessions in H.
  apply cleanup_disk_In in H. by apply cleanup_cache_In in H as [_ H].
Qed.
End reaper_extras.


Section save_extras.
Import PyDict PyDictFacts.
Implicit Types (st : SessionStore) (s e c k : string) (p q : DocumentProcessor).

(** X10.  A hot cache that is within [_max_cache_size] stays within it
    under [save_session]: the insertion adds at most one key and the
    overflow check removes one. *)
Theorem save_session_keeps_cache_within_capacity st st' s p ip t1 t2 t3 :
  save_session s p ip t1 t2 t3 st = Ok st' →
  wf (_session_cache st) →
  len (_session_cache st) <= _max_cache_size st →
  wf (_session_cache st')
  ∧ len (_session_cache st') <= _max_cache_size st.
Proof.
  intros Hsave Hwf Hle.
  destruct (save_session_cache_bound _ _ _ _ _ _ _ _ Hsave Hwf Hle) as (? & ? & Hcap).
  split; [done|]. by rewrite <- Hcap.
Qed.

(** X11.  The session that a save without client id drops from the hot
    cache is the least recently used one, and it is the only one: its
    timestamp is below the one of the save and below the timestamp of
    every other cached session, and no second session is dropped. *)
Theorem save_session_evicts_least_recent st st' s p ip t1 t2 t3 k :
  truthy ip = None →
  save_session s p ip t1 t2 t3 st = Ok st' →
  k ≠ s →
  in_hot_cache k st = true →
  in_hot_cache k st' = false →
  cache_time (_session_cache st) k <= t1
  ∧ (∀ k', k' ≠ s → in_hot_cache k' st = true →
           cache_time (_session_cache st) k <= cache_time (_session_cache st) k')
  ∧ (∀ k', k' ≠ s → in_hot_cache k' st = true → in_hot_cache k' st' = false → k' = k).
Proof.
  intros Hip (st1 & Hreg & ->)%save_session_stages Hks Hin Hout.
  rewrite (register_ip_None s ip st Hip) in Hreg. injection Hreg as <-.
  set (st2 := with_cache (set s (p, t1) (_session_cache st)) st) in *.
  unfold in_hot_cache in *.
  destruct (write_session_frame s p ip t2 t3 (evict_lru st2)) as (Hc & _).
  rewrite Hc in Hout.
  assert (Hother : ∀ k', k' ≠ s →
            get k' (_session_cache st2) = get k' (_session_cache st)).
  { intros k' Hne. unfold st2. simpl. by rewrite get_set_ne. }
  apply contains_false in Hout.
  destruct (evict_lru_cache st2) as [Heq|(kk & _ & Hmin & _ & Heq)].
  { rewrite Heq, Hother in Hout by done. apply contains_true, keys_get in Hin.
    rewrite Hout in Hin. by destruct Hin. }
  assert (kk = k) as ->.
  { destruct (decide (kk = k)) as [|Hne]; [done|]. exfalso.
    rewrite Heq, get_del_ne, Hother in Hout by done.
    apply contains_true, keys_get in Hin. rewrite Hout in Hin. by destruct Hin. }
  apply py_min_spec in Hmin as [_ Hmin].
  assert (Hk : cache_time (_session_cache st2) k = cache_time (_session_cache st) k).
  { unfold cache_time. by rewrite Hother. }
  split; [|split].
  - rewrite <- Hk.
    assert (Hs : cache_time (_session_cache st2) s = t1).
    { unfold cache_time, st2. simpl. by rewrite get_set_eq. }
    rewrite <- Hs. apply Hmin. apply contains_true. unfold st2. simpl.
    apply contains_set.
  - intros k' Hne Hin'. rewrite <- Hk.
    assert (Hk' : cache_time (_session_cache st2) k'
                  = cache_time (_session_cache st) k').
    { unfold cache_time. by rewrite Hother. }
    rewrite <- Hk'. apply Hmin. apply contains_true. unfold contains.
    rewrite Hother by done. apply contains_true, keys_get in Hin'.
    by destruct Hin' as [? ->].
  - intros k' Hne Hin' Hout'. rewrite Hc in Hout'. apply contains_false in Hout'.
    destruct (decide (k' = k)) as [|Hnk]; [done|]. exfalso.
    rewrite Heq, get_del_ne, Hother in Hout' by done.
    apply contains_true, keys_get in Hin'. rewrite Hout' in Hin'. by destruct Hin'.
Qed.

(** X12.  What a save may touch besides its own session, all ids being
    file names: the durable records of a session [e] other than the saved
    one and other than the oldest session of a full client list (which
    the save deletes) are unchanged, and so is the quota list of every
    client other than the one of the call. *)
Theorem save_session_frame st st' s p ip t1 t2 t3 e c :
  save_session s p ip t1 t2 t3 st = Ok st' →
  plain_id s = true →
  plain_id e = true →
  (∀ v, quota_victim ip st = Some v → plain_id v = true) →
  e ≠ s →
  quota_victim ip st ≠ Some e →
  truthy ip ≠ Some c →
  payload_file e st' = payload_file e st
  ∧ metadata_file e st' = metadata_file e st
  ∧ get_sessions_for_ip c st' = get_sessions_for_ip c st.
Proof.
  intros Hsave _ _ _ He Hvict Hc.
  destruct (save_session_other_files _ _ _ _ _ _ _ _ _ Hsave He Hvict) as [? ?].
  split; [done|]. split; [done|].
  pose proof Hsave as (st1 & Hreg & _)%save_session_stages.
  destruct (save_session_ip_sessions _ _ _ _ _ _ _ _ _ Hsave Hreg) as (Hips & _).
  unfold get_sessions_for_ip. rewrite Hips.
  by apply (register_ip_other_client s ip c st st1).
Qed.

Lemma files_wf_insert_pickle fs s p :
  files_wf fs → files_wf (<[_get_session_path s := PickleFile p]> fs).
Proof.
  intros Hwf name m Hend Hf. apply lookup_insert_Some in Hf as [[_ ?]|[_ Hf]]; [done|].
  by apply Hwf.
Qed.

Lemma files_wf_insert_meta fs s m :
  meta_session_id m = s →
  files_wf fs → files_wf (<[_get_metadata_path s := JsonFile m]> fs).
Proof.
  intros Hid Hwf name m' Hend Hf.
  apply lookup_insert_Some in Hf as [[<- [= <-]]|[_ Hf]]; [by rewrite Hid|].
  by apply Hwf.
Qed.

Lemma save_session_files_wf s p ip t1 t2 t3 st st' :
  save_session s p ip t1 t2 t3 st = Ok st' →
  files_wf (base_dir st) → files_wf (base_dir st').
Proof.
  intros (st1 & Hreg & ->)%save_session_stages Hwf.
  unfold write_session. cbn [base_dir with_files].
  apply files_wf_insert_meta; [done|]. apply files_wf_insert_pickle.
  destruct (evict_lru_frame
    (with_cache (set s (p, t1) (_session_cache st1)) st1)) as (-> & _).
  cbn [base_dir with_cache].
  destruct (register_ip_cases _ _ _ _ Hreg) as (m & [(_ & ->)|(o & _ & ->)]); [done|].
  cbn [base_dir with_ip_sessions]. by apply files_wf_delete.
Qed.

Lemma load_session_files_wf s t t' st :
  files_wf (base_dir st) → files_wf (base_dir (load_session s t t' st).2).
Proof.
  intros Hwf name m Hend Hf.
  destruct (load_session_files st s t t' name)
    as [Heq|(-> & m0 & Hm0 & Hnew)].
  - rewrite Heq in Hf. by apply Hwf.
  - rewrite Hnew in Hf. injection Hf as <-. simpl. by apply Hwf.
Qed.

Lemma cleanup_files_wf now st :
  files_wf (base_dir st) → files_wf (base_dir (_cleanup_old_sessions now st)).
Proof.
  intros Hwf. unfold _cleanup_old_sessions.
  assert (Hc : files_wf (base_dir (_cleanup_cache now st))).
  { by destruct (cleanup_cache_frame now st) as (-> & _). }
  revert Hc. generalize (_cleanup_cache now st) as st1.
  unfold _cleanup_disk. intros st1.
  generalize (glob_meta (base_dir st1)) as files. intros files. revert st1.
  induction files as [|f files IH]; intros st1 H1; [done|].
  simpl. apply IH. unfold _cleanup_meta_file.
  destruct (base_dir st1 !! f) as [[q|m]|]; [done| |done].
  destruct (session_timeout st1 <? _); [|done].
  by apply files_wf_delete.
Qed.

(** X13.  Whatever sequence of saves, loads, deletions and scans a store
    goes through after its construction on a well-formed directory with
    a non-negative quota, the keys of its hot cache are unique, no
    client list is longer than [max_sessions_per_ip], and every metadata
    file is the one of the session it names. *)
Theorem reachable_store_invariant ops files max_sessions session_timeout_hours :
  0 <= max_sessions →
  files_wf files →
  let st := run ops (__init__ files max_sessions session_timeout_hours) in
  wf (_session_cache st)
  ∧ (∀ c, Z.of_nat (length (get_sessions_for_ip c st)) <= max_sessions)
  ∧ files_wf (base_dir st).
Proof.
  intros Hmax Hwf. simpl.
  destruct (run_invariant ops files max_sessions session_timeout_hours Hmax)
    as [Hkeys Hq].
  split; [done|].
  assert (Hgen : ∀ st0,
    files_wf (base_dir st0) →
    files_wf (base_dir (run ops st0))
    ∧ max_sessions_per_ip (run ops st0) = max_sessions_per_ip st0).
  { clear. unfold run. induction ops as [|op ops IH]; intros st0 H0; [done|].
    simpl.
    assert (Hstep : files_wf (base_dir (step st0 op))
                    ∧ max_sessions_per_ip (step st0 op) = max_sessions_per_ip st0).
    { destruct op as [s p ip t1 t2 t3|s t t'|s|now]; simpl.
      - destruct (save_session s p ip t1 t2 t3 st0) as [st'|x] eqn:Hs; [|done].
        split; [by eapply save_session_files_wf|].
        pose proof Hs as (st1 & Hreg & _)%save_session_stages.
        destruct (save_session_ip_sessions _ _ _ _ _ _ _ _ _ Hs Hreg) as (_ & -> & _).
        by destruct (register_ip_cases _ _ _ _ Hreg) as (m & [(_ & ->)|(o & _ & ->)]).
      - split; [by apply load_session_files_wf|].
        unfold load_session.
        destruct (get s (_session_cache st0)) as [[q ts]|]; [done|].
        destruct (base_dir st0 !! _get_session_path s) as [[q|m]|]; [|done|done].
        destruct (index q); [|done]. cbn [base_dir with_cache].
        by destruct (base_dir st0 !! _get_metadata_path s) as [[q'|m]|].
      - split; [by apply files_wf_delete | done].
      - split; [by apply cleanup_files_wf|].
        unfold _cleanup_old_sessions.
        assert (Hd : ∀ fl st1, max_sessions_per_ip (_cleanup_disk now fl st1)
                               = max_sessions_per_ip st1).
        { clear. unfold _cleanup_disk. induction fl as [|f fl IH]; intros st1; [done|].
          simpl. rewrite IH. unfold _cleanup_meta_file.
          destruct (base_dir st1 !! f) as [[q|m]|]; [done| |done].
          by destruct (session_timeout st1 <? _). }
        rewrite Hd. unfold _cleanup_cache.
        generalize (map fst (List.filter
                               (λ x : string * (DocumentProcessor * Z),
                                  session_timeout st0 <? now - x.2.2)
                               (_session_cache st0))).
        clear. intros ks. revert st0. induction ks as [|k ks IH]; intros st0; [done|].
        simpl. rewrite IH. by destruct (contains k (_session_cache st0)). }
    destruct Hstep as [Hs1 Hs2]. destruct (IH _ Hs1) as [? ->]. done. }
  destruct (Hgen (__init__ files max_sessions session_timeout_hours) Hwf) as [Hf Hm].
  split; [|done]. intros c. specialize (Hq c). by rewrite Hm in Hq.
Qed.
End save_extras.


Lemma delete_session_leaves_other_sessions_witness :
  PyDict.get "s1" (_session_cache (delete_session "zz" store_saved_at_0).2)
  = PyDict.get "s1" (_session_cache store_saved_at_0)
  ∧ payload_file "s1" (delete_session "zz" store_saved_at_0).2
    = payload_file "s1" store_saved_at_0
  ∧ metadata_file "s1" (delete_session "zz" store_saved_at_0).2
    = metadata_file "s1" store_saved_at_0
  ∧ ip_sessions (delete_session "zz" store_saved_at_0).2 = ip_sessions store_saved_at_0.
Proof.
  apply (delete_session_leaves_other_sessions store_saved_at_0 "zz" "s1");
    [reflexivity | reflexivity | discriminate].
Defined.


Lemma save_session_zero_quota_raises_witness :
  save_session "s1" a_processor (Some "10.0.0.1"%string) 0 0 0 store_quota_0
  = Raise IndexError.
Proof.
  apply (save_session_zero_quota_raises store_quota_0 "s1" a_processor "10.0.0.1" 0 0 0).
  - discriminate.
  - simpl. lia.
  - reflexivity.
Defined.



Lemma store_saved_at_0_files_wf : files_wf (base_dir store_saved_at_0).
Proof.
  apply (save_session_files_wf "s1" a_processor None 0 0 0 default_store).
  - vm_compute. reflexivity.
  - intros name m _ H.
    change (base_dir default_store) with (∅ : gmap string File) in H.
    rewrite lookup_empty in H. discriminate H.
Defined.

Lemma cleanup_keeps_fresh_session_witness :
  metadata_file "s1" (_cleanup_old_sessions (hours 24) store_saved_at_0)
  = Some (JsonFile s1_metadata)
  ∧ payload_file "s1" (_cleanup_old_sessions (hours 24) store_saved_at_0)
    = payload_file "s1" store_saved_at_0
  ∧ ∀ q ts, PyDict.get "s1" (_session_cache store_saved_at_0) = Some (q, ts) →
            hours 24 - ts <= session_timeout store_saved_at_0 →
            PyDict.get "s1"
              (_session_cache (_cleanup_old_sessions (hours 24) store_saved_at_0))
            = Some (q, ts).
Proof.
  apply (cleanup_keeps_fresh_session (hours 24) store_saved_at_0 "s1" s1_metadata).
  - exact store_saved_at_0_files_wf.
  - apply (bool_decide_unpack _). vm_compute. exact I.
  - vm_compute. reflexivity.
  - vm_compute. discriminate.
Defined.

Lemma cleanup_leaves_no_expired_cache_entry_witness :
  hours 1 - 0 <= session_timeout store_saved_at_0.
Proof.
  apply (cleanup_leaves_no_expired_cache_entry (hours 1) store_saved_at_0
           "s1" a_processor 0).
  vm_compute. reflexivity.
Defined.

Lemma save_session_keeps_cache_within_capacity_witness :
  PyDict.wf (_session_cache store_cache_2_ABC)
  ∧ PyDict.len (_session_cache store_cache_2_ABC) <= _max_cache_size store_cache_2_AB.
Proof.
  apply (save_session_keeps_cache_within_capacity store_cache_2_AB store_cache_2_ABC
           "C" a_processor None 3 3 3).
  - vm_compute. reflexivity.
  - apply (bool_decide_unpack _). vm_compute. exact I.
  - vm_compute. discriminate.
Defined.

Lemma save_session_evicts_least_recent_witness :
  cache_time (_session_cache store_cache_2_AB) "A" <= 3
  ∧ (∀ k', k' ≠ "C"%string → in_hot_cache k' store_cache_2_AB = true →
           cache_time (_session_cache store_cache_2_AB) "A"
           <= cache_time (_session_cache store_cache_2_AB) k')
  ∧ (∀ k', k' ≠ "C"%string → in_hot_cache k' store_cache_2_AB = true →
           in_hot_cache k' store_cache_2_ABC = false → k' = "A"%string).
Proof.
  apply (save_session_evicts_least_recent store_cache_2_AB store_cache_2_ABC
           "C" a_processor None 3 3 3 "A").
  - reflexivity.
  - vm_compute. reflexivity.
  - discriminate.
  - vm_compute. reflexivity.
  - vm_compute. reflexivity.
Defined.

Lemma save_session_frame_witness :
  payload_file "s1" store_quota_2_s1_s2 = payload_file "s1" store_quota_2_s1
  ∧ metadata_file "s1" store_quota_2_s1_s2 = metadata_file "s1" store_quota_2_s1
  ∧ get_sessions_for_ip "10.0.0.2" store_quota_2_s1_s2
    = get_sessions_for_ip "10.0.0.2" store_quota_2_s1.
Proof.
  apply (save_session_frame store_quota_2_s1 store_quota_2_s1_s2 "s2" a_processor
           (Some "10.0.0.1"%string) 2 2 2 "s1" "10.0.0.2").
  - vm_compute. reflexivity.
  - reflexivity.
  - reflexivity.
  - intros v Hv. vm_compute in Hv. discriminate Hv.
  - discriminate.
  - vm_compute. discriminate.
  - vm_compute. discriminate.
Defined.

Lemma reachable_store_invariant_witness :
  PyDict.wf (_session_cache (run some_operations (__init__ ∅ 5 24)))
  ∧ (∀ c, Z.of_nat (length (get_sessions_for_ip c
                              (run some_operations (__init__ ∅ 5 24)))) <= 5)
  ∧ files_wf (base_dir (run some_operations (__init__ ∅ 5 24))).
Proof.
  apply (reachable_store_invariant some_operations ∅ 5 24).
  - discriminate.
  - intros name m _ H. rewrite lookup_empty in H. discriminate H.
Defined.


(** ** [os.path.splitext] and the file-type tests *)

Section splitext_facts.
Implicit Types (l p pre name ext : list ascii) (c : ascii).

Lemma rfind_bounds c l : (-1) <= rfind c l ∧ rfind c l < Z.of_nat (length l).
Proof.
  induction l as [|a l IH]; simpl; [lia|].
  destruct (0 <=? rfind c l) eqn:E; [lia|].
  destruct (Ascii.eqb a c); lia.
Qed.

Lemma rfind_notin c l : c ∉ l → rfind c l = -1.
Proof.
  induction l as [|a l IH]; simpl; [done|].
  intros [Hne Hnin]%not_elem_of_cons. rewrite IH by done. simpl.
  destruct (Ascii.eqb_spec a c); [congruence | done].
Qed.

(** the last occurrence: [c] is at index [rfind c l] and nowhere after *)
Lemma rfind_split c l :
  0 <= rfind c l →
  ∃ pre post, l = pre ++ c :: post ∧ (c ∉ post)
    ∧ rfind c l = Z.of_nat (length pre).
Proof.
  induction l as [|a l IH]; simpl; [lia|].
  destruct (0 <=? rfind c l) eqn:E.
  - intros _. apply Z.leb_le in E. destruct (IH E) as (pre & post & -> & Hnin & Hr).
    exists (a :: pre), post. split; [done|]. split; [done|].
    rewrite Hr. simpl length. lia.
  - apply Z.leb_gt in E. destruct (Ascii.eqb_spec a c) as [->|Hne]; [|lia].
    intros _. exists [], l. split; [done|]. split; [|done].
    intros Hin. clear IH.
    enough (Hge : 0 <= rfind c l) by lia.
    clear E. induction l as [|b l IH]; [by apply elem_of_nil in Hin|].
    simpl. destruct (0 <=? rfind c l) eqn:E; [apply Z.leb_le in E; lia|].
    apply elem_of_cons in Hin as [->|Hin].
    + by rewrite Ascii.eqb_refl.
    + apply Z.leb_gt in E. specialize (IH Hin). lia.
Qed.

Lemma rfind_app_notin c l l' : c ∉ l' → rfind c (l ++ l') = rfind c l.
Proof.
  intros Hnin. induction l as [|a l IH]; simpl; [by apply rfind_notin|].
  by rewrite IH.
Qed.

Lemma rfind_app_last c l post :
  c ∉ post → rfind c (l ++ c :: post) = Z.of_nat (length l).
Proof.
  intros Hnin. induction l as [|a l IH]; simpl.
  - rewrite rfind_notin by done. simpl. by rewrite Ascii.eqb_refl.
  - rewrite IH. replace (0 <=? Z.of_nat (length l)) with true
      by (symmetry; apply Z.leb_le; lia). lia.
Qed.

Lemma splitext_chars_app p : (splitext_chars p).1 ++ (splitext_chars p).2 = p.
Proof.
  unfold splitext_chars. destruct (_ <? _); [|by rewrite app_nil_r].
  destruct (existsb _ _); [apply take_drop | by rewrite app_nil_r].
Qed.

Lemma splitext_chars_ext p :
  (splitext_chars p).2 = []
  ∨ ∃ e, (splitext_chars p).2 = "."%char :: e ∧ ("."%char ∉ e) ∧ ("/"%char ∉ e).
Proof.
  unfold splitext_chars.
  destruct (Z.ltb_spec (rfind "/" p) (rfind "." p)) as [Hlt|]; [|by left].
  destruct (existsb _ _); [|by left]. right.
  pose proof (rfind_bounds "/" p) as Hs.
  destruct (rfind_split "." p) as (pre & post & Hp & Hnin & Hr); [lia|].
  exists post. cbn [snd]. rewrite Hr, Nat2Z.id.
  split; [|split; [done|]].
  - rewrite Hp at 1. rewrite drop_app_length. done.
  - intros Hin. rewrite Hr in Hlt. rewrite Hp in Hlt.
    apply list_elem_of_split_r in Hin as (q1 & q2 & -> & Hq).
    replace (pre ++ "."%char :: q1 ++ "/"%char :: q2)
      with ((pre ++ "."%char :: q1) ++ "/"%char :: q2) in Hlt
      by (by rewrite <- !app_assoc).
    rewrite rfind_app_last in Hlt by done.
    rewrite length_app in Hlt. lia.
Qed.
End splitext_facts.


Section splitext_paths.
Implicit Types (l p pre name dots e : list ascii) (c : ascii).

Lemma rfind_sep_dir_prefix pre rest :
  dir_prefix pre → "/"%char ∉ rest →
  rfind "/" (pre ++ rest) = Z.of_nat (length pre) - 1.
Proof.
  intros [->|[pre0 ->]] Hnin.
  - simpl. by apply rfind_notin.
  - rewrite <- app_assoc. simpl. rewrite rfind_app_last by done.
    rewrite length_app. simpl. lia.
Qed.

Lemma rfind_dot_dir_prefix pre :
  dir_prefix pre → rfind "." pre < Z.of_nat (length pre) - 1 ∨ pre = [].
Proof.
  intros [->|[pre0 ->]]; [by right|]. left.
  rewrite rfind_app_notin.
  - pose proof (rfind_bounds "." pre0). rewrite length_app. simpl. lia.
  - intros [=]%list_elem_of_singleton.
Qed.

Lemma existsb_all_dots dots :
  all_dots dots → existsb (λ a, negb (Ascii.eqb a ".")) dots = false.
Proof.
  induction 1 as [|a dots -> _ IH]; [done|]. simpl. exact IH.
Qed.

Lemma all_dots_no_sep dots : all_dots dots → "/"%char ∉ dots.
Proof.
  intros H Hin. unfold all_dots in H. rewrite Forall_forall in H.
  by specialize (H _ Hin).
Qed.

(** no extension: the last component has no dot, or only leading dots *)
Lemma splitext_chars_no_ext pre dots name :
  dir_prefix pre → all_dots dots → "."%char ∉ name → "/"%char ∉ name →
  splitext_chars (pre ++ dots ++ name) = (pre ++ dots ++ name, []).
Proof.
  intros Hpre Hdots Hdot Hsep. unfold splitext_chars.
  assert (Hs : rfind "/" (pre ++ dots ++ name) = Z.of_nat (length pre) - 1).
  { apply rfind_sep_dir_prefix; [done|]. apply not_elem_of_app.
    split; [by apply all_dots_no_sep | done]. }
  rewrite Hs.
  destruct dots as [|d dots _] using rev_ind.
  - simpl. rewrite rfind_app_notin by done.
    destruct (rfind_dot_dir_prefix pre Hpre) as [Hlt | ->].
    + replace (_ <? _) with false by (symmetry; apply Z.ltb_ge; lia). done.
    + done.
  - apply Forall_app in Hdots as [Hdots Hd]. apply List.Forall_inv in Hd. simpl in Hd. subst d.
    assert (Hd : rfind "." (pre ++ (dots ++ ["."%char]) ++ name)
                 = Z.of_nat (length pre + length dots)).
    { replace (pre ++ (dots ++ ["."%char]) ++ name)
        with ((pre ++ dots) ++ "."%char :: name)
        by (by rewrite <- !app_assoc).
      rewrite rfind_app_last by done. by rewrite length_app. }
    rewrite Hd. replace (_ <? _) with true by (symmetry; apply Z.ltb_lt; lia).
    replace (Z.to_nat (Z.of_nat (length pre) - 1 + 1)) with (length pre) by lia.
    replace (Z.to_nat (Z.of_nat (length pre + length dots)
                       - (Z.of_nat (length pre) - 1 + 1))) with (length dots) by lia.
    rewrite drop_app_length, <- app_assoc, take_app_length.
    by rewrite existsb_all_dots.
Qed.

(** an extension after a proper stem is split off, whatever the directory *)
Lemma splitext_chars_with_ext pre name e :
  dir_prefix pre → "/"%char ∉ name → (∃ a, a ∈ name ∧ a ≠ "."%char) →
  "."%char ∉ e → "/"%char ∉ e →
  splitext_chars (pre ++ name ++ "."%char :: e) = (pre ++ name, "."%char :: e).
Proof.
  intros Hpre Hsep (a & Ha & Hne) Hdot Hsep'. unfold splitext_chars.
  assert (Hs : rfind "/" (pre ++ name ++ "."%char :: e) = Z.of_nat (length pre) - 1).
  { apply rfind_sep_dir_prefix; [done|]. apply not_elem_of_app. split; [done|].
    apply not_elem_of_cons. done. }
  assert (Hd : rfind "." (pre ++ name ++ "."%char :: e)
               = Z.of_nat (length pre + length name)).
  { rewrite app_assoc, rfind_app_last by done. by rewrite length_app. }
  rewrite Hs, Hd. replace (_ <? _) with true by (symmetry; apply Z.ltb_lt; lia).
  replace (Z.to_nat (Z.of_nat (length pre) - 1 + 1)) with (length pre) by lia.
  replace (Z.to_nat (Z.of_nat (length pre + length name)
                     - (Z.of_nat (length pre) - 1 + 1))) with (length name) by lia.
  rewrite drop_app_length, take_app_length.
  replace (existsb _ name) with true.
  - rewrite Nat2Z.id, app_assoc, <- length_app.
    by rewrite take_app_length, drop_app_length.
  - symmetry. apply existsb_exists. exists a. split; [by apply list_elem_of_In|].
    apply negb_true_iff. by destruct (Ascii.eqb_spec a ".").
Qed.
End splitext_paths.

Lemma string_of_list_ascii_app (a b : list ascii) :
  string_of_list_ascii (a ++ b)
  = String.append (string_of_list_ascii a) (string_of_list_ascii b).
Proof. induction a as [|x a IH]; simpl; [done|]. by rewrite IH. Qed.

Lemma splitext_with_extension (pre name ext : string) :
  directory pre → stem name → extension ext →
  splitext (String.append pre (String.append name ext))
  = (String.append pre name, ext).
Proof.
  intros Hpre [Hsep Hnd] (e & He & Hdot & Hsep'). unfold splitext.
  rewrite !list_ascii_of_append, He.
  rewrite splitext_chars_with_ext by done. cbn [fst snd].
  rewrite <- He, <- list_ascii_of_append.
  by rewrite !string_of_list_ascii_of_string.
Qed.

Lemma in_set_code_supported (x : string) :
  in_set x code_extensions = true →
  in_set x supported_extensions = true ∧ in_set x app_code_extensions = true.
Proof.
  unfold in_set, code_extensions. simpl existsb at 1.
  rewrite !orb_true_iff, !String.eqb_eq.
  intros H. repeat (destruct H as [->|H]; [by vm_compute|]). done.
Qed.

(** X14.  [os.path.splitext] as the file-type tests use it: root and
    extension concatenate to the path, and the extension is empty or is a
    dot followed by characters that are neither a dot nor the separator
    (so it lies within the last component of the path). *)
Theorem splitext_splits_path (p : string) :
  String.append (splitext p).1 (splitext p).2 = p
  ∧ ((splitext p).2 = ""%string ∨ extension (splitext p).2).
Proof.
  unfold splitext. cbn [fst snd]. split.
  - rewrite <- string_of_list_ascii_app, splitext_chars_app.
    apply string_of_list_ascii_of_string.
  - destruct (splitext_chars_ext (list_ascii_of_string p)) as [->|(e & -> & ? & ?)].
    + by left.
    + right. exists e. by rewrite list_ascii_of_string_of_list_ascii.
Qed.

(** X15.  Every file that [DocumentProcessor.is_code_file] takes for
    code is a supported file, and [is_code_file] of [app.py] takes it for
    code too: the code extensions are among the supported ones. *)
Theorem code_files_are_supported (filename : string) :
  is_code_file filename = true →
  is_supported_file filename = true ∧ app_is_code_file filename = true.
Proof. apply in_set_code_supported. Qed.

(** X16.  A path whose last component has no dot, or dots only at its
    start (a name such as [README] or [.gitignore]), has no extension and
    is neither a supported file nor a code file. *)
Theorem no_extension_not_supported (pre dots name : string) :
  directory pre →
  all_dots (list_ascii_of_string dots) →
  "."%char ∉ list_ascii_of_string name →
  "/"%char ∉ list_ascii_of_string name →
  let path := String.append pre (String.append dots name) in
  splitext path = (path, ""%string)
  ∧ is_supported_file path = false
  ∧ is_code_file path = false.
Proof.
  intros Hpre Hdots Hdot Hsep path.
  assert (Hs : splitext path = (path, ""%string)).
  { unfold splitext, path. rewrite !list_ascii_of_append.
    rewrite splitext_chars_no_ext by done. cbn [fst snd].
    rewrite <- !list_ascii_of_append.
    by rewrite string_of_list_ascii_of_string. }
  split; [done|]. unfold is_supported_file, is_code_file. rewrite Hs. done.
Qed.

(** X17.  The file-type tests look at the lowercased extension only:
    two paths with proper stems whose extensions agree up to letter case
    get the same answers, whatever their directories and stems. *)
Theorem file_type_depends_on_extension_only (pre1 name1 ext1 pre2 name2 ext2 : string) :
  directory pre1 → stem name1 → extension ext1 →
  directory pre2 → stem name2 → extension ext2 →
  lower ext1 = lower ext2 →
  is_supported_file (String.append pre1 (String.append name1 ext1))
  = is_supported_file (String.append pre2 (String.append name2 ext2))
  ∧ is_code_file (String.append pre1 (String.append name1 ext1))
    = is_code_file (String.append pre2 (String.append name2 ext2)).
Proof.
  intros Hp1 Hn1 He1 Hp2 Hn2 He2 Hl. unfold is_supported_file, is_code_file.
  rewrite !splitext_with_extension by done. cbn [snd]. by rewrite Hl.
Qed.


Lemma code_files_are_supported_witness :
  is_supported_file "src/Main.PY" = true ∧ app_is_code_file "src/Main.PY" = true.
Proof.
  apply (code_files_are_supported "src/Main.PY"). vm_compute. reflexivity.
Defined.

Lemma no_extension_not_supported_witness :
  splitext "/home/u/.gitignore" = ("/home/u/.gitignore"%string, ""%string)
  ∧ is_supported_file "/home/u/.gitignore" = false
  ∧ is_code_file "/home/u/.gitignore" = false.
Proof.
  apply (no_extension_not_supported "/home/u/" "." "gitignore").
  - right. exists (list_ascii_of_string "/home/u"). reflexivity.
  - repeat constructor.
  - apply (bool_decide_unpack _). vm_compute. exact I.
  - apply (bool_decide_unpack _). vm_compute. exact I.
Defined.

Lemma file_type_depends_on_extension_only_witness :
  is_supported_file "/tmp/x/Report.PDF" = is_supported_file "a.pdf"
  ∧ is_code_file "/tmp/x/Report.PDF" = is_code_file "a.pdf".
Proof.
  apply (file_type_depends_on_extension_only "/tmp/x/" "Report" ".PDF" "" "a" ".pdf").
  - right. exists (list_ascii_of_string "/tmp/x"). reflexivity.
  - split; [apply (bool_decide_unpack _); vm_compute; exact I|].
    exists "R"%char. split; [apply list_elem_of_here | discriminate].
  - exists (list_ascii_of_string "PDF").
    split; [reflexivity|].
    split; apply (bool_decide_unpack _); vm_compute; exact I.
  - left. reflexivity.
  - split; [apply (bool_decide_unpack _); vm_compute; exact I|].
    exists "a"%char. split; [apply list_elem_of_here | discriminate].
  - exists (list_ascii_of_string "pdf").
    split; [reflexivity|].
    split; apply (bool_decide_unpack _); vm_compute; exact I.
  - vm_compute. reflexivity.
Defined.

(** ** [process_file] and the upload flow *)

(** X18.  [process_file] returns a session id only for a supported file
    that exists, has 100 bytes or more and yields one document at least,
    and then the processor holds the index built from the (tagged)
    documents, its response cache is untouched, and the id is the fresh
    UUID. *)
Theorem process_file_success (file_path : string) (env : ProcessEnv)
    (self self' : DocumentProcessor) (session_id : string) :
  process_file file_path env self = (Ok session_id, self') →
  is_supported_file file_path = true
  ∧ env_exists env = true
  ∧ 100 <= env_getsize env
  ∧ (∃ documents, env_load_data env = Some documents ∧ documents ≠ []
       ∧ env_from_documents env (map (tag_document file_path env) documents)
         = Some (index self'))
  ∧ index self' ≠ None
  ∧ _response_cache self' = _response_cache self
  ∧ _cache_size self' = _cache_size self
  ∧ session_id = env_uuid4 env.
Proof.
  unfold process_file.
  destruct (is_supported_file file_path); [|done].
  destruct (env_exists env); [|done].
  destruct (Z.ltb_spec (env_getsize env) 100) as [|Hsize]; [done|]. simpl.
  destruct (env_load_data env) as [[|d documents]|]; [done| |done].
  destruct (env_from_documents env _) as [[idx|]|] eqn:Hidx; [|done|done].
  intros [= <- <-]. split_and!; try done.
  exists (d :: documents). done.
Qed.

Lemma process_file_success_witness :
  is_supported_file "/tmp/up/notes.py" = true
  ∧ env_exists good_env = true
  ∧ 100 <= env_getsize good_env
  ∧ (∃ documents, env_load_data good_env = Some documents ∧ documents ≠ []
       ∧ env_from_documents good_env
           (map (tag_document "/tmp/up/notes.py" good_env) documents)
         = Some (index processed))
  ∧ index processed ≠ None
  ∧ _response_cache processed = _response_cache new_processor
  ∧ _cache_size processed = _cache_size new_processor
  ∧ "3f2b8c1e-uuid"%string = env_uuid4 good_env.
Proof.
  apply (process_file_success "/tmp/up/notes.py" good_env new_processor processed
           "3f2b8c1e-uuid").
  vm_compute. reflexivity.
Defined.



(** ** [URLProcessor]: file names for downloads *)

Section download_facts.

Lemma basename_no_sep (p : string) : "/"%char ∉ list_ascii_of_string (basename p).
Proof.
  unfold basename. rewrite list_ascii_of_string_of_list_ascii.
  set (l := list_ascii_of_string p).
  destruct (Z.leb_spec 0 (rfind "/" l)) as [Hge|Hlt].
  - destruct (rfind_split "/" l Hge) as (pre & post & Hl & Hnin & Hr).
    rewrite Hr. replace (Z.to_nat (Z.of_nat (length pre) + 1)) with (S (length pre)) by lia.
    rewrite Hl. replace (pre ++ "/"%char :: post) with ((pre ++ ["/"%char]) ++ post)
      by (by rewrite <- app_assoc).
    replace (S (length pre)) with (length (pre ++ ["/"%char]))
      by (rewrite length_app; simpl; lia).
    by rewrite drop_app_length.
  - pose proof (rfind_bounds "/" l) as [Hb _].
    assert (Hr : rfind "/" l = -1) by lia. rewrite Hr. simpl. rewrite drop_0.
    intros Hin. destruct (list_elem_of_split_r _ _ Hin) as (q1 & q2 & Hl & Hq).
    rewrite Hl, rfind_app_last in Hr by done. lia.
Qed.

Lemma choose_extension_in (r : HttpResponse) :
  In (choose_extension r) download_extensions.
Proof.
  unfold choose_extension, download_extensions.
  destruct (starts_with _ _); [by left|]. right.
  destruct (PyDict.get _ supported_content_types) as [v|] eqn:Hg; [|by left].
  right. apply get_In in Hg. by apply (in_map snd) in Hg.
Qed.

Lemma extension_ok_spec (ext : string) :
  extension_ok ext = true →
  extension ext ∧ in_set (lower ext) supported_extensions = true.
Proof.
  unfold extension_ok, extension.
  destruct (list_ascii_of_string ext) as [|a e]; [done|].
  rewrite !andb_true_iff, negb_true_iff. intros [[Ha He] Hs].
  apply Ascii.eqb_eq in Ha. subst a. split; [|done].
  exists e. split; [done|].
  assert (Hall : ∀ b, b ∈ e → (Ascii.eqb b "." || Ascii.eqb b "/") = false).
  { intros b Hb. destruct (_ || _) eqn:E; [|done].
    assert (existsb (λ b, Ascii.eqb b "." || Ascii.eqb b "/") e = true); [|congruence].
    apply existsb_exists. exists b. split; [by apply list_elem_of_In | done]. }
  split; intros Hin; specialize (Hall _ Hin); by vm_compute in Hall.
Qed.

Lemma download_extensions_ok (ext : string) :
  In ext download_extensions →
  extension ext ∧ in_set (lower ext) supported_extensions = true.
Proof.
  intros Hin. apply extension_ok_spec.
  assert (Hall : forallb extension_ok download_extensions = true)
    by (vm_compute; reflexivity).
  rewrite forallb_forall in Hall. by apply Hall.
Qed.

Lemma ends_with_sep (a : string) :
  ends_with "/" a = true → directory a.
Proof.
  unfold ends_with, directory. intros He. right.
  change (rev (list_ascii_of_string "/")) with ["/"%char] in He.
  destruct (rev (list_ascii_of_string a)) as [|y r] eqn:Er; [done|].
  cbn [starts_with] in He. rewrite andb_true_r in He.
  apply Ascii.eqb_eq in He. subst y.
  exists (rev r). apply (f_equal (@rev ascii)) in Er.
  rewrite rev_involutive in Er. by rewrite Er.
Qed.

Lemma starts_with_sep_notin (l : list ascii) :
  "/"%char ∉ l → starts_with ["/"%char] l = false.
Proof.
  destruct l as [|x l]; [done|]. intros [Hne _]%not_elem_of_cons.
  cbn [starts_with]. destruct (Ascii.eqb_spec "/" x); [congruence | done].
Qed.

Lemma append_assoc (a b c : string) :
  String.append (String.append a b) c = String.append a (String.append b c).
Proof.
  induction a as [|x a IH]; [done|].
  change (String x (String.append (String.append a b) c)
          = String x (String.append a (String.append b c))).
  by f_equal.
Qed.

Lemma path_join_prefix (a b : string) :
  "/"%char ∉ list_ascii_of_string b →
  ∃ pre, directory pre ∧ path_join a b = String.append pre b.
Proof.
  intros Hb. unfold path_join. rewrite starts_with_sep_notin by done.
  destruct (String.eqb_spec a "") as [->|Hne].
  - exists ""%string. split; [by left | done].
  - cbn [orb]. destruct (ends_with "/" a) eqn:Ee.
    + exists a. split; [by apply ends_with_sep | done].
    + exists (String.append a "/"). split.
      * right. exists (list_ascii_of_string a). by rewrite list_ascii_of_append.
      * symmetry. apply append_assoc.
Qed.
End download_facts.


(** X20.  A download whose URL path ends in a name without extension
    (an empty name, or one with a character other than a dot) is stored
    under that name, or [document], followed by the extension chosen from
    the content; the file name and the path in the temporary directory
    both pass [is_supported_file], so [process_file] does not reject the
    download for its type. *)
Theorem downloaded_file_is_supported (url_path : string)
    (response : option HttpResponse) (temp_dir file_path filename : string) :
  download_file url_path response temp_dir = Ok (file_path, filename) →
  (splitext (basename url_path)).2 = ""%string →
  basename url_path = ""%string
  ∨ (∃ a, a ∈ list_ascii_of_string (basename url_path) ∧ a ≠ "."%char) →
  (∃ r, response = Some r
        ∧ 100 <= Z.of_nat (length (resp_content r))
        ∧ filename
          = String.append
              (if String.eqb (basename url_path) "" then "document"%string
               else basename url_path)
              (choose_extension r))
  ∧ file_path = path_join temp_dir filename
  ∧ is_supported_file filename = true
  ∧ is_supported_file file_path = true.
Proof.
  unfold download_file. intros Hd Hext Hbase.
  destruct response as [r|]; [|done].
  destruct (resp_ok r); [|done]. simpl in Hd.
  destruct (Z.ltb_spec (Z.of_nat (length (resp_content r))) 100) as [|Hlen]; [done|].
  injection Hd as <- <-.
  set (name := if String.eqb (basename url_path) "" then "document"%string
               else basename url_path).
  assert (Hname : stem name ∧ (splitext name).2 = ""%string).
  { unfold name. destruct (String.eqb_spec (basename url_path) "") as [He|Hne].
    - split; [|by vm_compute]. split.
      + apply (bool_decide_unpack _). vm_compute. exact I.
      + exists "d"%char. split; [apply list_elem_of_here | discriminate].
    - split; [|done]. split; [apply basename_no_sep|].
      by destruct Hbase as [?|?]. }
  destruct Hname as [Hstem Hnoext].
  assert (Hfn : choose_filename url_path (choose_extension r)
                = String.append name (choose_extension r)).
  { unfold choose_filename. fold name. by rewrite Hnoext. }
  rewrite Hfn.
  destruct (download_extensions_ok _ (choose_extension_in r)) as [Hshape Hsup].
  split; [by exists r|]. split; [done|].
  assert (Hsupp : ∀ pre, directory pre →
            is_supported_file
              (String.append pre (String.append name (choose_extension r))) = true).
  { intros pre Hpre. unfold is_supported_file.
    by rewrite splitext_with_extension. }
  split; [apply (Hsupp ""%string); by left|].
  destruct (path_join_prefix temp_dir (String.append name (choose_extension r)))
    as (pre & Hpre & ->); [|by apply Hsupp].
  rewrite list_ascii_of_append. destruct Hstem as [Hsep _].
  destruct Hshape as (e & -> & _ & Hsep').
  apply not_elem_of_app. split; [done|]. apply not_elem_of_cons. done.
Qed.

Lemma downloaded_file_is_supported_witness :
  (∃ r, Some pdf_response = Some r
        ∧ 100 <= Z.of_nat (length (resp_content r))
        ∧ "report.pdf"%string
          = String.append
              (if String.eqb (basename "/s/abc/report") "" then "document"%string
               else basename "/s/abc/report")
              (choose_extension r))
  ∧ "/tmp/tmpab12/report.pdf"%string = path_join "/tmp/tmpab12" "report.pdf"
  ∧ is_supported_file "report.pdf" = true
  ∧ is_supported_file "/tmp/tmpab12/report.pdf" = true.
Proof.
  apply (downloaded_file_is_supported "/s/abc/report" (Some pdf_response)
           "/tmp/tmpab12" "/tmp/tmpab12/report.pdf" "report.pdf").
  - vm_compute. reflexivity.
  - vm_compute. reflexivity.
  - right. exists "r"%char. split; [vm_compute; apply list_elem_of_here | discriminate].
Defined.

(** ** [URLProcessor._convert_dropbox_url] *)

Section substring_facts.
Implicit Types (pat s w : list ascii).

Lemma starts_with_app_true pat s w :
  starts_with pat s = true → starts_with pat (s ++ w) = true.
Proof.
  revert s. induction pat as [|c pat IH]; intros [|a s]; simpl; try done.
  intros [-> H]%andb_true_iff. simpl. auto.
Qed.

Lemma contains_chars_app_true pat s w :
  contains_chars pat s = true → contains_chars pat (s ++ w) = true.
Proof.
  induction s as [|a s IH]; simpl.
  - rewrite orb_false_r. intros H.
    apply (starts_with_app_true pat [] w) in H. simpl in H.
    destruct w; simpl; by rewrite H.
  - intros [H|H]%orb_true_iff.
    + apply (starts_with_app_true pat (a :: s) w) in H. simpl in H. by rewrite H.
    + rewrite IH by done. apply orb_true_r.
Qed.

Lemma starts_with_app_false pat s w :
  starts_with pat s = false →
  forallb (λ k, negb (starts_with (drop k pat) w)) (seq 0 (length pat)) = true →
  starts_with pat (s ++ w) = false.
Proof.
  revert s. induction pat as [|c pat IH]; intros s Hs Hw.
  - by destruct s.
  - simpl in Hw. apply andb_true_iff in Hw as [H0 Hw].
    destruct s as [|a s].
    + simpl app. by apply negb_true_iff in H0.
    + simpl in *. destruct (Ascii.eqb c a); [|done]. simpl in *.
      apply IH; [done|]. rewrite forallb_forall in *. intros k Hk.
      apply (Hw (S k)). apply in_seq in Hk. apply in_seq. lia.
Qed.

Lemma contains_chars_app_false pat s w :
  contains_chars pat s = false → no_match_into pat w = true →
  contains_chars pat (s ++ w) = false.
Proof.
  unfold no_match_into. intros Hs [Hk Hw]%andb_true_iff.
  apply negb_true_iff in Hw.
  induction s as [|a s IH]; [done|].
  assert (H1 : starts_with pat (a :: s) = false ∧ contains_chars pat s = false).
  { simpl in Hs. by apply orb_false_iff in Hs. }
  destruct H1 as [H1 H2].
  change (contains_chars pat ((a :: s) ++ w))
    with (starts_with pat ((a :: s) ++ w) || contains_chars pat (s ++ w)).
  rewrite (starts_with_app_false pat (a :: s) w H1 Hk). by rewrite IH.
Qed.

Lemma contains_chars_tail c pat s :
  contains_chars (c :: pat) s = true → contains_chars pat s = true.
Proof.
  induction s as [|a s IH]; simpl; [done|].
  intros [H|H]%orb_true_iff.
  - apply andb_true_iff in H as [_ H].
    assert (Hc : contains_chars pat s = true).
    { destruct s; simpl in *; by rewrite H. }
    rewrite Hc. apply orb_true_r.
  - rewrite IH by done. apply orb_true_r.
Qed.

Lemma starts_with_length pat s :
  starts_with pat s = true → (length pat ≤ length s)%nat.
Proof.
  revert s. induction pat as [|c pat IH]; intros [|a s]; simpl; try done; [lia|].
  intros [_ H]%andb_true_iff. apply IH in H. lia.
Qed.

Lemma replace_from_skip old new k s :
  replace_from old new k s = replace_from old new 0 (drop k s).
Proof.
  revert k. induction s as [|a s IH]; intros [|k]; try done.
  simpl drop. rewrite <- IH. done.
Qed.

Lemma replace_from_length old new k s :
  length new = length old → (1 ≤ length old)%nat → (k ≤ length s)%nat →
  (length (replace_from old new k s) + k = length s)%nat.
Proof.
  intros Hlen Hpos. revert k. induction s as [|a s IH]; intros k Hk.
  - simpl in *. lia.
  - destruct k as [|k]; cbn [replace_from].
    + destruct (starts_with old (a :: s)) eqn:Hm.
      * apply starts_with_length in Hm. simpl in Hm.
        rewrite length_app. specialize (IH (length old - 1)%nat).
        simpl length. lia.
      * simpl length. specialize (IH 0%nat). lia.
    + simpl in Hk. specialize (IH k). simpl length. lia.
Qed.
End substring_facts.

Section dropbox_facts.
Implicit Types (s t w : list ascii).

(** a pattern without the letter [d] sees the same prefix before and
    after the replacement *)
Lemma replace_dl0_starts_with w t :
  "d"%char ∉ w →
  starts_with w (replace_from (list_ascii_of_string "dl=0") (list_ascii_of_string "dl=1") 0 t) = starts_with w t.
Proof.
  revert t. induction w as [|c w IH]; intros t Hw; [done|].
  apply not_elem_of_cons in Hw as [Hc Hw].
  destruct t as [|b t]; [done|]. cbn [replace_from].
  destruct (starts_with (list_ascii_of_string "dl=0") (b :: t)) eqn:Hm.
  - assert (b = "d"%char) as ->.
    { simpl in Hm. apply andb_true_iff in Hm as [Hb _]. symmetry. by apply Ascii.eqb_eq. }
    change (list_ascii_of_string "dl=1" ++ ?x) with ("d"%char :: (list_ascii_of_string "l=1" ++ x)).
    cbn [starts_with]. by destruct (Ascii.eqb_spec c "d").
  - cbn [starts_with]. by rewrite IH.
Qed.

Lemma replace_dl0_no_dl0 s : contains_chars (list_ascii_of_string "dl=0") (replace_from (list_ascii_of_string "dl=0") (list_ascii_of_string "dl=1") 0 s) = false.
Proof.
  remember (length s) as n eqn:Hn. revert s Hn.
  induction n as [n IH] using lt_wf_ind. intros s ->.
  destruct s as [|a s]; [done|]. cbn [replace_from].
  destruct (starts_with (list_ascii_of_string "dl=0") (a :: s)) eqn:Hm.
  - rewrite replace_from_skip.
    assert (Hrest : contains_chars (list_ascii_of_string "dl=0") (replace_from (list_ascii_of_string "dl=0") (list_ascii_of_string "dl=1") 0 (drop (length (list_ascii_of_string "dl=0") - 1) s))
                    = false).
    { apply (IH (length (drop (length (list_ascii_of_string "dl=0") - 1) s))); [|done].
      rewrite length_drop. simpl. lia. }
    revert Hrest. generalize (replace_from (list_ascii_of_string "dl=0") (list_ascii_of_string "dl=1") 0 (drop (length (list_ascii_of_string "dl=0") - 1) s)).
    intros X HX. simpl. exact HX.
  - change (contains_chars (list_ascii_of_string "dl=0") (a :: ?x))
      with (starts_with (list_ascii_of_string "dl=0") (a :: x) || contains_chars (list_ascii_of_string "dl=0") x).
    rewrite (IH (length s)) by (simpl; lia || done).
    rewrite orb_false_r.
    change (starts_with (list_ascii_of_string "dl=0") (a :: ?x))
      with (Ascii.eqb "d" a && starts_with (list_ascii_of_string "l=0") x).
    change (starts_with (list_ascii_of_string "dl=0") (a :: s))
      with (Ascii.eqb "d" a && starts_with (list_ascii_of_string "l=0") s) in Hm.
    rewrite replace_dl0_starts_with; [done|].
    apply (bool_decide_unpack _). vm_compute. exact I.
Qed.
End dropbox_facts.

Lemma string_length_chars (s : string) :
  String.length s = length (list_ascii_of_string s).
Proof. induction s as [|a s IH]; simpl; [done|]. by rewrite IH. Qed.

(** X21.  A Dropbox link with [dl=0] is rewritten to one of the same
    length in which no [dl=0] is left. *)
Theorem dropbox_dl0_is_replaced (url : string) :
  str_contains "dropbox.com" url = true →
  str_contains "dl=0" url = true →
  _convert_dropbox_url url = str_replace "dl=0" "dl=1" url
  ∧ String.length (_convert_dropbox_url url) = String.length url
  ∧ str_contains "dl=0" (_convert_dropbox_url url) = false.
Proof.
  intros Hd H0. unfold _convert_dropbox_url. rewrite Hd, H0.
  split; [done|]. unfold str_replace, str_contains.
  rewrite !string_length_chars, !list_ascii_of_string_of_list_ascii.
  split.
  - pose proof (replace_from_length (list_ascii_of_string "dl=0")
                  (list_ascii_of_string "dl=1") 0 (list_ascii_of_string url)
                  eq_refl) as H.
    simpl in H. unfold replace_chars. simpl. lia.
  - apply replace_dl0_no_dl0.
Qed.

(** X22.  A Dropbox link without [dl=0] and without [?raw=1] gets
    [?dl=1] appended, also when it already ends in [?dl=1]: the
    conversion is not idempotent, and converting the result again appends
    a second [?dl=1]. *)
Theorem dropbox_link_gets_dl1_appended (url : string) :
  str_contains "dropbox.com" url = true →
  str_contains "dl=0" url = false →
  str_contains "?raw=1" url = false →
  _convert_dropbox_url url = String.append url "?dl=1"
  ∧ _convert_dropbox_url (_convert_dropbox_url url) = String.append url "?dl=1?dl=1".
Proof.
  intros Hd H0 Hraw.
  assert (Hq : ∀ u, str_contains "dl=0" u = false → str_contains "?dl=0" u = false).
  { intros u Hu. unfold str_contains in *.
    destruct (contains_chars (list_ascii_of_string "?dl=0") _) eqn:E; [|done].
    apply contains_chars_tail in E. simpl in *. congruence. }
  assert (Hstep : ∀ u, str_contains "dropbox.com" u = true →
            str_contains "dl=0" u = false → str_contains "?raw=1" u = false →
            _convert_dropbox_url u = String.append u "?dl=1").
  { intros u H1 H2 H3. unfold _convert_dropbox_url.
    by rewrite H1, H2, (Hq u H2), H3. }
  rewrite (Hstep url) by done. split; [done|].
  rewrite Hstep.
  - by rewrite append_assoc.
  - unfold str_contains in *. rewrite list_ascii_of_append.
    by apply contains_chars_app_true.
  - unfold str_contains in *. rewrite list_ascii_of_append.
    apply contains_chars_app_false; [done | by vm_compute].
  - unfold str_contains in *. rewrite list_ascii_of_append.
    apply contains_chars_app_false; [done | by vm_compute].
Qed.

Lemma dropbox_dl0_is_replaced_witness :
  _convert_dropbox_url "https://www.dropbox.com/s/abc/report.pdf?dl=0"
  = str_replace "dl=0" "dl=1" "https://www.dropbox.com/s/abc/report.pdf?dl=0"
  ∧ String.length (_convert_dropbox_url "https://www.dropbox.com/s/abc/report.pdf?dl=0")
    = String.length "https://www.dropbox.com/s/abc/report.pdf?dl=0"
  ∧ str_contains "dl=0"
      (_convert_dropbox_url "https://www.dropbox.com/s/abc/report.pdf?dl=0") = false.
Proof.
  apply (dropbox_dl0_is_replaced "https://www.dropbox.com/s/abc/report.pdf?dl=0").
  - vm_compute. reflexivity.
  - vm_compute. reflexivity.
Defined.

Lemma dropbox_link_gets_dl1_appended_witness :
  _convert_dropbox_url "https://www.dropbox.com/s/abc/report.pdf?dl=1"
  = "https://www.dropbox.com/s/abc/report.pdf?dl=1?dl=1"%string
  ∧ _convert_dropbox_url
      (_convert_dropbox_url "https://www.dropbox.com/s/abc/report.pdf?dl=1")
    = "https://www.dropbox.com/s/abc/report.pdf?dl=1?dl=1?dl=1"%string.
Proof.
  apply (dropbox_link_gets_dl1_appended "https://www.dropbox.com/s/abc/report.pdf?dl=1").
  - vm_compute. reflexivity.
  - vm_compute. reflexivity.
  - vm_compute. reflexivity.
Defined.


(** ** The rate limiter of [main.py] *)

Section rate_limit_facts.
Implicit Types (c : string) (counts : gmap string (gmap Z Z)) (m : gmap Z Z).

Lemma rate_limit_registered c counts :
  requests_of c
    match counts !! c with
    | None => <[c := ∅]> counts
    | Some _ => counts
    end
  = requests_of c counts.
Proof.
  unfold requests_of. destruct (counts !! c) eqn:E; [by rewrite E|].
  by rewrite lookup_insert_eq.
Qed.

(** what one call does to the entries of its client *)
Lemma rate_limit_entries c now id counts :
  let kept := filter (λ e : Z * Z, now - e.2 < sixty_seconds) (requests_of c counts) in
  (rate_limit c now id counts).1
  = (if MAX_REQUESTS_PER_MINUTE <=? Z.of_nat (size kept)
     then HTTPException 429 else Returned tt)
  ∧ requests_of c (rate_limit c now id counts).2
    = (if MAX_REQUESTS_PER_MINUTE <=? Z.of_nat (size kept)
       then kept else <[id := now]> kept).
Proof.
  simpl. unfold rate_limit. rewrite rate_limit_registered.
  destruct (MAX_REQUESTS_PER_MINUTE <=? _); (split; [done|]);
    unfold requests_of; cbn [snd]; by rewrite lookup_insert_eq.
Qed.

Lemma rate_limit_other_client c c' now id counts :
  c ≠ c' →
  requests_of c' (rate_limit c now id counts).2 = requests_of c' counts.
Proof.
  intros Hne. unfold rate_limit, requests_of.
  destruct (MAX_REQUESTS_PER_MINUTE <=? _); cbn [snd];
    rewrite ?lookup_insert_ne by done;
    destruct (counts !! c); by rewrite ?lookup_insert_ne by done.
Qed.

Lemma rate_limit_size c c' now id counts :
  Z.of_nat (size (requests_of c' counts)) <= MAX_REQUESTS_PER_MINUTE →
  Z.of_nat (size (requests_of c' (rate_limit c now id counts).2))
  <= MAX_REQUESTS_PER_MINUTE.
Proof.
  intros Hle. destruct (decide (c = c')) as [<-|Hne];
    [|by rewrite rate_limit_other_client].
  destruct (rate_limit_entries c now id counts) as [_ ->].
  pose proof (map_subseteq_size _ _
    (map_filter_subseteq (λ e : Z * Z, now - e.2 < sixty_seconds)
       (requests_of c counts))) as Hsub.
  destruct (Z.leb_spec MAX_REQUESTS_PER_MINUTE
              (Z.of_nat (size (filter (λ e : Z * Z, now - e.2 < sixty_seconds)
                                 (requests_of c counts))))) as [Hfull|Hroom].
  - lia.
  - rewrite map_size_insert. destruct (_ !! id); simpl; lia.
Qed.
End rate_limit_facts.

(** X23.  The limiter never keeps more than 60 requests of a client on
    record: after any sequence of calls on the table the application
    starts with (the empty one), every client has at most
    [MAX_REQUESTS_PER_MINUTE] entries. *)
Theorem rate_limit_keeps_at_most_60 (reqs : list request) (c : string) :
  Z.of_nat (size (requests_of c (run_rate_limit reqs ∅))) <= MAX_REQUESTS_PER_MINUTE.
Proof.
  unfold run_rate_limit.
  assert (H0 : Z.of_nat (size (requests_of c (∅ : gmap string (gmap Z Z))))
               <= MAX_REQUESTS_PER_MINUTE) by (by vm_compute).
  revert H0. generalize (∅ : gmap string (gmap Z Z)) as counts.
  induction reqs as [|r reqs IH]; intros counts H0; [done|].
  simpl. apply IH. by apply rate_limit_size.
Qed.

(** X24.  When all recorded requests of a client are less than 60
    seconds old, a call is admitted exactly if there are fewer than 60 of
    them; an admitted call records the request under its id (replacing an
    entry with the same id, so that two requests with one id count once),
    a rejected call (status 429) records nothing; and no call changes the
    record of another client. *)
Theorem rate_limit_admits_below_60 (c : string) (now id : Z)
    (counts : gmap string (gmap Z Z)) :
  (∀ k t, requests_of c counts !! k = Some t → now - t < sixty_seconds) →
  (rate_limit c now id counts).1
  = (if MAX_REQUESTS_PER_MINUTE <=? Z.of_nat (size (requests_of c counts))
     then HTTPException 429 else Returned tt)
  ∧ requests_of c (rate_limit c now id counts).2
    = (if MAX_REQUESTS_PER_MINUTE <=? Z.of_nat (size (requests_of c counts))
       then requests_of c counts else <[id := now]> (requests_of c counts))
  ∧ ∀ c', c ≠ c' →
      requests_of c' (rate_limit c now id counts).2 = requests_of c' counts.
Proof.
  intros Hyoung.
  assert (Hkept : filter (λ e : Z * Z, now - e.2 < sixty_seconds) (requests_of c counts)
                  = requests_of c counts).
  { apply map_filter_id. intros k t Hk. simpl. by apply (Hyoung k). }
  destruct (rate_limit_entries c now id counts) as [H1 H2].
  rewrite Hkept in H1, H2. split; [|split; [done|]].
  - rewrite H1. by destruct (_ <=? _).
  - intros c' Hne. by apply rate_limit_other_client.
Qed.

(** X25.  A client whose recorded requests are all 60 seconds old or
    older is admitted, and the call leaves exactly the new request on its
    record. *)
Theorem rate_limit_recovers_after_60_seconds (c : string) (now id : Z)
    (counts : gmap string (gmap Z Z)) :
  (∀ k t, requests_of c counts !! k = Some t → sixty_seconds <= now - t) →
  (rate_limit c now id counts).1 = Returned tt
  ∧ requests_of c (rate_limit c now id counts).2 = {[ id := now ]}.
Proof.
  intros Hold.
  assert (Hkept : filter (λ e : Z * Z, now - e.2 < sixty_seconds) (requests_of c counts)
                  = ∅).
  { apply map_eq. intros k. rewrite lookup_empty.
    destruct (filter _ _ !! k) as [t|] eqn:E; [|done].
    apply map_lookup_filter_Some in E as [E Hlt]. simpl in Hlt.
    specialize (Hold k t E). lia. }
  destruct (rate_limit_entries c now id counts) as [H1 H2].
  rewrite Hkept in H1, H2. rewrite map_size_empty in H1, H2.
  change (MAX_REQUESTS_PER_MINUTE <=? Z.of_nat 0) with false in H1, H2.
  split; [by rewrite H1 | by rewrite H2].
Qed.

Lemma rate_limit_admits_below_60_witness :
  (rate_limit "10.0.0.1" 30000000 30000001 two_requests).1
  = (if MAX_REQUESTS_PER_MINUTE
        <=? Z.of_nat (size (requests_of "10.0.0.1" two_requests))
     then HTTPException 429 else Returned tt)
  ∧ requests_of "10.0.0.1" (rate_limit "10.0.0.1" 30000000 30000001 two_requests).2
    = (if MAX_REQUESTS_PER_MINUTE
          <=? Z.of_nat (size (requests_of "10.0.0.1" two_requests))
       then requests_of "10.0.0.1" two_requests
       else <[30000001 := 30000000]> (requests_of "10.0.0.1" two_requests))
  ∧ ∀ c', "10.0.0.1"%string ≠ c' →
      requests_of c' (rate_limit "10.0.0.1" 30000000 30000001 two_requests).2
      = requests_of c' two_requests.
Proof.
  apply (rate_limit_admits_below_60 "10.0.0.1" 30000000 30000001 two_requests).
  intros k t Hk.
  change (requests_of "10.0.0.1" two_requests)
    with ({[ 10000001 := 10000000; 20000001 := 20000000 ]} : gmap Z Z) in Hk.
  apply lookup_insert_Some in Hk as [[_ <-]|[_ Hk]]; [reflexivity|].
  apply lookup_singleton_Some in Hk as [_ <-]. reflexivity.
Defined.

Lemma rate_limit_recovers_after_60_seconds_witness :
  (rate_limit "10.0.0.1" 90000000 90000001 two_requests).1 = Returned tt
  ∧ requests_of "10.0.0.1" (rate_limit "10.0.0.1" 90000000 90000001 two_requests).2
    = {[ 90000001 := 90000000 ]}.
Proof.
  apply (rate_limit_recovers_after_60_seconds "10.0.0.1" 90000000 90000001 two_requests).
  intros k t Hk.
  change (requests_of "10.0.0.1" two_requests)
    with ({[ 10000001 := 10000000; 20000001 := 20000000 ]} : gmap Z Z) in Hk.
  apply lookup_insert_Some in Hk as [[_ <-]|[_ Hk]]; [discriminate|].
  apply lookup_singleton_Some in Hk as [_ <-]. discriminate.
Defined.


(** ** The handlers of [main.py] on the session store *)

Section handler_facts.
Import PyDict PyDictFacts.
Implicit Types (st : SessionStore) (s : string) (p q : DocumentProcessor).

(** a query that returns leaves its answer in the response cache, under
    the normalised query *)
Lemma query_document_cached query engine t0 t1 p r p' :
  query_document query engine t0 t1 p = Ok (r, p') →
  index p' = index p ∧ index p ≠ None
  ∧ get (cache_key query) (_response_cache p') = Some r.
Proof.
  unfold query_document. destruct (index p) as [i|] eqn:Hi; [|done].
  destruct (get (cache_key query) (_response_cache p)) as [cached|] eqn:Hc.
  - intros H. inversion H; subst. by rewrite Hi.
  - destruct engine as [resp|]; [|done].
    destruct (String.eqb _ _); [done|].
    destruct (make_room p) as [c|]; [|done]. cbn [rbind].
    intros H. inversion H; subst. cbn [index _response_cache with_response_cache].
    split; [done|]. split; [done|]. apply get_set_eq.
Qed.

(** what a load leaves untouched *)
Lemma load_session_frame s s' t t' st :
  s' ≠ s →
  get s' (_session_cache (load_session s t t' st).2) = get s' (_session_cache st)
  ∧ ip_sessions (load_session s t t' st).2 = ip_sessions st.
Proof.
  intros Hne. unfold load_session.
  destruct (get s (_session_cache st)) as [[q ts]|].
  { cbn. by rewrite get_set_ne. }
  destruct (base_dir st !! _get_session_path s) as [[q|m]|]; [|done|done].
  destruct (index q); [|done]. cbn [base_dir with_cache].
  destruct (base_dir st !! _get_metadata_path s) as [[q'|m]|];
    cbn; by rewrite get_set_ne.
Qed.

(** a load that returns a processor holds it in the hot cache *)
Lemma load_session_Some_cached s t t' st p st1 :
  load_session s t t' st = (Some p, st1) →
  get s (_session_cache st1) = Some (p, t).
Proof.
  unfold load_session.
  destruct (get s (_session_cache st)) as [[q ts]|].
  { intros H. inversion H; subst. cbn. apply get_set_eq. }
  destruct (base_dir st !! _get_session_path s) as [[q|m]|]; [|done|done].
  destruct (index q); [|done]. cbn [base_dir with_cache].
  destruct (base_dir st !! _get_metadata_path s) as [[q'|m]|];
    [done| |]; intros H; inversion H; subst; cbn; apply get_set_eq.
Qed.

(** the store after a chat: that of the load, with at most the processor
    of the session replaced in the hot cache *)
Lemma chat_store s query engine tc tm t0 t1 st :
  (main.chat s query engine tc tm t0 t1 st).2 = (load_session s tc tm st).2
  ∨ ∃ p', (main.chat s query engine tc tm t0 t1 st).2
          = with_cache (set s (p', tc) (_session_cache (load_session s tc tm st).2))
                       (load_session s tc tm st).2.
Proof.
  unfold main.chat. destruct (load_session s tc tm st) as [[p|] st1]; [|by left].
  destruct (index p); [|by left].
  destruct (query_document query engine t0 t1 p) as [[r p']|]; [|by left].
  right. exists p'. by destruct (String.eqb _ _).
Qed.

(** a chat that answers: the answer is in the response cache of the
    processor that the hot cache holds afterwards *)
Lemma chat_answer_cached s query engine tc tm t0 t1 st text :
  (main.chat s query engine tc tm t0 t1 st).1 = Returned text →
  ∃ p' r i,
    get s (_session_cache (main.chat s query engine tc tm t0 t1 st).2) = Some (p', tc)
    ∧ index p' = Some i
    ∧ get (cache_key query) (_response_cache p') = Some r
    ∧ response r = text
    ∧ String.eqb text "" = false.
Proof.
  unfold main.chat. destruct (load_session s tc tm st) as [[p|] st1]; [|done].
  destruct (index p) as [i|] eqn:Hi; [|done].
  destruct (query_document query engine t0 t1 p) as [[r p']|] eqn:Hq; [|done].
  destruct (query_document_cached _ _ _ _ _ _ _ Hq) as (Hi' & _ & Hr).
  destruct (String.eqb (response r) "") eqn:Hne; [done|].
  cbn [fst snd]. intros H. inversion H; subst text.
  exists p', r, i. cbn [_session_cache with_cache].
  split; [apply get_set_eq|]. split; [congruence|]. done.
Qed.
End handler_facts.

(** X26.  The handler of [DELETE /session/{session_id}] tests the
    coroutine of the store's [delete_session] instead of awaiting it: it
    answers with the success message and deletes nothing, so that a
    session saved before the call is loaded after it. *)
Theorem delete_handler_keeps_session (s : string) (p : DocumentProcessor)
    (ip : option string) (t1 t2 t3 : Z) (st st' : SessionStore) (i : Z) :
  save_session s p ip t1 t2 t3 st = Ok st' →
  index p = Some i →
  (main.delete_session s st').1 = Returned "Session deleted successfully"%string
  ∧ ∀ t t', (load_session s t t' (main.delete_session s st').2).1 = Some p.
Proof.
  intros Hsave Hi. split; [done|]. intros t t'.
  change (main.delete_session s st').2 with st'.
  destruct (save_session_cache_after _ _ _ _ _ _ _ _ Hsave) as (Hp & Hm & [Hc|Hc]).
  - by rewrite (load_session_hit_state _ _ _ _ _ _ Hc).
  - eapply load_session_promotes; [|exact Hp|exact Hm|exact Hi].
    by apply PyDictFacts.contains_false.
Qed.

(** X27.  A chat on a session whose id is a file name and that is in
    neither the hot cache nor the durable store is answered with status
    404, and the store is as before. *)
Theorem chat_unknown_session_404 (s query : string) (engine : option EngineResponse)
    (tc tm t0 t1 : Z) (st : SessionStore) :
  plain_id s = true →
  gone s st →
  main.chat s query engine tc tm t0 t1 st = (HTTPException 404, st).
Proof.
  intros _ Hgone. unfold main.chat. by rewrite (load_session_gone _ _ _ _ Hgone).
Qed.

(** X28.  After a chat that was answered, a chat on the same session
    with a query that has the same normal form (surrounding white space
    stripped, lower case) gets the same answer whatever the query engine
    would do, also when it fails: the answer comes from the response
    cache of the processor held by the hot cache. *)
Theorem chat_repeated_query_served_from_cache (s query query' : string)
    (engine engine' : option EngineResponse)
    (tc tm t0 t1 tc' tm' t0' t1' : Z) (st : SessionStore) (text : string) :
  (main.chat s query engine tc tm t0 t1 st).1 = Returned text →
  cache_key query' = cache_key query →
  (main.chat s query' engine' tc' tm' t0' t1'
     (main.chat s query engine tc tm t0 t1 st).2).1 = Returned text.
Proof.
  intros Hchat Hkey.
  destruct (chat_answer_cached _ _ _ _ _ _ _ _ _ Hchat)
    as (p' & r & i & Hc & Hi & Hr & Htext & Hne).
  unfold main.chat at 1. rewrite (load_session_hit_state _ _ _ _ _ _ Hc).
  rewrite Hi. unfold query_document. rewrite Hi, Hkey, Hr.
  rewrite Htext, Hne. done.
Qed.

(** X29.  A chat writes no file but the metadata file of its session
    (the access time, on a load from the durable store): the payload
    file of the session is as before, so the answers cached by the chat
    are not in the durable store; and the hot-cache entries of the other
    sessions and the quota lists are as before. *)
Theorem chat_frame (s query : string) (engine : option EngineResponse)
    (tc tm t0 t1 : Z) (st : SessionStore) :
  let st' := (main.chat s query engine tc tm t0 t1 st).2 in
  (∀ name, name ≠ _get_metadata_path s → base_dir st' !! name = base_dir st !! name)
  ∧ payload_file s st' = payload_file s st
  ∧ (∀ s', s' ≠ s →
       PyDict.get s' (_session_cache st') = PyDict.get s' (_session_cache st))
  ∧ ip_sessions st' = ip_sessions st.
Proof.
  intros st'.
  assert (Hfiles : ∀ name, name ≠ _get_metadata_path s →
                     base_dir st' !! name = base_dir st !! name).
  { intros name Hne. subst st'.
    assert (Hb : base_dir (main.chat s query engine tc tm t0 t1 st).2
                 = base_dir (load_session s tc tm st).2).
    { destruct (chat_store s query engine tc tm t0 t1 st) as [->|[p' ->]]; done. }
    rewrite Hb.
    destruct (load_session_files st s tc tm name) as [H|[H _]]; [done|].
    by destruct Hne. }
  split; [done|]. split.
  { unfold payload_file. apply Hfiles. apply session_path_not_metadata. }
  split.
  - intros s' Hne. subst st'.
    destruct (load_session_frame s s' tc tm st Hne) as [Hl _].
    destruct (chat_store s query engine tc tm t0 t1 st) as [->|[p' ->]]; [done|].
    cbn [_session_cache with_cache].
    rewrite PyDictFacts.get_set_ne by done. done.
  - subst st'.
    destruct (load_session_frame s (String "x" s) tc tm st) as [_ Hl].
    { intros H. apply (f_equal String.length) in H. simpl in H. lia. }
    destruct (chat_store s query engine tc tm t0 t1 st) as [->|[p' ->]]; done.
Qed.

Lemma delete_handler_keeps_session_witness :
  (main.delete_session "s1" store_saved_at_0).1
  = Returned "Session deleted successfully"%string
  ∧ ∀ t t', (load_session "s1" t t' (main.delete_session "s1" store_saved_at_0).2).1
            = Some a_processor.
Proof.
  apply (delete_handler_keeps_session "s1" a_processor None 0 0 0
           default_store store_saved_at_0 1);
    [vm_compute; reflexivity | reflexivity].
Defined.

Lemma chat_unknown_session_404_witness :
  main.chat "s1" "hello" (Some hello_response) 5 5 1 4 default_store
  = (HTTPException 404, default_store).
Proof.
  apply (chat_unknown_session_404 "s1" "hello" (Some hello_response) 5 5 1 4
           default_store); [reflexivity|].
  unfold gone. split; [reflexivity | split; reflexivity].
Defined.

Lemma chat_repeated_query_served_from_cache_witness :
  (main.chat "s1" "hello world" None 9 9 7 8
     (main.chat "s1" "  Hello World " (Some hello_response) 5 5 1 4
        store_saved_at_0).2).1
  = Returned "Hi there"%string.
Proof.
  apply (chat_repeated_query_served_from_cache "s1" "  Hello World " "hello world"
           (Some hello_response) None 5 5 1 4 9 9 7 8 store_saved_at_0 "Hi there");
    vm_compute; reflexivity.
Defined.

(** ** The listing of sessions *)

Lemma list_metadata_spec (st : SessionStore) (m : Metadata) :
  m ∈ list_metadata st
  ↔ ∃ name, ends_with "_meta.json" name = true
            ∧ base_dir st !! name = Some (JsonFile m).
Proof.
  unfold list_metadata. rewrite list_elem_of_omap. split.
  - intros (name & Hin & Hm). exists name.
    apply glob_meta_spec in Hin as [He _]. split; [done|].
    destruct (base_dir st !! name) as [[q|m']|]; [done| |done]. congruence.
  - intros (name & He & Hm). exists name. split.
    + apply glob_meta_spec. split; [done|]. by rewrite Hm.
    + by rewrite Hm.
Qed.

(** X30.  A listing that is not served from the remembered call (none
    is remembered, or it is of another minute) holds exactly the
    metadata records of the files named [*_meta.json] that decode; and
    every later call within the same minute returns that same list,
    whatever has been saved or deleted in the meantime. *)
Theorem list_sessions_refreshes_once_a_minute (now : Z)
    (lru : option (Z * list Metadata)) (st : SessionStore) :
  (∀ k sessions, lru = Some (k, sessions) → k ≠ Z.quot now sixty_seconds) →
  (∀ m, m ∈ (list_sessions now lru st).1
        ↔ ∃ name, ends_with "_meta.json" name = true
                  ∧ base_dir st !! name = Some (JsonFile m))
  ∧ ∀ now' st', Z.quot now' sixty_seconds = Z.quot now sixty_seconds →
      list_sessions now' (list_sessions now lru st).2 st' = list_sessions now lru st.
Proof.
  intros Hlru.
  assert (Hfresh : list_sessions now lru st
                   = (list_metadata st, Some (Z.quot now sixty_seconds, list_metadata st))).
  { unfold list_sessions, _list_sessions_cached.
    destruct lru as [[k sessions]|]; [|done].
    specialize (Hlru k sessions eq_refl).
    destruct (Z.eqb_spec k (Z.quot now sixty_seconds)); done. }
  rewrite Hfresh. cbn [fst snd]. split.
  - intros m. apply list_metadata_spec.
  - intros now' st' Hmin. unfold list_sessions, _list_sessions_cached.
    rewrite Hmin, Z.eqb_refl. done.
Qed.

Lemma list_sessions_refreshes_once_a_minute_witness :
  (∀ m, m ∈ (list_sessions 61000000 None store_saved_at_0).1
        ↔ ∃ name, ends_with "_meta.json" name = true
                  ∧ base_dir store_saved_at_0 !! name = Some (JsonFile m))
  ∧ ∀ now' st', Z.quot now' sixty_seconds = Z.quot 61000000 sixty_seconds →
      list_sessions now' (list_sessions 61000000 None store_saved_at_0).2 st'
      = list_sessions 61000000 None store_saved_at_0.
Proof.
  apply (list_sessions_refreshes_once_a_minute 61000000 None store_saved_at_0).
  intros k sessions H. discriminate H.
Defined.


(** ** Restarts, and runs without client id *)

Section restart_facts.
Import PyDict PyDictFacts.
Implicit Types (st : SessionStore) (s : string) (p q : DocumentProcessor).

(** a scan puts nothing into the hot cache *)
Lemma cleanup_keeps_cache_empty now st :
  _session_cache st = [] → _session_cache (_cleanup_old_sessions now st) = [].
Proof.
  intros Hnil. unfold _cleanup_old_sessions.
  destruct (_session_cache (_cleanup_disk _ _ _)) as [|x l] eqn:E; [done|].
  assert (Hin : In x (_session_cache (_cleanup_cache now st))).
  { eapply cleanup_disk_In. rewrite E. by left. }
  apply cleanup_cache_In in Hin as [Hin _]. by rewrite Hnil in Hin.
Qed.

Lemma cleanup_session_timeout now st :
  session_timeout (_cleanup_old_sessions now st) = session_timeout st.
Proof.
  unfold _cleanup_old_sessions. rewrite cleanup_disk_timeout.
  by destruct (cleanup_cache_frame now st) as (_ & -> & _).
Qed.

(** the passes of the scan task on a store with an empty hot cache keep
    a session that stays within the timeout *)
Lemma scans_keep_fresh (nows : list Z) st s q m :
  files_wf (base_dir st) →
  _session_cache st = [] →
  payload_file s st = Some (PickleFile q) →
  metadata_file s st = Some (JsonFile m) →
  Forall (λ now, now - last_accessed m <= session_timeout st) nows →
  _session_cache (fold_left (λ st now, _cleanup_old_sessions now st) nows st) = []
  ∧ payload_file s (fold_left (λ st now, _cleanup_old_sessions now st) nows st)
    = Some (PickleFile q)
  ∧ metadata_file s (fold_left (λ st now, _cleanup_old_sessions now st) nows st)
    = Some (JsonFile m).
Proof.
  revert st. induction nows as [|now nows IH]; intros st Hwf Hnil Hp Hm Hfresh;
    [done|].
  apply List.Forall_cons_iff in Hfresh as [Hnow Hfresh]. cbn [fold_left].
  destruct (cleanup_keeps_fresh now st s m) as (Hm' & Hp' & _); try done.
  { rewrite Hnil. apply NoDup_nil_2. }
  apply IH.
  - by apply cleanup_files_wf.
  - by apply cleanup_keeps_cache_empty.
  - by rewrite Hp'.
  - done.
  - by rewrite cleanup_session_timeout.
Qed.

(** a load on a restarted store, for a session that the directory holds
    and that is within the timeout at every pass of the scan task *)
Lemma restarted_load files max_sessions session_timeout_hours nows s q m i t t' :
  files_wf files →
  files !! _get_session_path s = Some (PickleFile q) →
  files !! _get_metadata_path s = Some (JsonFile m) →
  index q = Some i →
  Forall (λ now, now - last_accessed m <= hours session_timeout_hours) nows →
  (load_session s t t' (restarted files max_sessions session_timeout_hours nows)).1
  = Some q.
Proof.
  intros Hwf Hp Hm Hi Hfresh. unfold restarted.
  destruct (scans_keep_fresh nows
              (__init__ files max_sessions session_timeout_hours) s q m)
    as (Hnil & Hp' & Hm'); try done.
  eapply load_session_promotes; [|exact Hp'|exact Hm'|exact Hi].
  unfold in_hot_cache. by rewrite Hnil.
Qed.

(** a step without client id leaves the quota lists alone *)
Lemma step_without_client st op :
  without_client op → ip_sessions (step st op) = ip_sessions st.
Proof.
  destruct op as [s p ip t1 t2 t3|s t t'|s|now]; simpl; intros Hop.
  - destruct (save_session s p ip t1 t2 t3 st) as [st'|x] eqn:Hsave; [|done].
    pose proof (register_ip_None s ip st Hop) as Hreg.
    by destruct (save_session_ip_sessions _ _ _ _ _ _ _ _ _ Hsave Hreg) as (-> & _).
  - by destruct (load_session_frame s (String "x" s) t t' st) as [_ ->];
      [intros H; apply (f_equal String.length) in H; simpl in H; lia|].
  - done.
  - unfold _cleanup_old_sessions.
    destruct (cleanup_cache_frame now st) as (_ & _ & <-).
    generalize (_cleanup_cache now st) as st1. intros st1.
    unfold _cleanup_disk.
    generalize (glob_meta (base_dir st1)) as files. intros files. revert st1.
    induction files as [|f files IH]; intros st1; [done|].
    simpl. rewrite IH. unfold _cleanup_meta_file.
    destruct (base_dir st1 !! f) as [[q|m]|]; [done| |done].
    by destruct (session_timeout st1 <? _).
Qed.
End restart_facts.

(** X3.  With [save_session] called without client id ([None] or the
    empty string), which is how both handlers of [main.py] call it, the
    quota tracker is never filled: after any sequence of such saves,
    loads, deletions and scans on a constructed store, no client has a
    session on record. *)
Theorem saves_without_client_register_nothing (ops : list operation)
    (files : gmap string File) (max_sessions session_timeout_hours : Z) :
  Forall without_client ops →
  ip_sessions (run ops (__init__ files max_sessions session_timeout_hours)) = ∅
  ∧ ∀ c, get_sessions_for_ip c
           (run ops (__init__ files max_sessions session_timeout_hours)) = [].
Proof.
  intros Hops.
  assert (Hips : ip_sessions (run ops (__init__ files max_sessions session_timeout_hours))
                 = ∅).
  { unfold run.
    change (∅ : gmap string (list string))
      with (ip_sessions (__init__ files max_sessions session_timeout_hours)).
    generalize (__init__ files max_sessions session_timeout_hours) as st.
    induction Hops as [|op ops Hop _ IH]; intros st; [done|].
    simpl. rewrite IH. by apply step_without_client. }
  split; [done|]. intros c. unfold get_sessions_for_ip. by rewrite Hips, lookup_empty.
Qed.

(** X5.  A save that returns has written both records of the session:
    the payload file holds the processor and the metadata file holds the
    id, the two clock readings and the client id.  A store constructed
    later on the same directory (a restart: empty hot cache, empty quota
    lists) starts its scan task; if the directory was written by this
    store only and the session is within the timeout at every pass that
    the task has run, a load returns a payload that has an index from the
    durable store. *)
Theorem saved_session_survives_restart (st st' : SessionStore) (s : string)
    (p : DocumentProcessor) (ip : option string) (t1 t2 t3 i : Z) :
  files_wf (base_dir st) →
  save_session s p ip t1 t2 t3 st = Ok st' →
  index p = Some i →
  payload_file s st' = Some (PickleFile p)
  ∧ metadata_file s st'
    = Some (JsonFile {| meta_session_id := s; created_at := t2;
                        last_accessed := t3; meta_ip_address := ip |})
  ∧ ∀ max_sessions session_timeout_hours nows t t',
      Forall (λ now, now - t3 <= hours session_timeout_hours) nows →
      (load_session s t t'
         (restarted (base_dir st') max_sessions session_timeout_hours nows)).1
      = Some p.
Proof.
  intros Hwf Hsave Hi.
  destruct (save_session_cache_after _ _ _ _ _ _ _ _ Hsave) as (Hp & Hm & _).
  split; [done|]. split; [done|]. intros mx h nows t t' Hfresh.
  eapply restarted_load; [|exact Hp|exact Hm|exact Hi|exact Hfresh].
  by eapply save_session_files_wf.
Qed.


Lemma delete_session_idempotent_witness :
  (delete_session "s1" (delete_session "s1" store_saved_at_0).2).2
  = (delete_session "s1" store_saved_at_0).2
  ∧ load_session "s1" 5 5 (delete_session "s1" store_saved_at_0).2
    = (None, (delete_session "s1" store_saved_at_0).2).
Proof.
  apply (delete_session_idempotent store_saved_at_0 "s1" 5 5). reflexivity.
Defined.

Lemma saves_without_client_register_nothing_witness :
  ip_sessions (run operations_without_client (__init__ ∅ 5 24)) = ∅
  ∧ ∀ c, get_sessions_for_ip c (run operations_without_client (__init__ ∅ 5 24)) = [].
Proof.
  apply (saves_without_client_register_nothing operations_without_client ∅ 5 24).
  unfold operations_without_client.
  repeat (apply List.Forall_cons; [first [reflexivity | exact I]|]).
  apply List.Forall_nil.
Defined.

Lemma default_store_files_wf : files_wf (base_dir default_store).
Proof.
  intros name m _ H.
  change (base_dir default_store) with (∅ : gmap string File) in H.
  rewrite lookup_empty in H. discriminate H.
Defined.

Lemma saved_session_survives_restart_witness :
  payload_file "s1" store_saved_at_0 = Some (PickleFile a_processor)
  ∧ metadata_file "s1" store_saved_at_0
    = Some (JsonFile {| meta_session_id := "s1"; created_at := 0;
                        last_accessed := 0; meta_ip_address := None |})
  ∧ ∀ max_sessions session_timeout_hours nows t t',
      Forall (λ now, now - 0 <= hours session_timeout_hours) nows →
      (load_session "s1" t t'
         (restarted (base_dir store_saved_at_0) max_sessions
            session_timeout_hours nows)).1
      = Some a_processor.
Proof.
  apply (saved_session_survives_restart default_store store_saved_at_0 "s1"
           a_processor None 0 0 0 1).
  - exact default_store_files_wf.
  - vm_compute. reflexivity.
  - reflexivity.
Defined.

(** the restart of the example: the first pass of the scan task after one
    hour, the second after two, and the session is loaded *)
Lemma restart_within_timeout_loads :
  (load_session "s1" (hours 3) (hours 3)
     (restarted (base_dir store_saved_at_0) 5 24 [hours 1; hours 2])).1
  = Some a_processor.
Proof. vm_compute. reflexivity. Qed.

(** and a first pass after the timeout deletes it *)
Lemma restart_after_timeout_loses_session :
  (load_session "s1" (hours 26) (hours 26)
     (restarted (base_dir store_saved_at_0) 5 24 [hours 25])).1
  = None.
Proof. vm_compute. reflexivity. Qed.



(** ** Session ids that are file names *)

Section plain_ids.
Implicit Types (s e : string) (l : list ascii).

Lemma split_sep_no_sep l : "/"%char ∉ l → split_sep l = [l].
Proof.
  induction l as [|c l IH]; [done|].
  intros [Hc Hl]%not_elem_of_cons. simpl.
  destruct (Ascii.eqb c "/") eqn:E; [by apply Ascii.eqb_eq in E|].
  by rewrite IH.
Qed.

Lemma plain_id_no_sep s : plain_id s = true → "/"%char ∉ list_ascii_of_string s.
Proof.
  unfold plain_id. intros [Hall _]%andb_true_iff Hin.
  rewrite forallb_forall in Hall. apply list_elem_of_In in Hin.
  specialize (Hall _ Hin). simpl in Hall. discriminate Hall.
Qed.

(** for a file name followed by a suffix of two characters or more
    without separator, [pathlib] joins to the directory entry of that
    name *)
Lemma pathlib_join_plain s (suffix : string) :
  plain_id s = true →
  "/"%char ∉ list_ascii_of_string suffix →
  (2 <= length (list_ascii_of_string suffix))%nat →
  pathlib_join (String.append s suffix) = Below [String.append s suffix].
Proof.
  intros Hs Hsuf Hlen. apply plain_id_no_sep in Hs.
  assert (Hno : "/"%char ∉ list_ascii_of_string (String.append s suffix)).
  { rewrite list_ascii_of_append. by intros [?|?]%elem_of_app. }
  assert (Hlen' : (2 <= length (list_ascii_of_string (String.append s suffix)))%nat).
  { rewrite list_ascii_of_append, length_app. lia. }
  unfold pathlib_join, path_parts. rewrite (split_sep_no_sep _ Hno).
  destruct (list_ascii_of_string (String.append s suffix)) as [|c [|c' l]] eqn:E;
    [simpl in Hlen'; lia | simpl in Hlen'; lia |].
  assert (Hc : Ascii.eqb c "/" = false).
  { apply Ascii.eqb_neq. intros ->. apply Hno. apply list_elem_of_here. }
  rewrite Hc. cbn [List.filter map]. by rewrite <- E, string_of_list_ascii_of_string.
Qed.

(** the two files of a session whose id is a file name are the entries
    named by [_get_session_path] and [_get_metadata_path], and the files
    of two such sessions are four different entries *)
Lemma plain_id_files s e :
  plain_id s = true → plain_id e = true →
  pathlib_join (_get_session_path s) = Below [_get_session_path s]
  ∧ pathlib_join (_get_metadata_path s) = Below [_get_metadata_path s]
  ∧ (s ≠ e →
     pathlib_join (_get_session_path s) ≠ pathlib_join (_get_session_path e)
     ∧ pathlib_join (_get_metadata_path s) ≠ pathlib_join (_get_metadata_path e)
     ∧ pathlib_join (_get_session_path s) ≠ pathlib_join (_get_metadata_path e)).
Proof.
  intros Hs He.
  assert (Hp : ∀ x, plain_id x = true →
                    pathlib_join (_get_session_path x) = Below [_get_session_path x]).
  { intros x Hx. apply pathlib_join_plain; [done| |simpl; lia].
    apply (bool_decide_unpack _). vm_compute. exact I. }
  assert (Hm : ∀ x, plain_id x = true →
                    pathlib_join (_get_metadata_path x) = Below [_get_metadata_path x]).
  { intros x Hx. apply pathlib_join_plain; [done| |simpl; lia].
    apply (bool_decide_unpack _). vm_compute. exact I. }
  split; [by apply Hp|]. split; [by apply Hm|]. intros Hne.
  rewrite !Hp, !Hm by done. split_and!; intros [= H].
  - by apply session_path_inj in H.
  - by apply metadata_path_inj in H.
  - by apply session_path_not_metadata in H.
Qed.

(** ids that are not file names: ["./s1"] has the files of ["s1"], the
    files of ["a/b"] are in a directory that the store does not create,
    and an absolute id leaves the directory of the store *)
Lemma pathlib_join_examples :
  plain_id "s1" = true ∧ plain_id "./s1" = false
  ∧ pathlib_join (_get_session_path "./s1") = pathlib_join (_get_session_path "s1")
  ∧ pathlib_join (_get_metadata_path "./s1") = pathlib_join (_get_metadata_path "s1")
  ∧ pathlib_join (_get_session_path "a/b") = Below ["a"%string; "b.pkl"%string]
  ∧ pathlib_join (_get_session_path "/tmp/x")
    = Absolute false ["tmp"%string; "x.pkl"%string]
  ∧ pathlib_join (_get_session_path "../x") = Below [".."%string; "x.pkl"%string].
Proof. split_and!; vm_compute; reflexivity. Qed.
End plain_ids.
